(** * otp-manager: the TOTP generator and the secret store of the popup

    A shallow embedding of [popup.js] (classes [TOTPGenerator],
    [StorageManager] and the form handler of [UIController]) and of the
    copy of [TOTPGenerator] in the background service worker.

    Conventions of the embedding.
    - A JavaScript string is a [string]; every [ascii] stands for one
      UTF-16 code unit below 256, so the strings of the embedding are
      the Latin-1 ones.
    - The engine is V8, which runs the extension: the longest string has
      [kMaxLength] code units, ordinary objects inherit the properties
      of [Object.prototype], and the messages of the engine's own errors
      are V8's.  A secret is short enough for the bit string that
      [base32Decode] builds of it, five bits for each character, to be a
      string; the statements about arbitrary secrets say so.
    - A JavaScript number that the program keeps to integers is a [Z].
      Sums, differences and remainders of integers are exact in a double
      as long as they stay below [2^53] in absolute value, and so is the
      floor of a quotient; the statements that depend on it say so.  Bit
      operators go through [ToInt32], written out.  The one number that
      is not an integer, [progress], is a double: the rational it is
      equal to, computed with the rounding of binary64.
    - A [Uint8Array] is a [list Z] of values in [0, 256).
    - [chrome.storage.local] is a [gmap string (list Secret)]; the object
      that a read resolves to has the stored arrays as own properties.
    - A [throw] is the [Throw] outcome; effects on the storage area are
      threaded through a small state-and-exception monad. *)

From Stdlib Require Import ZArith List String Ascii Lia Bool.
From Stdlib Require Import QArith.QArith_base QArith.Qreduction QArith.Qround.
From stdpp Require Import gmap strings list.

Local Open Scope string_scope.
Local Open Scope list_scope.
Local Open Scope Z_scope.

(** ** JavaScript primitives used by the program *)

Module Js.

(** What a [throw] carries: the kind of error object and its message. *)
Inductive exn : Type :=
| Error (message : string)
| TypeError (message : string)
| RangeError (message : string)
| SyntaxError (message : string)
| DataError (message : string).

Definition message (e : exn) : string :=
  match e with
  | Error m | TypeError m | RangeError m | SyntaxError m | DataError m => m
  end.

Inductive result (A : Type) : Type :=
| Ok (a : A)
| Throw (e : exn).
Arguments Ok {A} a.
Arguments Throw {A} e.

(** What a call resolves to, as far as the properties below look at it:
    nothing ([undefined]) or a number. *)
Inductive value : Type :=
| undefined
| number (n : Z).

(** [try { body } catch (error) { throw handler(error) }] *)
Definition try_catch {A} (body : result A) (handler : exn -> exn) : result A :=
  match body with
  | Ok a => Ok a
  | Throw e => Throw (handler e)
  end.

(** [ToInt32]: the signed 32-bit wrap-around applied by [&], [|], [<<]. *)
Definition ToInt32 (z : Z) : Z := (z + 2 ^ 31) mod 2 ^ 32 - 2 ^ 31.

(** [ToUint32]: the wrap-around applied by [DataView.setUint32]. *)
Definition ToUint32 (z : Z) : Z := z mod 2 ^ 32.

Definition band (a b : Z) : Z := ToInt32 (Z.land (ToInt32 a) (ToInt32 b)).
Definition bor (a b : Z) : Z := ToInt32 (Z.lor (ToInt32 a) (ToInt32 b)).
Definition shl (a n : Z) : Z := ToInt32 (Z.shiftl (ToInt32 a) (n mod 32)).

(** [a[i]] on a typed array, in a position where the result is only
    used as an operand of [&]: out of range it reads [undefined], which
    [ToInt32] turns into 0. *)
Definition at_ (a : list Z) (i : Z) : Z :=
  if i <? 0 then 0 else nth (Z.to_nat i) a 0.

(** [a % b] takes the sign of the dividend. *)
Definition rem (a b : Z) : Z := Z.rem a b.

(** *** Doubles

    [round64 x] is the binary64 number nearest to the rational [x], ties
    to the even significand: 53 significant bits, or a multiple of
    [2^-1074] for the subnormal numbers.  It is meant for [|x| < 2^1024],
    where the result is finite. *)
Definition roundHalfEven (n d : Z) : Z :=
  let q := n / d in
  let r := n mod d in
  if 2 * r <? d then q
  else if d <? 2 * r then q + 1
  else if Z.even q then q else q + 1.

(** The exponent [E] of a positive fraction: [2^E <= n/d < 2^(E+1)].
    With [k = log2 n - log2 d] the fraction is between [2^(k-1)] and
    [2^(k+1)]. *)
Definition binade (n d : Z) : Z :=
  let k := Z.log2 n - Z.log2 d in
  if (if 0 <=? k then d * 2 ^ k <=? n else d <=? n * 2 ^ (- k))
  then k else k - 1.

Definition round64 (x : Q) : Q :=
  let n := Z.abs (Qnum x) in
  let d := Zpos (Qden x) in
  if n =? 0 then 0%Q
  else
    let e := Z.max (binade n d - 52) (-1074) in
    let m := if 0 <=? e then roundHalfEven n (d * 2 ^ e)
             else roundHalfEven (n * 2 ^ (- e)) d in
    let v := if 0 <=? e then inject_Z (m * 2 ^ e)
             else Qred (m # Z.to_pos (2 ^ (- e))) in
    if Qnum x <? 0 then Qopp v else v.

(** [x / y] and [x * y] on doubles, [y] not zero. *)
Definition divide (x y : Q) : Q := round64 (Qdiv x y).
Definition multiply (x y : Q) : Q := round64 (Qmult x y).

(** [Math.floor(a / b)] on integers, as the exact floor of the
    quotient.  The double [a / b] is rounded, but for positive integers
    below [2^53] the rounding stays below the next integer and
    [Math.floor] gives the exact floor ([floor_div_exact] below); above
    [2^53] it may give one more.  With [b = 0] the quotient is infinite
    or [NaN]; it is only written with [setUint32], which stores 0 for
    them as for the 0 of this definition. *)
Definition floor_div (a b : Z) : Z := a / b.

(** Decimal digits of a non-negative integer, most significant first. *)
Definition digitChar (d : Z) : ascii := ascii_of_nat (48 + Z.to_nat d).

Fixpoint decimal (fuel : nat) (n : Z) : list ascii :=
  match fuel with
  | O => []
  | S fuel' =>
      (if n <? 10 then [] else decimal fuel' (n / 10)) ++ [digitChar (n mod 10)]
  end.

(** [n.toString()] for an integer [n]. *)
Definition toString (n : Z) : string :=
  if n <? 0
  then String "-" (string_of_list_ascii (decimal (S (Z.to_nat (Z.log2 (- n)))) (- n)))
  else string_of_list_ascii (decimal (S (Z.to_nat (Z.log2 n))) n).

(** [String::kMaxLength], the length of the longest string of V8 on a
    64-bit platform. *)
Definition kMaxLength : Z := 2 ^ 29 - 24.

(** [s.padStart(targetLength, c)] for a one-character filler: [s]
    itself when it is long enough, and a [RangeError] when the target
    is beyond the longest string. *)
Definition padStart (s : string) (targetLength : nat) (c : ascii)
    : result string :=
  if (targetLength <=? String.length s)%nat then Ok s
  else if kMaxLength <? Z.of_nat targetLength
  then Throw (RangeError "Invalid string length")
  else Ok (string_of_list_ascii (repeat c (targetLength - String.length s)%nat)
           +:+ s).

(** [String.prototype.indexOf] for a one-character needle. *)
Fixpoint indexOf_from (s : string) (c : ascii) (i : Z) : Z :=
  match s with
  | EmptyString => -1
  | String a s' => if Ascii.eqb a c then i else indexOf_from s' c (i + 1)
  end.
Definition indexOf (s : string) (c : ascii) : Z := indexOf_from s c 0.

(** [c.toUpperCase()] of one code unit below 256, as far as
    [base32Chars.indexOf] tells the results apart.  Only the ASCII
    letters are mapped: the upper case of every other code unit below
    256 (itself, another letter with an accent, a Greek letter, or "SS")
    does not occur in the alphabet, like the code unit itself.  (Beyond
    256, which the embedding leaves out, four characters have an upper
    case that does occur in it: U+0131, U+017F, U+FB05 and U+FB06.) *)
Definition toUpperCase (c : ascii) : ascii :=
  let n := nat_of_ascii c in
  if ((97 <=? n) && (n <=? 122))%nat then ascii_of_nat (n - 32) else c.

(** White space of [\s] and of [trim()] among the code units below 256. *)
Definition isSpace (c : ascii) : bool :=
  let n := nat_of_ascii c in
  ((9 <=? n) && (n <=? 13) || (n =? 32) || (n =? 160))%nat.

Fixpoint trimStart (s : list ascii) : list ascii :=
  match s with
  | c :: r => if isSpace c then trimStart r else s
  | [] => []
  end.

(** [s.trim()] *)
Definition trim (s : string) : string :=
  string_of_list_ascii
    (rev (trimStart (rev (trimStart (list_ascii_of_string s))))).

(** [s.replace(/\s/g, '')] *)
Definition removeSpaces (s : string) : string :=
  string_of_list_ascii
    (List.filter (fun c => negb (isSpace c)) (list_ascii_of_string s)).

(** [s.replace(/=+$/, '')]: drops the run of [=] that ends the string. *)
Fixpoint stripPadding (s : list ascii) : list ascii :=
  match s with
  | [] => []
  | c :: r =>
      match stripPadding r with
      | [] => if Ascii.eqb c "=" then [] else [c]
      | r' => c :: r'
      end
  end.

(** Truthiness of a string and of a number. *)
Definition truthy_string (s : string) : bool := negb (String.eqb s "").
Definition truthy_number (n : Z) : bool := negb (n =? 0).

(** Truthiness of a property that holds a string when present. *)
Definition truthy_prop (x : option string) : bool :=
  match x with
  | Some s => truthy_string s
  | None => false
  end.

(** Reading a string property after it passed the truthiness test. *)
Definition prop (x : option string) : string := default "" x.

(** [x || d] where [x] is a possibly absent string, resp. number. *)
Definition or_string (x : option string) (d : string) : string :=
  match x with
  | Some s => if truthy_string s then s else d
  | None => d
  end.
Definition or_number (x : option Z) (d : Z) : Z :=
  match x with
  | Some n => if truthy_number n then n else d
  | None => d
  end.

(** The properties that an ordinary object inherits from
    [Object.prototype], each with the [length] of the function it
    holds; [__proto__] holds [Object.prototype] itself, which has no
    [length].  All of them are truthy, and none is an array. *)
Definition Object_prototype : list (string * option Z) :=
  [("constructor", Some 1); ("__defineGetter__", Some 2);
   ("__defineSetter__", Some 2); ("hasOwnProperty", Some 1);
   ("__lookupGetter__", Some 1); ("__lookupSetter__", Some 1);
   ("isPrototypeOf", Some 1); ("propertyIsEnumerable", Some 1);
   ("toString", Some 0); ("valueOf", Some 0); ("__proto__", None);
   ("toLocaleString", Some 0)].

(** The [length] of the inherited property [key], when there is one. *)
Definition inheritedLength (key : string) : option (option Z) :=
  snd <$> List.find (fun p => String.eqb (fst p) key) Object_prototype.

End Js.
Import Js.

(** ** The platform: [crypto.subtle] and typed arrays *)

Module WebCrypto.

(** The part of [crypto.subtle] that [hmacSha1] uses: [importKey] of a
    raw HMAC/SHA-1 key followed by [sign], which either throws or gives
    the signature bytes. *)
Record SubtleCrypto : Type := {
  importKey_sign : list Z -> list Z -> result (list Z)
}.

(** [new ArrayBuffer(n)] *)
Definition ArrayBuffer (n : nat) : list Z := repeat 0 n.

(** Big-endian bytes of a 32-bit word. *)
Definition bytes_of_word (w : Z) : list Z :=
  [w / 2 ^ 24 mod 256; w / 2 ^ 16 mod 256; w / 2 ^ 8 mod 256; w mod 256].

(** [view.setUint32(byteOffset, value, false)], within the buffer. *)
Definition setUint32 (buf : list Z) (byteOffset : nat) (value : Z) : list Z :=
  firstn byteOffset buf ++ bytes_of_word (ToUint32 value)
    ++ skipn (byteOffset + 4) buf.

(** *** SHA-1 (FIPS 180-4) and HMAC (RFC 2104), what the browser computes *)

Definition w32 (x : Z) : Z := x mod 2 ^ 32.
Definition rotl (n x : Z) : Z :=
  w32 (Z.lor (Z.shiftl x n) (Z.shiftr x (32 - n))).
Definition word_of_bytes (b : list Z) : Z :=
  fold_left (fun acc x => acc * 256 + x) b 0.

Definition pad (msg : list Z) : list Z :=
  let l := Z.of_nat (List.length msg) in
  msg ++ [0x80] ++ repeat 0 (Z.to_nat ((55 - l) mod 64))
      ++ bytes_of_word (8 * l / 2 ^ 32) ++ bytes_of_word (8 * l mod 2 ^ 32).

Fixpoint chunks (fuel size : nat) (l : list Z) : list (list Z) :=
  match fuel, l with
  | S fuel', _ :: _ => firstn size l :: chunks fuel' size (skipn size l)
  | _, _ => []
  end.

Fixpoint expand (n : nat) (w : list Z) : list Z :=
  match n with
  | O => w
  | S n' =>
      let t := List.length w in
      let x i := nth (t - i) w 0 in
      expand n' (w ++ [rotl 1 (Z.lxor (Z.lxor (x 3%nat) (x 8%nat))
                                      (Z.lxor (x 14%nat) (x 16%nat)))])
  end.

Definition hstate : Type := Z * Z * Z * Z * Z.

Definition round (st : hstate * nat) (w : Z) : hstate * nat :=
  let '(a, b, c, d, e, t) := st in
  let '(f, k) :=
    if (t <? 20)%nat then (Z.lor (Z.land b c) (Z.land (Z.lxor b 0xFFFFFFFF) d), 0x5A827999)
    else if (t <? 40)%nat then (Z.lxor (Z.lxor b c) d, 0x6ED9EBA1)
    else if (t <? 60)%nat
         then (Z.lor (Z.lor (Z.land b c) (Z.land b d)) (Z.land c d), 0x8F1BBCDC)
    else (Z.lxor (Z.lxor b c) d, 0xCA62C1D6) in
  (w32 (rotl 5 a + f + e + k + w), a, rotl 30 b, c, d, S t).

Definition compress (h : hstate) (block : list Z) : hstate :=
  let ws := expand 64 (List.map word_of_bytes (chunks 16 4 block)) in
  let '(h0, h1, h2, h3, h4) := h in
  let '(a, b, c, d, e, _) := fold_left round ws (h, O) in
  (w32 (h0 + a), w32 (h1 + b), w32 (h2 + c), w32 (h3 + d), w32 (h4 + e)).

Definition sha1 (msg : list Z) : list Z :=
  let padded := pad msg in
  let '(h0, h1, h2, h3, h4) :=
    fold_left compress (chunks (List.length padded) 64 padded)
      (0x67452301, 0xEFCDAB89, 0x98BADCFE, 0x10325476, 0xC3D2E1F0) in
  bytes_of_word h0 ++ bytes_of_word h1 ++ bytes_of_word h2
    ++ bytes_of_word h3 ++ bytes_of_word h4.

Definition hmac_sha1 (key data : list Z) : list Z :=
  let k := if (64 <? List.length key)%nat then sha1 key else key in
  let k := k ++ repeat 0 (64 - List.length k) in
  sha1 (List.map (Z.lxor 0x5c) k ++ sha1 (List.map (Z.lxor 0x36) k ++ data)).

(** The browser's implementation: [importKey] rejects an empty HMAC
    key with a [DataError]; otherwise [sign] gives the HMAC-SHA-1. *)
Definition browser : SubtleCrypto :=
  {| importKey_sign key data :=
       match key with
       | [] => Throw (DataError "HMAC key data must not be empty")
       | _ => Ok (hmac_sha1 key data)
       end |}.

End WebCrypto.
Import WebCrypto.

(** ** class TOTPGenerator *)

Module TOTPGenerator.

Definition base32Chars : string := "ABCDEFGHIJKLMNOPQRSTUVWXYZ234567".

(** [val.toString(2).padStart(5, '0')], as bits, for [0 <= val < 32]. *)
Definition bits5 (val : Z) : list bool :=
  List.map (Z.testbit val) [4; 3; 2; 1; 0].

(** The first loop of [base32Decode]: throws at the first character
    outside the alphabet. *)
Fixpoint collectBits (encoded : list ascii) : result (list bool) :=
  match encoded with
  | [] => Ok []
  | c :: rest =>
      let val := indexOf base32Chars (toUpperCase c) in
      if val =? -1 then Throw (Error "Invalid base32 character")
      else match collectBits rest with
           | Ok bits => Ok (bits5 val ++ bits)
           | Throw e => Throw e
           end
  end.

(** [parseInt(bits, 2)] *)
Definition parseInt2 (bits : list bool) : Z :=
  fold_left (fun acc b => 2 * acc + Z.b2z b) bits 0.

(** The second loop: [bytes[i] = parseInt(bits.substr(i * 8, 8), 2)]. *)
Fixpoint fillBytes (n : nat) (bits : list bool) : list Z :=
  match n with
  | O => []
  | S n' => parseInt2 (firstn 8 bits) :: fillBytes n' (skipn 8 bits)
  end.

Definition base32Decode (encoded : string) : result (list Z) :=
  match collectBits (stripPadding (list_ascii_of_string encoded)) with
  | Throw e => Throw e
  | Ok bits => Ok (fillBytes (List.length bits / 8) bits)
  end.

(** [validateSecret]: [true] unless [base32Decode] throws. *)
Definition validateSecret (secret : string) : bool :=
  match base32Decode secret with
  | Ok _ => true
  | Throw _ => false
  end.

(** The object returned by [generateTOTP] in the popup.
    [timeRemaining] is an integer, exact for times and periods below
    [2^53]; [progress] is the double that the two roundings of
    [((period - timeRemaining) / period) * 100] give.  With [period = 0]
    JavaScript has [NaN] in both; the embedding is for [period <> 0]. *)
Record TOTP : Type := {
  code : string;
  timeRemaining : Z;
  progress : Q
}.

Section WithPlatform.

(** [crypto.subtle], and the value of [Date.now()] (milliseconds) at
    the call. *)
Variable crypto : SubtleCrypto.
Variable Date_now : Z.

Definition hmacSha1 (key data : list Z) : result (list Z) :=
  importKey_sign crypto key data.

(** [timestamp || Math.floor(Date.now() / 1000)]; [None] is the
    default [null]. *)
Definition effectiveTime (timestamp : option Z) : Z :=
  match timestamp with
  | Some t => if truthy_number t then t else floor_div Date_now 1000
  | None => floor_div Date_now 1000
  end.

(** The HMAC message: an 8-byte buffer with [setUint32(4, counter, false)]. *)
Definition counterBytes (time period : Z) : list Z :=
  let counter := floor_div time period in
  setUint32 (ArrayBuffer 8) 4 counter.

(** The truncation expression, before [% Math.pow(10, digits)]. *)
Definition truncate (hmac : list Z) : Z :=
  let offset := band (at_ hmac (Z.of_nat (List.length hmac) - 1)) 0xf in
  bor (bor (bor (shl (band (at_ hmac offset) 0x7f) 24)
                (shl (band (at_ hmac (offset + 1)) 0xff) 16))
           (shl (band (at_ hmac (offset + 2)) 0xff) 8))
      (band (at_ hmac (offset + 3)) 0xff).

(** [generateTOTP] of [popup.js]. *)
Definition generateTOTP (secret : string) (timestamp : option Z)
    (digits : nat) (period : Z) : result TOTP :=
  try_catch
    match base32Decode secret with
    | Throw e => Throw e
    | Ok key =>
        let time := effectiveTime timestamp in
        match hmacSha1 key (counterBytes time period) with
        | Throw e => Throw e
        | Ok hmac =>
            let code := rem (truncate hmac) (10 ^ Z.of_nat digits) in
            let timeRemaining := period - rem time period in
            let progress :=
              multiply (divide (inject_Z (period - timeRemaining))
                               (inject_Z period))
                       (inject_Z 100) in
            match padStart (toString code) digits "0" with
            | Throw e => Throw e
            | Ok padded =>
                Ok {| code := padded;
                      timeRemaining := timeRemaining;
                      progress := progress |}
            end
        end
    end
    (fun _ => Error "Invalid secret key").

End WithPlatform.

End TOTPGenerator.

(** ** The copy of [TOTPGenerator] in the background service worker *)

Module Background.

Section WithPlatform.

Variable crypto : SubtleCrypto.
Variable Date_now : Z.

(** Same body as in the popup up to the [return]: only the code
    string is returned. *)
Definition generateTOTP (secret : string) (timestamp : option Z)
    (digits : nat) (period : Z) : result string :=
  try_catch
    match TOTPGenerator.base32Decode secret with
    | Throw e => Throw e
    | Ok key =>
        let time := TOTPGenerator.effectiveTime Date_now timestamp in
        match TOTPGenerator.hmacSha1 crypto key
                (TOTPGenerator.counterBytes time period) with
        | Throw e => Throw e
        | Ok hmac =>
            let code :=
              rem (TOTPGenerator.truncate hmac) (10 ^ Z.of_nat digits) in
            padStart (toString code) digits "0"
        end
    end
    (fun _ => Error "Invalid secret key").

End WithPlatform.

End Background.

(** ** The stored objects *)

Module Secret.

(** A secret as the program builds and stores it.  [id], [createdAt]
    and [updatedAt] are absent ([undefined]) until [saveSecret] sets
    them. *)
Record t : Type := {
  id : option string;
  website : string;
  name : string;
  secret : string;
  issuer : string;
  digits : Z;
  period : Z;
  algorithm : string;
  createdAt : option string;
  updatedAt : option string
}.

(** [{ ...s, updatedAt: now }] *)
Definition with_updatedAt (s : t) (now : string) : t :=
  {| id := id s; website := website s; name := name s; secret := secret s;
     issuer := issuer s; digits := digits s; period := period s;
     algorithm := algorithm s; createdAt := createdAt s;
     updatedAt := Some now |}.

(** [s.id = i] *)
Definition set_id (s : t) (i : option string) : t :=
  {| id := i; website := website s; name := name s; secret := secret s;
     issuer := issuer s; digits := digits s; period := period s;
     algorithm := algorithm s; createdAt := createdAt s;
     updatedAt := updatedAt s |}.

(** [s.createdAt = c] *)
Definition set_createdAt (s : t) (c : string) : t :=
  {| id := id s; website := website s; name := name s; secret := secret s;
     issuer := issuer s; digits := digits s; period := period s;
     algorithm := algorithm s; createdAt := Some c;
     updatedAt := updatedAt s |}.

(** [s.updatedAt = u] *)
Definition set_updatedAt (s : t) (u : string) : t := with_updatedAt s u.

End Secret.

(** ** The environment of the store: storage area, clock, id generator *)

Module Chrome.

(** What the outside world answers: the string of the [n]-th
    [new Date().toISOString()] and of the [n]-th [generateId()]
    ([Date.now().toString(36) + Math.random().toString(36).substr(2)]). *)
Record Oracle : Type := {
  toISOString : nat -> string;
  randomId : nat -> string
}.

(** The state the program acts on: [chrome.storage.local] and how many
    times the clock and the id generator were asked. *)
Record World : Type := {
  local : gmap string (list Secret.t);
  dates : nat;
  ids : nat
}.

(** Computations that read and write the world and may throw; what was
    written before a [throw] stays written. *)
Definition M (A : Type) : Type := World -> result A * World.

Definition ret {A} (a : A) : M A := fun w => (Ok a, w).
Definition throw {A} (e : exn) : M A := fun w => (Throw e, w).
Definition bind {A B} (c : M A) (k : A -> M B) : M B :=
  fun w => match c w with
           | (Ok a, w') => k a w'
           | (Throw e, w') => (Throw e, w')
           end.
(** [try { c } catch (error) { h(error) }] *)
Definition catch {A} (c : M A) (h : exn -> M A) : M A :=
  fun w => match c w with
           | (Ok a, w') => (Ok a, w')
           | (Throw e, w') => h e w'
           end.

(** What a property of the object read from the storage area holds:
    a stored array, which is an own property of that object, or what
    the object inherits from [Object.prototype] (a function with its
    [length], or [Object.prototype] itself, without [length]). *)
Inductive property : Type :=
| array (secrets : list Secret.t)
| inherited (length : option Z).

(** [chrome.storage.local.get([key])[key]]: the read resolves to an
    ordinary object, with the property [key] when the area has that
    key; [None] is [undefined]. *)
Definition storage_get (key : string) : M (option property) :=
  fun w => (Ok match local w !! key with
               | Some secrets => Some (array secrets)
               | None => inherited <$> inheritedLength key
               end,
            w).

(** [chrome.storage.local.set({ [key]: value })] *)
Definition storage_set (key : string) (value : list Secret.t) : M unit :=
  fun w => (Ok tt, {| local := <[key := value]> (local w);
                      dates := dates w; ids := ids w |}).

Section WithOracle.
Variable oracle : Oracle.

(** [new Date().toISOString()] *)
Definition new_Date_toISOString : M string :=
  fun w => (Ok (toISOString oracle (dates w)),
            {| local := local w; dates := S (dates w); ids := ids w |}).

(** [Date.now().toString(36) + Math.random().toString(36).substr(2)] *)
Definition nextRandomId : M string :=
  fun w => (Ok (randomId oracle (ids w)),
            {| local := local w; dates := dates w; ids := S (ids w) |}).
End WithOracle.

End Chrome.
Import Chrome.

Notation "'let*' x ':=' c 'in' k" := (bind c (fun x => k))
  (at level 10, x name, c at level 100, k at level 200).
Notation "c ';;' k" := (bind c (fun _ => k))
  (at level 100, k at level 200, right associativity).

(** ** class StorageManager *)

Module StorageManager.

(** [array.findIndex(p)]; [None] stands for -1. *)
Fixpoint findIndex {A} (p : A -> bool) (l : list A) : option nat :=
  match l with
  | [] => None
  | x :: r => if p x then Some O else S <$> findIndex p r
  end.

(** The import document after [JSON.parse], as far as [importSecrets]
    looks at it.  An entry carries the six properties it may have, of
    the types [exportSecrets] writes; [None] as an entry is a JSON
    [null].  (An element that is a number, a string, a boolean or an
    array has none of the six properties, like the entry without any.) *)
Record Entry : Type := {
  e_website : option string;
  e_name : option string;
  e_secret : option string;
  e_issuer : option string;
  e_digits : option Z;
  e_period : option Z
}.

(** The value of [data.secrets]. *)
Inductive Json : Type :=
| JNull
| JBool (b : bool)
| JNumber (n : Z)
| JString (s : string)
| JObject
| JArray (entries : list (option Entry)).

(** [!!v] *)
Definition truthy (v : Json) : bool :=
  match v with
  | JNull => false
  | JBool b => b
  | JNumber n => truthy_number n
  | JString s => truthy_string s
  | JObject | JArray _ => true
  end.

(** [Array.isArray(v)] *)
Definition isArray (v : Json) : bool :=
  match v with
  | JArray _ => true
  | _ => false
  end.

(** What [for (const secret of v)] goes through, for an array. *)
Definition elements (v : Json) : list (option Entry) :=
  match v with
  | JArray entries => entries
  | _ => []
  end.

Inductive Document : Type :=
| NotJson (message : string)      (* [JSON.parse] throws a SyntaxError *)
| JsonNull                        (* the text is [null] *)
| Data (secrets : option Json).   (* [None]: [data.secrets] is [undefined] *)

(** A document with an array of entries as its [secrets]. *)
Definition Secrets (entries : list (option Entry)) : Document :=
  Data (Some (JArray entries)).

Section WithOracle.
Variable oracle : Oracle.

Definition generateId : M string := nextRandomId oracle.

(** [result[domain] || []]: every property that a read can find is
    truthy. *)
Definition getSecretsForDomain (domain : string) : M property :=
  let* result := storage_get domain in
  ret (default (array []) result).

(** An inherited property has no [findIndex]: the call of [undefined]
    throws. *)
Definition saveSecret (secret : Secret.t) : M unit :=
  let* secrets := getSecretsForDomain (Secret.website secret) in
  match secrets with
  | inherited _ => throw (TypeError "secrets.findIndex is not a function")
  | array secrets =>
      let existingIndex :=
        findIndex (fun s => bool_decide (Secret.id s = Secret.id secret))
          secrets in
      match existingIndex with
      | Some i =>
          let* now := new_Date_toISOString oracle in
          storage_set (Secret.website secret)
            (<[i := Secret.with_updatedAt secret now]> secrets)
      | None =>
          let* i := generateId in
          let secret := Secret.set_id secret (Some i) in
          let* c := new_Date_toISOString oracle in
          let secret := Secret.set_createdAt secret c in
          let* u := new_Date_toISOString oracle in
          let secret := Secret.set_updatedAt secret u in
          storage_set (Secret.website secret) (secrets ++ [secret])
      end
  end.

Definition deleteSecret (secretId : option string) (domain : string) : M unit :=
  let* secrets := getSecretsForDomain domain in
  match secrets with
  | inherited _ => throw (TypeError "secrets.filter is not a function")
  | array secrets =>
      let filteredSecrets :=
        List.filter (fun s => negb (bool_decide (Secret.id s = secretId)))
          secrets in
      storage_set domain filteredSecrets
  end.

(** [!secret.website || !secret.name || !secret.secret] *)
Definition invalidEntry (e : Entry) : bool :=
  negb (truthy_prop (e_website e))
  || negb (truthy_prop (e_name e))
  || negb (truthy_prop (e_secret e)).

(** The object literal handed to [saveSecret] by the import loop. *)
Definition entrySecret (e : Entry) : Secret.t :=
  {| Secret.id := None;
     Secret.website := prop (e_website e);
     Secret.name := prop (e_name e);
     Secret.secret := prop (e_secret e);
     Secret.issuer := or_string (e_issuer e) "";
     Secret.digits := or_number (e_digits e) 6;
     Secret.period := or_number (e_period e) 30;
     Secret.algorithm := "SHA1";
     Secret.createdAt := None;
     Secret.updatedAt := None |}.

(** [for (const secret of data.secrets) { ... }] *)
Fixpoint importLoop (entries : list (option Entry)) : M unit :=
  match entries with
  | [] => ret tt
  | None :: _ =>
      throw (TypeError "Cannot read properties of null (reading 'website')")
  | Some e :: rest =>
      if invalidEntry e then importLoop rest
      else saveSecret (entrySecret e) ;; importLoop rest
  end.

(** [importSecrets]: no [return] statement, the call resolves to
    [undefined]. *)
Definition importSecrets (jsonData : Document) : M value :=
  catch
    (match jsonData with
     | NotJson m => throw (SyntaxError m)
     | JsonNull =>
         throw (TypeError "Cannot read properties of null (reading 'secrets')")
     | Data secrets =>
         if negb (from_option truthy false secrets)
            || negb (from_option isArray false secrets)
         then throw (Error "Invalid import format")
         else importLoop (from_option elements [] secrets)
     end ;;
     ret undefined)
    (fun error => throw (Error ("Failed to import secrets: " +:+ message error))).

(** [getAllSecrets].  [keys] is what [Object.keys(result)] lists, in its
    order, on the object that [chrome.storage.local.get()] resolves to.
    Every value of the storage area is an array in this embedding, so
    [Array.isArray(result[domain])] holds for every key of the area. *)
Definition getAllSecrets (keys : list string) : M (list Secret.t) :=
  fun w =>
    (Ok (fold_left
           (fun allSecrets domain =>
              match local w !! domain with
              | Some secrets => allSecrets ++ secrets
              | None => allSecrets
              end)
           keys []),
     w).

(** One element of [secrets.map(s => ({ ... }))] in [exportSecrets]. *)
Definition exportEntry (s : Secret.t) : Entry :=
  {| e_website := Some (Secret.website s);
     e_name := Some (Secret.name s);
     e_secret := Some (Secret.secret s);
     e_issuer := Some (or_string (Some (Secret.issuer s)) "");
     e_digits := Some (or_number (Some (Secret.digits s)) 6);
     e_period := Some (or_number (Some (Secret.period s)) 30) |}.

(** The object that [exportSecrets] hands to [JSON.stringify]. *)
Record ExportDocument : Type := {
  x_version : string;
  x_exportDate : string;
  x_secrets : list Entry
}.

(** [exportSecrets], up to the serialization of its object. *)
Definition exportSecrets (keys : list string) : M ExportDocument :=
  let* secrets := getAllSecrets keys in
  let* exportDate := new_Date_toISOString oracle in
  ret {| x_version := "1.0";
         x_exportDate := exportDate;
         x_secrets := List.map exportEntry secrets |}.

End WithOracle.

End StorageManager.

(** ** class UIController: the add/edit form *)

Module UIController.

(** The values of the form controls; the two [select]s offer 6, 8 and
    30, 60 and are read through [parseInt]. *)
Record Form : Type := {
  secretName : string;
  secretWebsite : string;
  secretKey : string;
  secretIssuer : string;
  secretDigits : Z;
  secretPeriod : Z
}.

(** How [handleFormSubmit] ends. *)
Inductive Outcome : Type :=
| showError (message : string)
| showMainView.

Section WithOracle.
Variable oracle : Oracle.

(** [editingSecret] is [this.editingSecret] ([None] for [null]). *)
Definition handleFormSubmit (form : Form) (editingSecret : option Secret.t)
    : M Outcome :=
  let website := trim (secretWebsite form) in
  let secret :=
    {| Secret.id := None;
       Secret.name := or_string (Some (trim (secretName form))) website;
       Secret.website := website;
       Secret.secret := removeSpaces (trim (secretKey form));
       Secret.issuer := trim (secretIssuer form);
       Secret.digits := secretDigits form;
       Secret.period := secretPeriod form;
       Secret.algorithm := "SHA1";
       Secret.createdAt := None;
       Secret.updatedAt := None |} in
  if negb (truthy_string (Secret.website secret))
     || negb (truthy_string (Secret.secret secret))
  then ret (showError "Please fill in all required fields")
  else if negb (TOTPGenerator.validateSecret (Secret.secret secret))
  then ret (showError "Invalid secret key. Please check the Base32 format.")
  else
    catch
      (let secret :=
         match editingSecret with
         | Some editing => Secret.set_id secret (Secret.id editing)
         | None => secret
         end in
       StorageManager.saveSecret oracle secret ;;
       ret showMainView)
      (fun _ => ret (showError "Failed to save secret")).

(** [editSecret]: the record handed to [showEditView], which becomes
    [this.editingSecret]; [None] when [find] gives [undefined]. *)
Definition editSecret (currentSecrets : list Secret.t) (secretId : string)
    : option Secret.t :=
  List.find (fun s => bool_decide (Secret.id s = Some secretId)) currentSecrets.

(** [handleDelete]; [confirmed] is the answer of [confirm(...)].  [None]
    is the plain [return], without a change of view. *)
Definition handleDelete (editingSecret : option Secret.t) (confirmed : bool)
    : M (option Outcome) :=
  match editingSecret with
  | None => ret None
  | Some editing =>
      if confirmed
      then catch
             (StorageManager.deleteSecret (Secret.id editing)
                (Secret.website editing) ;;
              ret (Some showMainView))
             (fun _ => ret (Some (showError "Failed to delete secret")))
      else ret None
  end.

End WithOracle.

End UIController.

(** ** The specification's wording of [computeCode], for comparison *)

Module Spec.

(** The 8-byte big-endian serialization of an unsigned integer. *)
Definition be64 (n : Z) : list Z :=
  List.map (fun i => n / 256 ^ i mod 256) [7; 6; 5; 4; 3; 2; 1; 0].

(** Dynamic truncation: [offset = last digest byte & 0x0F], the 4 bytes
    starting at [offset], the first of them masked with 0x7F, read as a
    big-endian unsigned 32-bit integer. *)
Definition offset (digest : list Z) : nat :=
  Z.to_nat (Z.land (List.last digest 0) 0x0F).

Definition fourBytes (digest : list Z) : list Z :=
  firstn 4 (skipn (offset digest) digest).

Definition maskFirst (bytes : list Z) : list Z :=
  match bytes with
  | b :: rest => Z.land b 0x7F :: rest
  | [] => []
  end.

Definition be_uint32 (bytes : list Z) : Z :=
  fold_left (fun acc b => acc * 256 + b) bytes 0.

(** ... then reduced [mod 10^digits]. *)
Definition truncated (digest : list Z) (digits : nat) : Z :=
  be_uint32 (maskFirst (fourBytes digest)) mod 10 ^ Z.of_nat digits.

(** The decimal numeral of [v] on exactly [width] characters, zeros on
    the left. *)
Fixpoint fixedWidth (width : nat) (v : Z) : list ascii :=
  match width with
  | O => []
  | S w => fixedWidth w (v / 10) ++ [digitChar (v mod 10)]
  end.

Definition code (digest : list Z) (digits : nat) : string :=
  string_of_list_ascii (fixedWidth digits (truncated digest digits)).

(** Reading a string of decimal digits back. *)
Definition digitValue (c : ascii) : option Z :=
  let n := nat_of_ascii c in
  if ((48 <=? n) && (n <=? 57))%nat then Some (Z.of_nat n - 48) else None.

Fixpoint readDecimal (acc : Z) (s : list ascii) : option Z :=
  match s with
  | [] => Some acc
  | c :: r =>
      match digitValue c with
      | Some d => readDecimal (acc * 10 + d) r
      | None => None
      end
  end.

Definition valueOf (s : string) : option Z :=
  readDecimal 0 (list_ascii_of_string s).

Inductive failure : Type := InvalidSecret | UnsupportedParameters.

Definition supportedDigits (digits : nat) : bool :=
  ((digits =? 6) || (digits =? 8))%nat.
Definition supportedPeriod (period : Z) : bool :=
  (period =? 30) || (period =? 60).

(** [computeCode] as section 4.1 words it, with HMAC-SHA-1. *)
Definition computeCode (secretKey : string) (unixTimeSeconds : Z)
    (digits : nat) (period : Z) : failure + string * Z :=
  if negb (supportedDigits digits && supportedPeriod period)
  then inl UnsupportedParameters
  else
    match TOTPGenerator.base32Decode secretKey with
    | Throw _ | Ok [] => inl InvalidSecret
    | Ok key =>
        let counter := unixTimeSeconds / period in
        let digest := hmac_sha1 key (be64 counter) in
        inr (code digest digits, period - unixTimeSeconds mod period)
    end.

End Spec.

(** * Vocabulary of the statements *)

(** A byte of a [Uint8Array]. *)
Definition isByte (b : Z) : Prop := 0 <= b < 256.

(** The bucket of a website: the records stored under that key, none
    when the storage area does not have the key. *)
Definition bucket (w : World) (d : string) : list Secret.t :=
  default [] (local w !! d).

(** A key under which [getSecretsForDomain] finds an array: a key of
    the storage area, or a name that is not a property of
    [Object.prototype]. *)
Definition readsArray (w : World) (d : string) : Prop :=
  is_Some (local w !! d) \/ inheritedLength d = None.

(** No key of the storage area is the name of a property of
    [Object.prototype]. *)
Definition plainKeys (w : World) : Prop :=
  forall d, is_Some (local w !! d) -> inheritedLength d = None.

(** A record without what the store adds to it. *)
Definition erase (s : Secret.t) : Secret.t :=
  {| Secret.id := None; Secret.website := Secret.website s;
     Secret.name := Secret.name s; Secret.secret := Secret.secret s;
     Secret.issuer := Secret.issuer s; Secret.digits := Secret.digits s;
     Secret.period := Secret.period s; Secret.algorithm := Secret.algorithm s;
     Secret.createdAt := None; Secret.updatedAt := None |}.

(** The record that the creating branch of [saveSecret] appends. *)
Definition created (oracle : Oracle) (w : World) (secret : Secret.t) : Secret.t :=
  {| Secret.id := Some (randomId oracle (ids w));
     Secret.website := Secret.website secret;
     Secret.name := Secret.name secret; Secret.secret := Secret.secret secret;
     Secret.issuer := Secret.issuer secret; Secret.digits := Secret.digits secret;
     Secret.period := Secret.period secret;
     Secret.algorithm := Secret.algorithm secret;
     Secret.createdAt := Some (toISOString oracle (dates w));
     Secret.updatedAt := Some (toISOString oracle (S (dates w))) |}.

(** Every stored record has an id. *)
Definition allHaveId (w : World) : Prop :=
  forall d l s, local w !! d = Some l -> In s l -> Secret.id s <> None.

(** No stored record, in any bucket, has the id [i]. *)
Definition idAbsent (w : World) (i : option string) : Prop :=
  forall d l s, local w !! d = Some l -> In s l -> Secret.id s <> i.

(** A [secrets] field that is there and is a sequence. *)
Definition isSequence (secrets : option StorageManager.Json) : bool :=
  match secrets with
  | Some (StorageManager.JArray _) => true
  | _ => false
  end.

(** A property that an entry has, with a string that is not empty. *)
Definition present (x : option string) : bool :=
  match x with
  | Some (String _ _) => true
  | _ => false
  end.

(** An entry with a website, a name and a secret key. *)
Definition complete (e : StorageManager.Entry) : bool :=
  present (StorageManager.e_website e) && present (StorageManager.e_name e)
  && present (StorageManager.e_secret e).

(** The complete entries of an import, and those of the website [d]. *)
Definition kept (entries : list StorageManager.Entry) : list StorageManager.Entry :=
  List.filter complete entries.

Definition keptFor (d : string) (entries : list StorageManager.Entry)
    : list StorageManager.Entry :=
  List.filter
    (fun e => complete e && bool_decide (StorageManager.e_website e = Some d))
    entries.

(** The websites of the complete entries do not name properties of
    [Object.prototype]. *)
Definition plainWebsites (entries : list StorageManager.Entry) : Prop :=
  forall e, In e entries -> complete e = true ->
            inheritedLength (default "" (StorageManager.e_website e)) = None.

(** The record that an import is to make of a complete entry, before
    the store gives it an id and dates: its website, name, secret and
    issuer, 6 digits and a period of 30 unless the entry has its own,
    and the fixed algorithm. *)
Definition importedAs (e : StorageManager.Entry) : Secret.t :=
  {| Secret.id := None;
     Secret.website := default "" (StorageManager.e_website e);
     Secret.name := default "" (StorageManager.e_name e);
     Secret.secret := default "" (StorageManager.e_secret e);
     Secret.issuer := default "" (StorageManager.e_issuer e);
     Secret.digits := match StorageManager.e_digits e with
                      | Some 0 | None => 6
                      | Some n => n
                      end;
     Secret.period := match StorageManager.e_period e with
                      | Some 0 | None => 30
                      | Some n => n
                      end;
     Secret.algorithm := "SHA1";
     Secret.createdAt := None; Secret.updatedAt := None |}.

(** * Fixtures

    The secret of the RFC 6238 vectors, "12345678901234567890", its key
    bytes and its HMAC-SHA-1 at time 59 (counter 1). *)

Definition rfc_secret : string := "GEZDGNBVGY3TQOJQGEZDGNBVGY3TQOJQ".

Definition rfc_key : list Z :=
  [49; 50; 51; 52; 53; 54; 55; 56; 57; 48; 49; 50; 51; 52; 53; 54; 55; 56; 57; 48].

Definition rfc_digest_59 : list Z :=
  [117; 164; 138; 25; 212; 203; 225; 0; 100; 78;
   138; 193; 57; 126; 234; 116; 122; 45; 51; 171].

(** ** Fixtures: a clock, an id generator and stored records *)

Definition oracle0 : Oracle :=
  {| toISOString n := "2025-06-01T10:00:0" +:+ toString (Z.of_nat n) +:+ ".000Z";
     randomId n := "mbd3k9q" +:+ toString (Z.of_nat n) |}.

Definition github : Secret.t :=
  {| Secret.id := Some "lz1a7c2"; Secret.website := "github.com";
     Secret.name := "work"; Secret.secret := "JBSWY3DPEHPK3PXP";
     Secret.issuer := "GitHub"; Secret.digits := 6; Secret.period := 30;
     Secret.algorithm := "SHA1";
     Secret.createdAt := Some "2024-01-01T00:00:00.000Z";
     Secret.updatedAt := Some "2024-01-01T00:00:00.000Z" |}.

Definition github2 : Secret.t :=
  {| Secret.id := Some "lz1b8d3"; Secret.website := "github.com";
     Secret.name := "home"; Secret.secret := "GEZDGNBVGY3TQOJQ";
     Secret.issuer := ""; Secret.digits := 6; Secret.period := 30;
     Secret.algorithm := "SHA1";
     Secret.createdAt := Some "2024-02-02T00:00:00.000Z";
     Secret.updatedAt := Some "2024-02-02T00:00:00.000Z" |}.

Definition empty_world : World := {| local := ∅; dates := 0; ids := 0 |}.

Definition world1 : World :=
  {| local := {[ "github.com" := [github; github2] ]}; dates := 0; ids := 0 |}.

(** The edit form opened on [github], with the name changed. *)
Definition rename_form : UIController.Form :=
  {| UIController.secretName := "office";
     UIController.secretWebsite := "github.com";
     UIController.secretKey := "JBSWY3DPEHPK3PXP";
     UIController.secretIssuer := "GitHub";
     UIController.secretDigits := 6;
     UIController.secretPeriod := 30 |}.

(** The edit form opened on [github], with the website changed. *)
Definition move_form : UIController.Form :=
  {| UIController.secretName := "work";
     UIController.secretWebsite := "gitlab.com";
     UIController.secretKey := "JBSWY3DPEHPK3PXP";
     UIController.secretIssuer := "GitHub";
     UIController.secretDigits := 6;
     UIController.secretPeriod := 30 |}.

Definition entry (website name secret : option string) : StorageManager.Entry :=
  {| StorageManager.e_website := website; StorageManager.e_name := name;
     StorageManager.e_secret := secret; StorageManager.e_issuer := None;
     StorageManager.e_digits := None; StorageManager.e_period := None |}.

(** Three entries, the second without its secret key. *)
Definition three_entries : list StorageManager.Entry :=
  [entry (Some "github.com") (Some "work") (Some "JBSWY3DPEHPK3PXP");
   entry (Some "gitlab.com") (Some "ci") None;
   entry (Some "example.org") (Some "mail") (Some "GEZDGNBVGY3TQOJQ")].

(** A record edited under an id that no bucket holds. *)
Definition ghost : Secret.t :=
  {| Secret.id := Some "zz9ghost"; Secret.website := "github.com";
     Secret.name := "ghost"; Secret.secret := "JBSWY3DPEHPK3PXP";
     Secret.issuer := ""; Secret.digits := 6; Secret.period := 30;
     Secret.algorithm := "SHA1"; Secret.createdAt := None;
     Secret.updatedAt := None |}.

(** * Vocabulary of the further properties *)

(** The characters of the Base32 alphabet, in either case. *)
Definition isBase32Char (c : ascii) : bool :=
  let n := nat_of_ascii c in
  ((65 <=? n) && (n <=? 90) || (97 <=? n) && (n <=? 122)
   || (50 <=? n) && (n <=? 55))%nat.

(** The characters that [base32Decode] looks at: the input without the
    run of [=] at its end. *)
Definition stripped (s : string) : list ascii :=
  stripPadding (list_ascii_of_string s).

(** Two strings that differ in the case of their letters only. *)
Definition sameLetters (s1 s2 : string) : Prop :=
  Forall2 (fun a b => toUpperCase a = toUpperCase b)
    (list_ascii_of_string s1) (list_ascii_of_string s2).

(** The Base32 encoding of RFC 4648, without padding: the bits of the
    bytes, most significant first, cut into groups of five (the last one
    completed with zeros), each group the index of a character of the
    alphabet. *)
Definition byteBits (b : Z) : list bool :=
  List.map (Z.testbit b) [7; 6; 5; 4; 3; 2; 1; 0].

Definition base32Char (v : Z) : ascii :=
  nth (Z.to_nat v) (list_ascii_of_string TOTPGenerator.base32Chars) "A"%char.

Fixpoint encodeBits (fuel : nat) (bits : list bool) : list ascii :=
  match fuel, bits with
  | S fuel', _ :: _ =>
      base32Char (TOTPGenerator.parseInt2 (firstn 5 (bits ++ repeat false 4)))
      :: encodeBits fuel' (skipn 5 bits)
  | _, _ => []
  end.

Definition base32Encode (bytes : list Z) : string :=
  let bits := flat_map byteBits bytes in
  string_of_list_ascii (encodeBits (List.length bits) bits).

(** A property of the stored records that may mention the key they are
    stored under, held by every record of the storage area. *)
Definition storeInvariant (P : string -> Secret.t -> Prop) (w : World) : Prop :=
  forall d l s, local w !! d = Some l -> In s l -> P d s.

(** Every record is stored under the key of its own [website]. *)
Definition wellBucketed : World -> Prop :=
  storeInvariant (fun d s => Secret.website s = d).

(** Every record has a website, a name and a secret that are not empty. *)
Definition allFilled : World -> Prop :=
  storeInvariant (fun _ s => Secret.website s <> "" /\ Secret.name s <> ""
                             /\ Secret.secret s <> "").

(** Every stored secret passes [validateSecret]. *)
Definition allValid : World -> Prop :=
  storeInvariant (fun _ s => TOTPGenerator.validateSecret (Secret.secret s) = true).

(** Inside each bucket no id occurs twice. *)
Definition idsUnique (w : World) : Prop :=
  forall d, NoDup (List.map Secret.id (bucket w d)).

(** [keys] lists the keys of the storage area, each once: what
    [Object.keys] gives on the object read by [chrome.storage.local.get()],
    in whatever order. *)
Definition ownKeys (w : World) (keys : list string) : Prop :=
  NoDup keys /\ forall k, In k keys <-> is_Some (local w !! k).

(** What [importSecrets] gets from [JSON.parse] on the text that
    [JSON.stringify] makes of an exported object: strings and integers
    come back as they were, [version] and [exportDate] are not read. *)
Definition reparsed (doc : StorageManager.ExportDocument) : StorageManager.Document :=
  StorageManager.Secrets (List.map Some (StorageManager.x_secrets doc)).

(** The six exported fields of a record, as a record without id and
    dates: [issuer], [digits || 6], [period || 30], and the algorithm
    that the import writes. *)
Definition exported (s : Secret.t) : Secret.t :=
  {| Secret.id := None; Secret.website := Secret.website s;
     Secret.name := Secret.name s; Secret.secret := Secret.secret s;
     Secret.issuer := Secret.issuer s;
     Secret.digits := or_number (Some (Secret.digits s)) 6;
     Secret.period := or_number (Some (Secret.period s)) 30;
     Secret.algorithm := "SHA1";
     Secret.createdAt := None; Secret.updatedAt := None |}.

(** The object that [handleFormSubmit] builds from the form. *)
Definition formSecret (form : UIController.Form) : Secret.t :=
  let website := trim (UIController.secretWebsite form) in
  {| Secret.id := None;
     Secret.name :=
       (if String.eqb (trim (UIController.secretName form)) ""
        then website else trim (UIController.secretName form));
     Secret.website := website;
     Secret.secret := removeSpaces (trim (UIController.secretKey form));
     Secret.issuer := trim (UIController.secretIssuer form);
     Secret.digits := UIController.secretDigits form;
     Secret.period := UIController.secretPeriod form;
     Secret.algorithm := "SHA1";
     Secret.createdAt := None;
     Secret.updatedAt := None |}.

(** The object that [handleFormSubmit] hands to [saveSecret]: the one
    of the form, with the id of the record being edited. *)
Definition submitted (form : UIController.Form) (editing : option Secret.t)
    : Secret.t :=
  match editing with
  | Some e => Secret.set_id (formSecret form) (Secret.id e)
  | None => formSecret form
  end.

(** A form as typed by a user: a key in groups, spaces around the
    fields, no name. *)
Definition typed_form : UIController.Form :=
  {| UIController.secretName := "  ";
     UIController.secretWebsite := " example.org ";
     UIController.secretKey := "jbsw y3dp ehpk 3pxp";
     UIController.secretIssuer := "";
     UIController.secretDigits := 6;
     UIController.secretPeriod := 30 |}.

(** An object that [saveSecret] may store without breaking the
    invariant [P]: the record made of it satisfies [P], in the creating
    branch and in the updating one. *)
Definition savable (oracle : Oracle) (P : string -> Secret.t -> Prop)
    (secret : Secret.t) : Prop :=
  forall w, storeInvariant P w ->
    P (Secret.website secret) (created oracle w secret)
    /\ forall i old now,
         bucket w (Secret.website secret) !! i = Some old ->
         Secret.id old = Secret.id secret ->
         P (Secret.website secret) (Secret.with_updatedAt secret now).

(** A storage area with two buckets. *)
Definition mail : Secret.t :=
  {| Secret.id := Some "lz2c9e4"; Secret.website := "example.org";
     Secret.name := "mail"; Secret.secret := "GEZDGNBVGY3TQOJQ";
     Secret.issuer := ""; Secret.digits := 0; Secret.period := 60;
     Secret.algorithm := "SHA1";
     Secret.createdAt := Some "2024-03-03T00:00:00.000Z";
     Secret.updatedAt := Some "2024-03-03T00:00:00.000Z" |}.

Definition world2 : World :=
  {| local := <["example.org" := [mail]]> {[ "github.com" := [github; github2] ]};
     dates := 0; ids := 0 |}.

(** A form whose key is not Base32. *)
Definition bad_form : UIController.Form :=
  {| UIController.secretName := "work";
     UIController.secretWebsite := "github.com";
     UIController.secretKey := "not base32!";
     UIController.secretIssuer := "";
     UIController.secretDigits := 6;
     UIController.secretPeriod := 30 |}.

(** A form and an import entry for a site named 'constructor'. *)
Definition constructor_form : UIController.Form :=
  {| UIController.secretName := "";
     UIController.secretWebsite := "constructor";
     UIController.secretKey := "JBSWY3DPEHPK3PXP";
     UIController.secretIssuer := "";
     UIController.secretDigits := 6;
     UIController.secretPeriod := 30 |}.

Definition constructor_entry : StorageManager.Entry :=
  entry (Some "constructor") (Some "intranet") (Some "JBSWY3DPEHPK3PXP").

(** ** The service worker: the keyboard shortcut *)

Module ServiceWorker.

(** What the handler of the shortcut leaves behind. *)
Inductive Effect : Type :=
| logged (message : string)                      (* [console.log] only *)
| notified (title message : string)              (* [chrome.notifications.create] *)
| sent (tabId : Z) (code secretName : string)    (* [chrome.tabs.sendMessage], action pasteTOTP *)
| silent.                                        (* a code, but no tab to send it to *)

Section WithBrowser.

(** [crypto.subtle] and [Date.now()], as for the generator; what
    [BackgroundStorage.getCurrentDomain()] resolves to ([None] for
    [null]); the id of the tab found by the second [chrome.tabs.query]
    ([None] when there is none); whether [chrome.tabs.sendMessage]
    resolves. *)
Variable crypto : SubtleCrypto.
Variable Date_now : Z.
Variable currentDomain : option string.
Variable tabId : option Z.
Variable delivered : bool.

(** [BackgroundStorage.getSecretsForDomain] *)
Definition getSecretsForDomain (domain : string) : M property :=
  let* result := storage_get domain in
  ret (default (array []) result).

(** [handleTOTPShortcut].  The stored [digits] is taken non-negative (a
    negative one is outside the embedding of [generateTOTP]).  On an
    inherited property, [secrets.length] is the [length] of the
    function and [secrets[0]] is [undefined], whose [secret] cannot be
    read: the [TypeError] ends in the [catch]. *)
Definition handleTOTPShortcut : M Effect :=
  if negb (truthy_prop currentDomain)
  then ret (logged "No active domain found")
  else
    let domain := prop currentDomain in
    let* secrets := getSecretsForDomain domain in
    match secrets with
    | inherited (Some 0) | array [] =>
        ret (notified "TOTP Generator"
               ("No TOTP secrets configured for " +:+ domain))
    | inherited _ =>
        ret (notified "TOTP Generator Error" "Failed to generate TOTP code")
    | array (secret :: _) =>
        match Background.generateTOTP crypto Date_now (Secret.secret secret) None
                (Z.to_nat (or_number (Some (Secret.digits secret)) 6))
                (or_number (Some (Secret.period secret)) 30) with
        | Throw _ =>
            ret (notified "TOTP Generator Error" "Failed to generate TOTP code")
        | Ok code =>
            match tabId with
            | Some tab =>
                if truthy_number tab
                then if delivered
                     then ret (sent tab code (Secret.name secret))
                     else ret (notified "TOTP Generator Error"
                                 "Failed to generate TOTP code")
                else ret silent
            | None => ret silent
            end
        end
    end.

End WithBrowser.

End ServiceWorker.

(** *** Sanity checks of the embedding on published vectors *)

Example base32_hello :
  TOTPGenerator.base32Decode "JBSWY3DPEHPK3PXP"
  = Ok [0x48; 0x65; 0x6c; 0x6c; 0x6f; 0x21; 0xde; 0xad; 0xbe; 0xef].
Proof. reflexivity. Qed.

Example base32_lower_padded :
  TOTPGenerator.base32Decode "jbswy3dpehpk3pxp=="
  = TOTPGenerator.base32Decode "JBSWY3DPEHPK3PXP".
Proof. reflexivity. Qed.

Example base32_bad : TOTPGenerator.validateSecret "not base32!" = false.
Proof. reflexivity. Qed.

Example toString_ex :
  toString 4287082 = "4287082" /\ toString 0 = "0" /\ toString (-15) = "-15".
Proof. repeat split; reflexivity. Qed.

Example padStart_ex :
  padStart "42" 6 "0" = Ok "000042" /\ padStart "1234567" 6 "0" = Ok "1234567".
Proof. split; reflexivity. Qed.

(** [20 / 30 * 100] is 66.66666666666666, and [29 / 30 * 100] is
    96.66666666666667. *)
Example progress_ex :
  multiply (divide (inject_Z 20) (inject_Z 30)) (inject_Z 100)
  = 2345624805922133 # 35184372088832
  /\ multiply (divide (inject_Z 29) (inject_Z 30)) (inject_Z 100)
     = 6802311937174187 # 70368744177664.
Proof. split; vm_compute; reflexivity. Qed.

(** SHA-1 of "abc" (FIPS 180-4). *)
Example sha1_abc :
  sha1 [0x61; 0x62; 0x63]
  = [0xa9; 0x99; 0x3e; 0x36; 0x47; 0x06; 0x81; 0x6a; 0xba; 0x3e;
     0x25; 0x71; 0x78; 0x50; 0xc2; 0x6c; 0x9c; 0xd0; 0xd8; 0x9d].
Proof. vm_compute. reflexivity. Qed.

Example rfc6238_vectors :
  List.map (fun t => Background.generateTOTP browser 0 rfc_secret (Some t) 8 30)
    [59; 1111111109; 1111111111; 1234567890; 2000000000; 20000000000]
  = List.map Ok ["94287082"; "07081804"; "14050471"; "89005924"; "69279037"; "65353130"].
Proof. vm_compute. reflexivity. Qed.

(** * Properties of the TOTP generator *)

Section Int32.

Lemma ToInt32_small z : 0 <= z < 2 ^ 31 -> ToInt32 z = z.
Proof.
  intros Hz. unfold ToInt32. rewrite Z.mod_small; lia.
Qed.

Lemma land_ones_range a n : 0 <= n -> 0 <= Z.land a (Z.ones n) < 2 ^ n.
Proof.
  intros Hn. rewrite Z.land_ones by lia. apply Z.mod_pos_bound. lia.
Qed.

(** [a & m] on small non-negative operands, [m] a mask of [n] ones. *)
Lemma band_ones a n :
  0 <= a < 2 ^ 31 -> 0 <= n <= 30 ->
  band a (Z.ones n) = a mod 2 ^ n.
Proof.
  intros Ha Hn. unfold band.
  assert (Hp : 2 ^ n < 2 ^ 31) by (apply Z.pow_lt_mono_r; lia).
  assert (Ho : 0 <= Z.ones n < 2 ^ 31).
  { rewrite Z.ones_equiv. lia. }
  rewrite (ToInt32_small a), (ToInt32_small (Z.ones n)) by lia.
  pose proof (land_ones_range a n ltac:(lia)) as Hr.
  rewrite ToInt32_small by lia. apply Z.land_ones. lia.
Qed.

(** Bits that do not overlap: [|] is a sum. *)
Lemma lor_mul_pow2 hi lo n :
  0 <= n -> 0 <= lo < 2 ^ n -> Z.lor (hi * 2 ^ n) lo = hi * 2 ^ n + lo.
Proof.
  intros Hn Hlo. rewrite <- Z.add_lor_land.
  assert (Hz : Z.land (hi * 2 ^ n) lo = 0).
  { apply Z.bits_inj'. intros i Hi. rewrite Z.land_spec, Z.bits_0.
    destruct (Z.lt_ge_cases i n) as [Hlt | Hge].
    - rewrite Z.mul_pow2_bits_low by lia. reflexivity.
    - rewrite <- (Z.mod_small lo (2 ^ n)) by lia.
      rewrite Z.mod_pow2_bits_high by lia. apply andb_false_r. }
  rewrite Hz. lia.
Qed.

Lemma shl_small a n :
  0 <= n < 32 -> 0 <= a -> a * 2 ^ n < 2 ^ 31 -> shl a n = a * 2 ^ n.
Proof.
  intros Hn Ha Hlt. unfold shl.
  assert (a < 2 ^ 31).
  { assert (1 <= 2 ^ n) by (apply Z.pow_le_mono_r with (b := 0); lia). nia. }
  rewrite (ToInt32_small a) by lia.
  rewrite Z.mod_small by lia. rewrite Z.shiftl_mul_pow2 by lia.
  apply ToInt32_small. lia.
Qed.

Lemma bor_small a b :
  0 <= a < 2 ^ 31 -> 0 <= b < 2 ^ 31 ->
  0 <= Z.lor a b < 2 ^ 31 -> bor a b = Z.lor a b.
Proof.
  intros Ha Hb Hab. unfold bor.
  rewrite (ToInt32_small a), (ToInt32_small b) by lia.
  apply ToInt32_small. lia.
Qed.

(** The packing expression of [generateTOTP] on four bytes. *)
Lemma pack_bytes x y z w :
  0 <= x < 256 -> 0 <= y < 256 -> 0 <= z < 256 -> 0 <= w < 256 ->
  bor (bor (bor (shl (band x 0x7f) 24) (shl (band y 0xff) 16))
           (shl (band z 0xff) 8))
      (band w 0xff)
  = ((Z.land x 0x7F * 256 + y) * 256 + z) * 256 + w.
Proof.
  intros Hx Hy Hz Hw.
  change 0x7f with (Z.ones 7). change 0xff with (Z.ones 8).
  rewrite !band_ones by lia.
  rewrite (Z.mod_small y), (Z.mod_small z), (Z.mod_small w) by lia.
  rewrite Z.land_ones by lia.
  pose proof (Z.mod_pos_bound x (2 ^ 7) ltac:(lia)) as Hm.
  set (x7 := x mod 2 ^ 7) in *.
  rewrite !shl_small by lia.
  assert (E1 : Z.lor (x7 * 2 ^ 24) (y * 2 ^ 16) = (x7 * 256 + y) * 2 ^ 16).
  { rewrite lor_mul_pow2 by lia. lia. }
  rewrite (bor_small (x7 * 2 ^ 24)) by (rewrite ?E1; lia). rewrite E1.
  assert (E2 : Z.lor ((x7 * 256 + y) * 2 ^ 16) (z * 2 ^ 8)
               = ((x7 * 256 + y) * 256 + z) * 2 ^ 8).
  { rewrite lor_mul_pow2 by lia. lia. }
  rewrite (bor_small ((x7 * 256 + y) * 2 ^ 16)) by (rewrite ?E2; lia).
  rewrite E2.
  assert (E3 : Z.lor (((x7 * 256 + y) * 256 + z) * 2 ^ 8) w
               = ((x7 * 256 + y) * 256 + z) * 256 + w).
  { rewrite lor_mul_pow2 by lia. lia. }
  rewrite bor_small by (rewrite ?E3; lia). exact E3.
Qed.

End Int32.

(** ** Doubles *)

Section Doubles.

Lemma roundHalfEven_half n d :
  0 < d ->
  2 * n - d <= 2 * roundHalfEven n d * d <= 2 * n + d.
Proof.
  intros Hd. unfold roundHalfEven.
  pose proof (Z.div_mod n d ltac:(lia)) as Hn.
  pose proof (Z.mod_pos_bound n d Hd) as Hr.
  set (q := n / d) in *. set (r := n mod d) in *.
  destruct (Z.ltb_spec (2 * r) d); [nia |].
  destruct (Z.ltb_spec d (2 * r)); [nia |].
  destruct (Z.even q); nia.
Qed.

Lemma roundHalfEven_ge n d j : 0 < d -> j * d <= n -> j <= roundHalfEven n d.
Proof.
  intros Hd Hj. unfold roundHalfEven.
  assert (j <= n / d) by (apply Z.div_le_lower_bound; lia).
  destruct (2 * (n mod d) <? d); [lia |].
  destruct (d <? 2 * (n mod d)); [lia |].
  destruct (Z.even (n / d)); lia.
Qed.

Lemma roundHalfEven_le n d j : 0 < d -> n <= j * d -> roundHalfEven n d <= j.
Proof.
  intros Hd Hj. unfold roundHalfEven.
  pose proof (Z.div_mod n d ltac:(lia)) as Hn.
  pose proof (Z.mod_pos_bound n d Hd) as Hr.
  set (q := n / d) in *. set (r := n mod d) in *.
  assert (q <= j) by nia.
  destruct (Z.ltb_spec (2 * r) d); [lia |].
  assert (q < j) by nia.
  destruct (Z.ltb_spec d (2 * r)); [lia |].
  destruct (Z.even q); lia.
Qed.

(** [2^E <= n/d] for the exponent that [round64] works with. *)
Lemma binade_lower n d :
  0 < n -> 0 < d ->
  d * 2 ^ Z.max (binade n d) 0 <= n * 2 ^ Z.max (- binade n d) 0.
Proof.
  intros Hn Hd. unfold binade.
  pose proof (Z.log2_spec n Hn) as [Hn1 Hn2].
  pose proof (Z.log2_spec d Hd) as [Hd1 Hd2].
  pose proof (Z.log2_nonneg n) as Hln. pose proof (Z.log2_nonneg d) as Hld.
  set (ln := Z.log2 n) in *. set (ld := Z.log2 d) in *.
  remember (ln - ld) as k eqn:Ek.
  destruct (Z.leb_spec 0 k) as [Hk | Hk].
  - destruct (Z.leb_spec (d * 2 ^ k) n) as [Ht | Ht].
    + rewrite (Z.max_l k 0), (Z.max_r (- k) 0) by lia.
      rewrite Z.pow_0_r, Z.mul_1_r. exact Ht.
    + destruct (Z.eq_dec k 0) as [E0 | E0].
      * subst k. rewrite E0 in *. change (Z.max (0 - 1) 0) with 0.
        change (Z.max (- (0 - 1)) 0) with 1.
        rewrite Z.pow_0_r, Z.pow_1_r, Z.mul_1_r in *.
        assert (Hl : ln = ld) by lia.
        assert (2 ^ (ld + 1) = 2 * 2 ^ ln).
        { rewrite Z.pow_add_r by lia. rewrite Hl. lia. }
        lia.
      * rewrite (Z.max_l (k - 1) 0), (Z.max_r (- (k - 1)) 0) by lia.
        rewrite Z.pow_0_r, Z.mul_1_r.
        assert (2 ^ ln = 2 ^ (ld + 1) * 2 ^ (k - 1)).
        { rewrite <- Z.pow_add_r by lia. f_equal. lia. }
        assert (0 < 2 ^ (k - 1)) by (apply Z.pow_pos_nonneg; lia).
        nia.
  - destruct (Z.leb_spec d (n * 2 ^ (- k))) as [Ht | Ht].
    + rewrite (Z.max_r k 0), (Z.max_l (- k) 0) by lia.
      rewrite Z.pow_0_r, Z.mul_1_r. exact Ht.
    + rewrite (Z.max_r (k - 1) 0), (Z.max_l (- (k - 1)) 0) by lia.
      rewrite Z.pow_0_r, Z.mul_1_r.
      assert (2 ^ (ld + 1) = 2 ^ ln * 2 ^ (- (k - 1))).
      { rewrite <- Z.pow_add_r by lia. f_equal. lia. }
      assert (0 < 2 ^ (- (k - 1))) by (apply Z.pow_pos_nonneg; lia).
      nia.
Qed.

Lemma binade_le n d : 0 < n -> 0 < d -> binade n d <= Z.log2 n - Z.log2 d.
Proof.
  intros Hn Hd. unfold binade.
  destruct (if 0 <=? _ then _ else _); lia.
Qed.

Lemma round64_pos n d :
  0 < n ->
  round64 (n # d)
  = let e := Z.max (binade n (Zpos d) - 52) (-1074) in
    if 0 <=? e
    then inject_Z (roundHalfEven n (Zpos d * 2 ^ e) * 2 ^ e)
    else Qred (roundHalfEven (n * 2 ^ (- e)) (Zpos d) # Z.to_pos (2 ^ (- e))).
Proof.
  intros Hn. unfold round64. cbn [Qnum Qden].
  rewrite Z.abs_eq by lia.
  destruct (Z.eqb_spec n 0) as [| _]; [lia |].
  destruct (Z.ltb_spec n 0) as [| _]; [lia |].
  cbv zeta. destruct (0 <=? _); reflexivity.
Qed.

Lemma round64_zero d : round64 (0 # d) = 0%Q.
Proof. reflexivity. Qed.

Lemma Qdiv_inject_Z a p : Qdiv (inject_Z a) (inject_Z (Zpos p)) = (a # p).
Proof.
  unfold Qdiv, Qinv, Qmult, inject_Z. cbn [Qnum Qden].
  rewrite Z.mul_1_r. reflexivity.
Qed.

Lemma Qfloor_Qred x : Qfloor (Qred x) = Qfloor x.
Proof. apply Qfloor_comp, Qred_correct. Qed.

Lemma div_between m c q : 0 < c -> q * c <= m < (q + 1) * c -> m / c = q.
Proof.
  intros Hc Hm. symmetry. apply Z.div_unique with (r := m - q * c); lia.
Qed.

(** [Math.floor(a / b)] is exact below [2^53]: for a time [a >= 0]
    and a period [b > 0] that are integers below [2^53], the floor of
    the double that the division gives is the floor of the exact
    quotient, which is what [floor_div] is. *)
Theorem floor_div_exact a b :
  0 <= a < 2 ^ 53 -> 0 < b < 2 ^ 53 ->
  Qfloor (divide (inject_Z a) (inject_Z b)) = floor_div a b.
Proof.
  intros Ha Hb. unfold divide, floor_div.
  destruct b as [| p | p]; try lia. rewrite Qdiv_inject_Z.
  destruct (Z.eq_dec a 0) as [-> | Hne]; [reflexivity |].
  rewrite round64_pos by lia. cbv zeta.
  pose proof (binade_lower a (Z.pos p) ltac:(lia) ltac:(lia)) as Hlow.
  pose proof (binade_le a (Z.pos p) ltac:(lia) ltac:(lia)) as Hle.
  assert (Hla : Z.log2 a < 53) by (apply Z.log2_lt_pow2; lia).
  pose proof (Z.log2_nonneg (Z.pos p)) as Hlp.
  set (E := binade a (Z.pos p)) in *.
  set (b := Z.pos p) in *.
  pose proof (Z.div_mod a b ltac:(lia)) as Hdm.
  pose proof (Z.mod_pos_bound a b ltac:(lia)) as Hr.
  (* b < 2^(53 - E) *)
  assert (Hb2 : b < 2 ^ (53 - Z.max E 0) * 2 ^ Z.max (- E) 0).
  { destruct (Z.le_gt_cases 0 E) as [HE | HE].
    - rewrite (Z.max_l E 0), (Z.max_r (- E) 0) in * by lia.
      rewrite Z.pow_0_r, Z.mul_1_r in *.
      assert (2 ^ 53 = 2 ^ (53 - E) * 2 ^ E)
        by (rewrite <- Z.pow_add_r by lia; f_equal; lia).
      assert (0 < 2 ^ E) by (apply Z.pow_pos_nonneg; lia).
      nia.
    - rewrite (Z.max_r E 0), (Z.max_l (- E) 0) in * by lia.
      rewrite Z.pow_0_r, Z.mul_1_r in *.
      assert (0 < 2 ^ (- E)) by (apply Z.pow_pos_nonneg; lia).
      change (2 ^ (53 - 0)) with (2 ^ 53). nia. }
  destruct (Z.leb_spec 0 (Z.max (E - 52) (-1074))) as [He | He].
  - (* the quotient is at least 2^52: b = 1 *)
    assert (HE : E = 52) by lia.
    rewrite HE in *. rewrite (Z.max_l (52 - 52) (-1074)) by lia.
    change (52 - 52) with 0. rewrite Z.pow_0_r, !Z.mul_1_r.
    rewrite Qfloor_Z.
    change (Z.max 52 0) with 52 in *. change (Z.max (- 52) 0) with 0 in *.
    change (2 ^ (53 - 52)) with 2 in Hb2. rewrite Z.pow_0_r in Hb2.
    assert (b = 1) by lia.
    unfold roundHalfEven. replace b with 1 by lia.
    rewrite Z.mod_1_r, Z.div_1_r. reflexivity.
  - set (s := - Z.max (E - 52) (-1074)) in *.
    assert (Hs : 0 < s) by (subst s; lia).
    assert (HP : 0 < 2 ^ s) by (apply Z.pow_pos_nonneg; lia).
    rewrite Qfloor_Qred. unfold Qfloor.
    rewrite Z2Pos.id by exact HP.
    (* b < 2 * 2^s *)
    assert (Hb3 : b < 2 * 2 ^ s).
    { destruct (Z.le_gt_cases (E - 52) (-1074)) as [Hsub | Hnorm].
      - assert (s = 1074) by (subst s; lia).
        assert (2 ^ 53 <= 2 ^ s) by (apply Z.pow_le_mono_r; lia). lia.
      - assert (Hs' : s = 52 - E) by (subst s; lia).
        destruct (Z.le_gt_cases 0 E) as [HE | HE].
        + rewrite (Z.max_l E 0), (Z.max_r (- E) 0) in Hb2 by lia.
          rewrite Z.pow_0_r, Z.mul_1_r in Hb2.
          replace (53 - E) with (1 + s) in Hb2 by lia.
          rewrite Z.pow_add_r, Z.pow_1_r in Hb2 by lia. exact Hb2.
        + rewrite (Z.max_r E 0), (Z.max_l (- E) 0) in Hb2 by lia.
          change (2 ^ (53 - 0)) with (2 ^ 53) in Hb2.
          rewrite <- Z.pow_add_r in Hb2 by lia.
          replace (53 + - E) with (1 + s) in Hb2 by lia.
          rewrite Z.pow_add_r, Z.pow_1_r in Hb2 by lia. exact Hb2. }
    pose proof (roundHalfEven_half (a * 2 ^ s) b ltac:(lia)) as Hhalf.
    pose proof (roundHalfEven_ge (a * 2 ^ s) b (a / b * 2 ^ s) ltac:(lia)
                  ltac:(nia)) as Hge.
    set (m := roundHalfEven (a * 2 ^ s) b) in *.
    apply div_between; [exact HP |]. split; [exact Hge |].
    set (P := 2 ^ s) in *. set (q := a / b) in *. set (r := a mod b) in *.
    nia.
Qed.

Lemma floor_div_exact_witness :
  Qfloor (divide (inject_Z 1700000000) (inject_Z 30)) = floor_div 1700000000 30.
Proof. apply (floor_div_exact 1700000000 30); lia. Defined.

(** Above [2^53] the floor of the double quotient can be one more than
    the floor of the exact quotient. *)
Example floor_div_beyond :
  Qfloor (divide (inject_Z 33776997205278808) (inject_Z 30)) = 1125899906842627
  /\ floor_div 33776997205278808 30 = 1125899906842626.
Proof. split; vm_compute; reflexivity. Qed.

(** What [round64] makes of a positive fraction below [2^c]: a
    fraction [m / 2^s] with at least [53 - c] binary places, the
    nearest one. *)
Lemma round64_below n d c :
  0 <= c <= 52 -> 0 < n -> n < 2 ^ c * Zpos d ->
  exists m s,
    round64 (n # d) = Qred (m # Z.to_pos (2 ^ s))
    /\ 53 - c <= s /\ 0 <= m
    /\ 2 * m * Zpos d <= 2 * (n * 2 ^ s) + Zpos d
    /\ (forall j, n * 2 ^ s <= j * Zpos d -> m <= j).
Proof.
  intros Hc Hn Hsmall. rewrite round64_pos by exact Hn. cbv zeta.
  pose proof (binade_lower n (Zpos d) Hn ltac:(lia)) as Hlow.
  set (E := binade n (Zpos d)) in *.
  assert (HE : E < c).
  { destruct (Z.lt_ge_cases E c) as [| Hbig]; [assumption | exfalso].
    rewrite (Z.max_l E 0), (Z.max_r (- E) 0) in Hlow by lia.
    rewrite Z.pow_0_r, Z.mul_1_r in Hlow.
    assert (2 ^ c <= 2 ^ E) by (apply Z.pow_le_mono_r; lia).
    nia. }
  destruct (Z.leb_spec 0 (Z.max (E - 52) (-1074))) as [He | He]; [lia |].
  exists (roundHalfEven (n * 2 ^ (- Z.max (E - 52) (-1074))) (Zpos d)),
         (- Z.max (E - 52) (-1074)).
  set (s := - Z.max (E - 52) (-1074)).
  assert (Hs : 53 - c <= s) by (subst s; lia).
  assert (HP : 0 < 2 ^ s) by (apply Z.pow_pos_nonneg; lia).
  split; [reflexivity |]. split; [exact Hs |]. split; [| split].
  - apply roundHalfEven_ge; lia.
  - apply roundHalfEven_half. lia.
  - intros j Hj. apply roundHalfEven_le; [lia | exact Hj].
Qed.

(** The progress that [generateTOTP] computes from the seconds [r]
    that have passed of a period [p]: at least 0 and, rounded twice as
    it is, still below 100. *)
Lemma progress_double r p :
  0 <= r < p -> p <= 2 ^ 53 ->
  let progress := multiply (divide (inject_Z r) (inject_Z p)) (inject_Z 100) in
  Qle 0 progress /\ Qlt progress (inject_Z 100) /\ (r = 0 -> progress = 0%Q).
Proof.
  intros Hr Hp. cbv zeta. unfold divide, multiply.
  destruct p as [| p | p]; try lia. rewrite Qdiv_inject_Z.
  destruct (Z.eq_dec r 0) as [-> | Hne].
  { split; [| split]; [discriminate | reflexivity | reflexivity]. }
  (* the quotient: at most 1 - 2^-53 *)
  destruct (round64_below r p 0 ltac:(lia) ltac:(lia) ltac:(lia))
    as (m1 & s1 & -> & Hs1 & Hm1 & _ & Hup1).
  assert (HP1 : 0 < 2 ^ s1) by (apply Z.pow_pos_nonneg; lia).
  assert (Hsplit : 2 ^ s1 = 2 ^ 53 * 2 ^ (s1 - 53)).
  { rewrite <- Z.pow_add_r by lia. f_equal. lia. }
  assert (HQ : 0 < 2 ^ (s1 - 53)) by (apply Z.pow_pos_nonneg; lia).
  assert (Hm1le : m1 <= (2 ^ 53 - 1) * 2 ^ (s1 - 53)).
  { apply Hup1. rewrite Hsplit. set (Q := 2 ^ (s1 - 53)) in *. nia. }
  pose proof (Qred_correct (m1 # Z.to_pos (2 ^ s1))) as Hq1.
  unfold Qeq in Hq1. cbn [Qnum Qden] in Hq1. rewrite Z2Pos.id in Hq1 by exact HP1.
  set (q1 := Qred (m1 # Z.to_pos (2 ^ s1))) in *.
  set (N := Qnum q1) in *. set (D := Zpos (Qden q1)) in *.
  assert (HD : 0 < D) by (subst D; lia).
  assert (HN : 0 <= N) by nia.
  assert (HNle : N * 2 ^ 53 <= (2 ^ 53 - 1) * D).
  { rewrite Hsplit in Hq1. set (Q := 2 ^ (s1 - 53)) in *.
    assert (N * 2 ^ 53 * Q <= (2 ^ 53 - 1) * D * Q) by nia.
    nia. }
  (* the product *)
  assert (Hx2 : Qmult q1 (inject_Z 100) = (N * 100) # (Qden q1)).
  { unfold Qmult, inject_Z. cbn [Qnum Qden]. rewrite Pos.mul_1_r. reflexivity. }
  rewrite Hx2.
  destruct (Z.eq_dec N 0) as [HN0 | HN0].
  { rewrite HN0. split; [| split]; [discriminate | reflexivity | lia]. }
  destruct (round64_below (N * 100) (Qden q1) 7 ltac:(lia) ltac:(lia))
    as (m2 & s2 & -> & Hs2 & Hm2 & Hhalf & _).
  { fold D. change (2 ^ 7) with 128. change (2 ^ 53) with 9007199254740992 in HNle.
    lia. }
  fold D in Hhalf.
  assert (HP2 : 0 < 2 ^ s2) by (apply Z.pow_pos_nonneg; lia).
  assert (H46 : 2 ^ 46 <= 2 ^ s2) by (apply Z.pow_le_mono_r; lia).
  assert (Hm2lt : m2 < 100 * 2 ^ s2).
  { destruct (Z.lt_ge_cases m2 (100 * 2 ^ s2)) as [| Hbig]; [assumption | exfalso].
    set (P := 2 ^ s2) in *.
    change (2 ^ 53) with 9007199254740992 in HNle.
    change (2 ^ 46) with 70368744177664 in H46.
    assert (H1 : 200 * P * (D - N) <= D) by nia.
    assert (H2 : D <= (D - N) * 9007199254740992) by lia.
    assert (H3 : 0 < D - N) by lia.
    nia. }
  split; [| split; [| lia]].
  - rewrite (Qred_correct (m2 # Z.to_pos (2 ^ s2))).
    unfold Qle. cbn [Qnum Qden]. lia.
  - rewrite (Qred_correct (m2 # Z.to_pos (2 ^ s2))).
    unfold Qlt, inject_Z. cbn [Qnum Qden]. rewrite Z2Pos.id by exact HP2. lia.
Qed.

End Doubles.

Section Truncation.

Lemma last_nth (l : list Z) d : List.last l d = nth (List.length l - 1) l d.
Proof.
  induction l as [| a l IH]; [reflexivity |].
  destruct l as [| b l]; [reflexivity |].
  change (List.last (a :: b :: l) d) with (List.last (b :: l) d).
  rewrite IH. simpl. rewrite Nat.sub_0_r. reflexivity.
Qed.

Lemma firstn4_skipn (l : list Z) (o : nat) :
  (o + 4 <= List.length l)%nat ->
  firstn 4 (skipn o l)
  = [nth o l 0; nth (o + 1) l 0; nth (o + 2) l 0; nth (o + 3) l 0].
Proof.
  revert l. induction o as [| o IH]; intros l Hl.
  - destruct l as [| a [| b [| c [| d l]]]]; simpl in Hl; try lia. reflexivity.
  - destruct l as [| a l]; simpl in Hl; [lia |]. simpl. apply IH. lia.
Qed.

Lemma nth_isByte (l : list Z) (i : nat) :
  Forall isByte l -> (i < List.length l)%nat -> isByte (nth i l 0).
Proof.
  intros Hall Hi. rewrite Forall_forall in Hall.
  apply (proj1 (List.Forall_forall isByte l)); [| apply nth_In; exact Hi].
  apply List.Forall_forall. intros x Hx. apply Hall.
  apply list_elem_of_In. exact Hx.
Qed.

(** On a 20-byte digest the expression of the program computes the
    dynamic truncation of the specification. *)
Lemma truncate_spec (digest : list Z) :
  List.length digest = 20%nat -> Forall isByte digest ->
  TOTPGenerator.truncate digest
  = Spec.be_uint32 (Spec.maskFirst (Spec.fourBytes digest))
  /\ 0 <= TOTPGenerator.truncate digest < 2 ^ 31.
Proof.
  intros Hlen Hall. unfold TOTPGenerator.truncate, Spec.fourBytes, Spec.offset.
  rewrite Hlen. change (Z.of_nat 20 - 1) with 19.
  change (at_ digest 19) with (nth 19 digest 0).
  rewrite last_nth, Hlen. change (20 - 1)%nat with 19%nat.
  pose proof (nth_isByte digest 19 Hall ltac:(lia)) as Hb. unfold isByte in Hb.
  set (b19 := nth 19 digest 0) in *.
  change 0xf with (Z.ones 4). change 0x0F with (Z.ones 4).
  rewrite band_ones by lia. rewrite Z.land_ones by lia.
  pose proof (Z.mod_pos_bound b19 (2 ^ 4) ltac:(lia)) as Ho.
  set (o := b19 mod 2 ^ 4) in *.
  assert (Hat0 : at_ digest o = nth (Z.to_nat o) digest 0).
  { unfold at_. destruct (Z.ltb_spec o 0); [lia | reflexivity]. }
  assert (Hat : forall i, 0 < i < 4 ->
            at_ digest (o + i) = nth (Z.to_nat o + Z.to_nat i) digest 0).
  { intros i Hi. unfold at_.
    destruct (Z.ltb_spec (o + i) 0); [lia |].
    rewrite Z2Nat.inj_add by lia. reflexivity. }
  rewrite Hat0, !Hat by lia.
  rewrite firstn4_skipn by lia.
  change (Z.to_nat 1) with 1%nat.
  change (Z.to_nat 2) with 2%nat. change (Z.to_nat 3) with 3%nat.
  pose proof (nth_isByte digest (Z.to_nat o) Hall ltac:(lia)) as H0.
  pose proof (nth_isByte digest (Z.to_nat o + 1) Hall ltac:(lia)) as H1.
  pose proof (nth_isByte digest (Z.to_nat o + 2) Hall ltac:(lia)) as H2.
  pose proof (nth_isByte digest (Z.to_nat o + 3) Hall ltac:(lia)) as H3.
  unfold isByte in *.
  rewrite pack_bytes by lia.
  pose proof (land_ones_range (nth (Z.to_nat o) digest 0) 7 ltac:(lia)) as H7.
  change (Z.ones 7) with 0x7F in H7.
  unfold Spec.maskFirst, Spec.be_uint32. cbn [fold_left].
  split; [ring | lia].
Qed.

End Truncation.

Section Decimal.

Lemma string_of_list_ascii_length (l : list ascii) :
  String.length (string_of_list_ascii l) = List.length l.
Proof. induction l as [| a l IH]; simpl; [reflexivity | now rewrite IH]. Qed.

Lemma string_of_list_ascii_app (l1 l2 : list ascii) :
  string_of_list_ascii (l1 ++ l2)
  = string_of_list_ascii l1 +:+ string_of_list_ascii l2.
Proof. induction l1 as [| a l IH]; simpl; [reflexivity | now rewrite IH]. Qed.

Lemma fixedWidth_length w v : List.length (Spec.fixedWidth w v) = w.
Proof.
  revert v. induction w as [| w IH]; intros v; simpl; [reflexivity |].
  rewrite length_app, IH. simpl. lia.
Qed.

Lemma fixedWidth_zero w : Spec.fixedWidth w 0 = repeat "0"%char w.
Proof.
  induction w as [| w IH]; [reflexivity |].
  simpl. change (0 / 10) with 0. rewrite IH.
  change [digitChar (0 mod 10)] with (repeat "0"%char 1).
  rewrite <- repeat_app. rewrite Nat.add_1_r. reflexivity.
Qed.

(** The digits printed by [toString], padded on the left, are the
    fixed-width numeral. *)
Lemma decimal_fixedWidth fuel : forall w v,
  0 <= v -> v < 10 ^ Z.of_nat fuel -> v < 10 ^ Z.of_nat w -> (1 <= w)%nat ->
  (List.length (decimal fuel v) <= w)%nat
  /\ repeat "0"%char (w - List.length (decimal fuel v)) ++ decimal fuel v
     = Spec.fixedWidth w v.
Proof.
  induction fuel as [| fuel IH]; intros w v Hv Hfuel Hw Hw1.
  - change (10 ^ Z.of_nat 0) with 1 in Hfuel. assert (v = 0) by lia. subst v.
    simpl. rewrite Nat.sub_0_r, app_nil_r, fixedWidth_zero. split; [lia | reflexivity].
  - destruct w as [| w]; [lia |]. cbn [decimal Spec.fixedWidth].
    destruct (Z.ltb_spec v 10) as [Hlt | Hge].
    + rewrite (Z.div_small v 10) by lia. rewrite fixedWidth_zero.
      simpl. rewrite Nat.sub_0_r. split; [lia | reflexivity].
    + assert (Hw' : (1 <= w)%nat).
      { destruct w; [| lia]. change (10 ^ Z.of_nat 1) with 10 in Hw. lia. }
      rewrite Nat2Z.inj_succ, Z.pow_succ_r in Hfuel, Hw by lia.
      destruct (IH w (v / 10)) as [Hlen Heq]; try lia.
      * apply Z.div_pos; lia.
      * apply Z.div_lt_upper_bound; lia.
      * apply Z.div_lt_upper_bound; lia.
      * rewrite length_app. simpl. split; [lia |].
        rewrite <- Heq. rewrite <- app_assoc. f_equal. f_equal. lia.
Qed.

Lemma toString_fuel v : 0 <= v -> v < 10 ^ Z.of_nat (S (Z.to_nat (Z.log2 v))).
Proof.
  intros Hv. rewrite Nat2Z.inj_succ, Z2Nat.id by apply Z.log2_nonneg.
  destruct (Z.eq_dec v 0) as [-> | Hne]; [reflexivity |].
  pose proof (Z.log2_spec v ltac:(lia)) as [_ Hup].
  pose proof (Z.log2_nonneg v) as Hl.
  eapply Z.lt_le_trans; [exact Hup |].
  apply Z.pow_le_mono_l. lia.
Qed.

(** [v.toString().padStart(digits, '0')] for [0 <= v < 10^digits] and a
    number of digits within the longest string. *)
Lemma padStart_toString (digits : nat) (v : Z) :
  (1 <= digits)%nat -> Z.of_nat digits <= kMaxLength ->
  0 <= v < 10 ^ Z.of_nat digits ->
  padStart (toString v) digits "0"
  = Ok (string_of_list_ascii (Spec.fixedWidth digits v)).
Proof.
  intros Hd Hmax Hv. unfold padStart, toString.
  destruct (Z.ltb_spec v 0) as [Hneg | _]; [lia |].
  rewrite string_of_list_ascii_length.
  destruct (decimal_fixedWidth (S (Z.to_nat (Z.log2 v))) digits v)
    as [Hlen Heq]; try lia.
  { apply toString_fuel. lia. }
  destruct (Nat.leb_spec digits
              (List.length (decimal (S (Z.to_nat (Z.log2 v))) v))) as [Hle | Hlt].
  - f_equal. rewrite <- Heq.
    replace (digits - _)%nat with 0%nat by lia. reflexivity.
  - destruct (Z.ltb_spec kMaxLength (Z.of_nat digits)) as [Hbig | _]; [lia |].
    f_equal. rewrite <- string_of_list_ascii_app. f_equal. exact Heq.
Qed.

Lemma padStart_Ok s n c padded :
  padStart s n c = Ok padded ->
  (n <= String.length s)%nat \/ Z.of_nat n <= kMaxLength.
Proof.
  unfold padStart. destruct (Nat.leb_spec n (String.length s)); [auto |].
  destruct (Z.ltb_spec kMaxLength (Z.of_nat n)); [discriminate | auto].
Qed.

Lemma padStart_Throw s n c e :
  padStart s n c = Throw e -> kMaxLength < Z.of_nat n.
Proof.
  unfold padStart. destruct (Nat.leb_spec n (String.length s)); [discriminate |].
  destruct (Z.ltb_spec kMaxLength (Z.of_nat n)); [auto | discriminate].
Qed.

Lemma padStart_fits s n c :
  Z.of_nat n <= kMaxLength -> exists padded, padStart s n c = Ok padded.
Proof.
  intros Hn. unfold padStart. destruct (n <=? String.length s)%nat; [eauto |].
  destruct (Z.ltb_spec kMaxLength (Z.of_nat n)); [lia | eauto].
Qed.

(** [digits = 0]: the code is [x % 1], printed without padding. *)
Lemma padStart_no_digits x :
  padStart (toString (rem x (10 ^ Z.of_nat 0))) 0 "0" = Ok "0".
Proof.
  change (10 ^ Z.of_nat 0) with 1. unfold rem. rewrite Z.rem_1_r. reflexivity.
Qed.

Lemma decimal_length fuel : forall n, (List.length (decimal fuel n) <= fuel)%nat.
Proof.
  induction fuel as [| fuel IH]; intros n; cbn [decimal]; [cbn; lia |].
  rewrite length_app. cbn [List.length].
  destruct (n <? 10); [cbn; lia |]. specialize (IH (n / 10)). lia.
Qed.

(** The numeral of a non-negative 31-bit integer is a short string. *)
Lemma toString_length v :
  0 <= v < 2 ^ 31 -> (String.length (toString v) <= 32)%nat.
Proof.
  intros Hv. unfold toString. destruct (Z.ltb_spec v 0); [lia |].
  rewrite string_of_list_ascii_length.
  pose proof (decimal_length (S (Z.to_nat (Z.log2 v))) v) as Hlen.
  assert (Z.log2 v < 31).
  { destruct (Z.eq_dec v 0) as [-> | Hne]; [cbn; lia |].
    apply Z.log2_lt_pow2; lia. }
  pose proof (Z.log2_nonneg v). lia.
Qed.

Lemma digitValue_digitChar d : 0 <= d < 10 -> Spec.digitValue (digitChar d) = Some d.
Proof.
  intros Hd.
  assert (H : d = 0 \/ d = 1 \/ d = 2 \/ d = 3 \/ d = 4 \/ d = 5 \/ d = 6
              \/ d = 7 \/ d = 8 \/ d = 9) by lia.
  repeat (destruct H as [-> | H]; [reflexivity |]). subst d. reflexivity.
Qed.

Lemma readDecimal_app acc l1 l2 :
  Spec.readDecimal acc (l1 ++ l2)
  = match Spec.readDecimal acc l1 with
    | Some a => Spec.readDecimal a l2
    | None => None
    end.
Proof.
  revert acc. induction l1 as [| c l1 IH]; intros acc; simpl; [reflexivity |].
  destruct (Spec.digitValue c); [apply IH | reflexivity].
Qed.

(** Reading the fixed-width numeral gives the value back. *)
Lemma readDecimal_fixedWidth w : forall v,
  0 <= v < 10 ^ Z.of_nat w -> Spec.readDecimal 0 (Spec.fixedWidth w v) = Some v.
Proof.
  induction w as [| w IH]; intros v Hv.
  - change (10 ^ Z.of_nat 0) with 1 in Hv. assert (v = 0) by lia. subst. reflexivity.
  - rewrite Nat2Z.inj_succ, Z.pow_succ_r in Hv by lia.
    cbn [Spec.fixedWidth]. rewrite readDecimal_app, IH.
    + cbn [Spec.readDecimal].
      rewrite digitValue_digitChar by (apply Z.mod_pos_bound; lia).
      f_equal. pose proof (Z.div_mod v 10 ltac:(lia)). lia.
    + split; [apply Z.div_pos; lia | apply Z.div_lt_upper_bound; lia].
Qed.

End Decimal.

Section GenerateTOTP.

Import TOTPGenerator.

Lemma effectiveTime_nonzero now t : t <> 0 -> effectiveTime now (Some t) = t.
Proof.
  intros Ht. unfold effectiveTime, truthy_number.
  destruct (Z.eqb_spec t 0); [contradiction | reflexivity].
Qed.

Lemma effectiveTime_clock now t :
  effectiveTime now (Some t) = (if t =? 0 then now / 1000 else t).
Proof.
  unfold effectiveTime, truthy_number, floor_div. destruct (t =? 0); reflexivity.
Qed.

(** The copy in the service worker returns the [code] of the popup's. *)
Lemma Background_generateTOTP crypto now secret timestamp digits period :
  Background.generateTOTP crypto now secret timestamp digits period
  = match generateTOTP crypto now secret timestamp digits period with
    | Ok r => Ok (code r)
    | Throw e => Throw e
    end.
Proof.
  unfold Background.generateTOTP, generateTOTP.
  destruct (base32Decode secret) as [key | e]; [| reflexivity].
  cbv zeta. destruct (hmacSha1 crypto key _) as [digest | e]; [| reflexivity].
  destruct (padStart _ digits _) as [padded | e]; reflexivity.
Qed.

(** [setUint32(4, c)] on the zeroed buffer of 8 bytes writes the
    big-endian serialization of [c mod 2^32]. *)
Lemma counterBytes_low32 time period :
  counterBytes time period = Spec.be64 ((time / period) mod 2 ^ 32).
Proof.
  unfold counterBytes, floor_div, setUint32, ToUint32, bytes_of_word, Spec.be64.
  pose proof (Z.mod_pos_bound (time / period) (2 ^ 32) ltac:(lia)) as Hc.
  set (c := (time / period) mod 2 ^ 32) in *.
  cbn [ArrayBuffer repeat firstn skipn Nat.add List.map app].
  assert (Hhi : forall k, 2 ^ 32 <= k -> c / k mod 256 = 0).
  { intros k Hk. rewrite Z.div_small by lia. reflexivity. }
  rewrite (Hhi (256 ^ 7)), (Hhi (256 ^ 6)), (Hhi (256 ^ 5)), (Hhi (256 ^ 4)) by lia.
  change (256 ^ 3) with (2 ^ 24). change (256 ^ 2) with (2 ^ 16).
  change (256 ^ 1) with (2 ^ 8). change (256 ^ 0) with 1. rewrite Z.div_1_r.
  reflexivity.
Qed.

(** The message for a counter that fits 32 bits. *)
Lemma counterBytes_be64 time period :
  0 <= time / period < 2 ^ 32 ->
  counterBytes time period = Spec.be64 (time / period).
Proof.
  intros Hc. rewrite counterBytes_low32, Z.mod_small by lia. reflexivity.
Qed.

(** The successful path of [generateTOTP], for any positive [digits]
    that [padStart] can pad to. *)
Lemma generateTOTP_ok crypto now secret timestamp digits period key digest :
  base32Decode secret = Ok key ->
  hmacSha1 crypto key (counterBytes (effectiveTime now timestamp) period)
    = Ok digest ->
  List.length digest = 20%nat -> Forall isByte digest ->
  (1 <= digits)%nat -> Z.of_nat digits <= kMaxLength ->
  generateTOTP crypto now secret timestamp digits period
  = Ok {| code := Spec.code digest digits;
          timeRemaining := period - rem (effectiveTime now timestamp) period;
          progress :=
            multiply
              (divide (inject_Z (period - (period - rem (effectiveTime now timestamp)
                                                        period)))
                      (inject_Z period))
              (inject_Z 100) |}.
Proof.
  intros Hkey Hmac Hlen Hbytes Hdigits Hmax.
  assert (Hpow : 0 < 10 ^ Z.of_nat digits) by (apply Z.pow_pos_nonneg; lia).
  destruct (truncate_spec digest Hlen Hbytes) as [Htr Hrange].
  unfold generateTOTP. rewrite Hkey. cbv zeta. rewrite Hmac.
  unfold rem at 1. rewrite Z.rem_mod_nonneg by lia.
  rewrite padStart_toString.
  - cbn [try_catch]. do 2 f_equal.
    unfold Spec.code, Spec.truncated. rewrite Htr. reflexivity.
  - exact Hdigits.
  - exact Hmax.
  - apply Z.mod_pos_bound. lia.
Qed.

(** C4. Given the HMAC digest (20 bytes), [generateTOTP] returns the
    dynamic truncation of the specification: offset from the low
    nibble of the last byte, four bytes from there, the top bit of the
    first cleared, big-endian, reduced modulo [10^digits] and padded
    with zeros on the left; for [digits] 6 or 8 the code has exactly
    [digits] characters and reads back as that value. *)
Theorem C4_dynamic_truncation crypto now secret timestamp digits period key digest :
  base32Decode secret = Ok key ->
  hmacSha1 crypto key (counterBytes (effectiveTime now timestamp) period)
    = Ok digest ->
  List.length digest = 20%nat -> Forall isByte digest ->
  digits = 6%nat \/ digits = 8%nat ->
  exists r,
    generateTOTP crypto now secret timestamp digits period = Ok r
    /\ code r = Spec.code digest digits
    /\ String.length (code r) = digits
    /\ Spec.valueOf (code r) = Some (Spec.truncated digest digits)
    /\ Background.generateTOTP crypto now secret timestamp digits period
       = Ok (code r).
Proof.
  intros Hkey Hmac Hlen Hbytes Hdigits.
  assert (Hpow : 0 < 10 ^ Z.of_nat digits) by (apply Z.pow_pos_nonneg; lia).
  rewrite Background_generateTOTP.
  rewrite (generateTOTP_ok _ _ _ _ _ _ _ _ Hkey Hmac Hlen Hbytes)
    by (unfold kMaxLength; lia).
  eexists. split; [reflexivity |]. cbn [code].
  split; [reflexivity |]. split; [| split; [| reflexivity]].
  - unfold Spec.code. rewrite string_of_list_ascii_length. apply fixedWidth_length.
  - unfold Spec.valueOf, Spec.code.
    rewrite list_ascii_of_string_of_list_ascii.
    apply readDecimal_fixedWidth. unfold Spec.truncated.
    apply Z.mod_pos_bound. lia.
Qed.

Lemma C4_dynamic_truncation_witness :
  exists r,
    generateTOTP browser 0 rfc_secret (Some 59) 8 30 = Ok r
    /\ code r = Spec.code rfc_digest_59 8
    /\ String.length (code r) = 8%nat
    /\ Spec.valueOf (code r) = Some (Spec.truncated rfc_digest_59 8)
    /\ Background.generateTOTP browser 0 rfc_secret (Some 59) 8 30 = Ok (code r).
Proof.
  apply (C4_dynamic_truncation browser 0 rfc_secret (Some 59) 8 30
           rfc_key rfc_digest_59).
  - vm_compute. reflexivity.
  - vm_compute. reflexivity.
  - reflexivity.
  - unfold rfc_digest_59, isByte. repeat constructor; lia.
  - right. reflexivity.
Defined.

(** What the browser signs with: 20 bytes. *)
Lemma hmac_sha1_shape key data :
  List.length (hmac_sha1 key data) = 20%nat /\ Forall isByte (hmac_sha1 key data).
Proof.
  unfold hmac_sha1. set (m := _ ++ sha1 _). clearbody m. unfold sha1.
  destruct (fold_left compress _ _) as [[[[h0 h1] h2] h3] h4].
  split; [reflexivity |]. unfold bytes_of_word. cbn [app].
  repeat (apply List.Forall_cons; [unfold isByte; apply Z.mod_pos_bound; lia |]).
  apply List.Forall_nil.
Qed.

(** With the browser's HMAC and a key that is not empty, the only step
    of [generateTOTP] that can fail is [padStart]. *)
Lemma generateTOTP_browser now secret timestamp digits period b key :
  base32Decode secret = Ok (b :: key) ->
  match generateTOTP browser now secret timestamp digits period with
  | Ok _ => Z.of_nat digits <= kMaxLength
  | Throw e => e = Error "Invalid secret key" /\ kMaxLength < Z.of_nat digits
  end.
Proof.
  intros Hkey. unfold generateTOTP. rewrite Hkey. cbv zeta.
  unfold hmacSha1, browser. cbn [importKey_sign].
  set (digest := hmac_sha1 _ _).
  destruct (hmac_sha1_shape (b :: key)
              (counterBytes (effectiveTime now timestamp) period)) as [Hlen Hbytes].
  fold digest in Hlen, Hbytes.
  destruct (truncate_spec digest Hlen Hbytes) as [_ Hrange].
  assert (Hpow : 0 < 10 ^ Z.of_nat digits) by (apply Z.pow_pos_nonneg; lia).
  assert (Hcode : 0 <= rem (truncate digest) (10 ^ Z.of_nat digits) < 2 ^ 31).
  { unfold rem. rewrite Z.rem_mod_nonneg by lia.
    pose proof (Z.mod_pos_bound (truncate digest) (10 ^ Z.of_nat digits) Hpow).
    pose proof (Z.mod_le (truncate digest) (10 ^ Z.of_nat digits)
                  ltac:(lia) Hpow).
    lia. }
  pose proof (toString_length _ Hcode) as Hshort.
  destruct (padStart _ digits _) as [padded | e] eqn:Hpad; cbn [try_catch].
  - apply padStart_Ok in Hpad as [Hle | Hle]; [unfold kMaxLength; lia | exact Hle].
  - split; [reflexivity |]. apply padStart_Throw in Hpad. exact Hpad.
Qed.




(** C5, as the code has it. For a timestamp [t >= 0] and a period of
    30 or 60, let [T] be [t] when [t > 0] and the clock's seconds when
    [t = 0].  The message that [generateTOTP] hands to HMAC, in the
    popup and in the service worker, is the 8-byte big-endian
    serialization of the low 32 bits of the counter [floor(T / period)]:
    the result is the code of the digest that HMAC gives for that
    message, and the failure of HMAC on that message is the failure of
    the call.  When the counter is below [2^32] the message is the
    serialization of the counter itself.  Times are below [2^53]. *)
Theorem C5_counter_message crypto now secret t digits period key :
  0 <= t < 2 ^ 53 -> 0 <= now < 2 ^ 53 -> period = 30 \/ period = 60 ->
  digits = 6%nat \/ digits = 8%nat ->
  base32Decode secret = Ok key ->
  let T := if t =? 0 then now / 1000 else t in
  let message := Spec.be64 ((T / period) mod 2 ^ 32) in
  (T / period < 2 ^ 32 -> message = Spec.be64 (T / period))
  /\ (forall digest,
        hmacSha1 crypto key message = Ok digest ->
        List.length digest = 20%nat -> Forall isByte digest ->
        exists r,
          generateTOTP crypto now secret (Some t) digits period = Ok r
          /\ code r = Spec.code digest digits
          /\ Background.generateTOTP crypto now secret (Some t) digits period
             = Ok (code r))
  /\ (forall e,
        hmacSha1 crypto key message = Throw e ->
        generateTOTP crypto now secret (Some t) digits period
        = Throw (Error "Invalid secret key")
        /\ Background.generateTOTP crypto now secret (Some t) digits period
           = Throw (Error "Invalid secret key")).
Proof.
  intros Ht Hnow Hp Hdigits Hkey. cbv zeta.
  assert (H0 : 0 <= (if t =? 0 then now / 1000 else t)).
  { destruct (t =? 0); [apply Z.div_pos; lia | lia]. }
  assert (Hmsg : counterBytes (effectiveTime now (Some t)) period
                 = Spec.be64 ((if t =? 0 then now / 1000 else t) / period
                              mod 2 ^ 32)).
  { rewrite counterBytes_low32, effectiveTime_clock. reflexivity. }
  split; [| split].
  - intros Hc. rewrite Z.mod_small; [reflexivity |].
    split; [apply Z.div_pos; lia | exact Hc].
  - intros digest Hmac Hlen Hbytes. rewrite <- Hmsg in Hmac.
    rewrite Background_generateTOTP.
    rewrite (generateTOTP_ok _ _ _ _ _ _ _ _ Hkey Hmac Hlen Hbytes)
      by (unfold kMaxLength; lia).
    eexists. split; [reflexivity |]. split; reflexivity.
  - intros e Hmac. rewrite <- Hmsg in Hmac.
    rewrite Background_generateTOTP.
    assert (Hrun : generateTOTP crypto now secret (Some t) digits period
                   = Throw (Error "Invalid secret key")).
    { unfold generateTOTP. rewrite Hkey. cbv zeta. rewrite Hmac. reflexivity. }
    rewrite Hrun. split; reflexivity.
Qed.

Lemma C5_counter_message_witness :
  let T := if 59 =? 0 then 0 / 1000 else 59 in
  let message := Spec.be64 ((T / 30) mod 2 ^ 32) in
  (T / 30 < 2 ^ 32 -> message = Spec.be64 (T / 30))
  /\ (forall digest,
        hmacSha1 browser rfc_key message = Ok digest ->
        List.length digest = 20%nat -> Forall isByte digest ->
        exists r,
          generateTOTP browser 0 rfc_secret (Some 59) 8 30 = Ok r
          /\ code r = Spec.code digest 8
          /\ Background.generateTOTP browser 0 rfc_secret (Some 59) 8 30
             = Ok (code r))
  /\ (forall e,
        hmacSha1 browser rfc_key message = Throw e ->
        generateTOTP browser 0 rfc_secret (Some 59) 8 30
        = Throw (Error "Invalid secret key")
        /\ Background.generateTOTP browser 0 rfc_secret (Some 59) 8 30
           = Throw (Error "Invalid secret key")).
Proof.
  apply (C5_counter_message browser 0 rfc_secret 59 8 30 rfc_key).
  - lia.
  - lia.
  - left. reflexivity.
  - right. reflexivity.
  - vm_compute. reflexivity.
Defined.

(** C5 as stated fails twice: at [t = 0] the message encodes the
    clock's counter, not [floor(0 / period)]; and at [t = 30 * 2^32] the
    counter [2^32] needs 33 bits, of which [setUint32] keeps the low 32. *)
Lemma C5_message_not_counter :
  counterBytes (effectiveTime 1700000000000 (Some 0)) 30 <> Spec.be64 (0 / 30)
  /\ counterBytes (effectiveTime 1700000000000 (Some 128849018880)) 30
     <> Spec.be64 (128849018880 / 30).
Proof. split; vm_compute; discriminate. Qed.

(** C9, as the code has it. For a timestamp [t >= 0] and a period of
    30 or 60, let [T] be [t] when [t > 0] and the clock's seconds when
    [t = 0].  The popup's [generateTOTP] returns
    [timeRemaining = period - (T mod period)], which lies in
    [[1, period]]; it returns for every [digits] up to the longest
    string. *)
Theorem C9_timeRemaining crypto now secret t digits period key digest :
  0 <= t -> 0 <= now -> period = 30 \/ period = 60 ->
  Z.of_nat digits <= kMaxLength ->
  base32Decode secret = Ok key ->
  hmacSha1 crypto key (counterBytes (effectiveTime now (Some t)) period)
    = Ok digest ->
  exists r,
    generateTOTP crypto now secret (Some t) digits period = Ok r
    /\ timeRemaining r
       = period - (if t =? 0 then now / 1000 else t) mod period
    /\ 1 <= timeRemaining r <= period.
Proof.
  intros Ht Hnow Hp Hmax Hkey Hmac. unfold generateTOTP.
  rewrite Hkey. cbv zeta. rewrite Hmac.
  destruct (padStart_fits (toString (rem (truncate digest) (10 ^ Z.of_nat digits)))
              digits "0" Hmax) as [padded ->].
  cbn [try_catch]. eexists. split; [reflexivity |]. cbn [timeRemaining].
  rewrite effectiveTime_clock.
  assert (H0 : 0 <= (if t =? 0 then now / 1000 else t)).
  { destruct (t =? 0); [apply Z.div_pos; lia | lia]. }
  unfold rem. rewrite Z.rem_mod_nonneg by lia.
  pose proof (Z.mod_pos_bound (if t =? 0 then now / 1000 else t) period
                ltac:(lia)).
  lia.
Qed.

Lemma C9_timeRemaining_witness :
  exists r,
    generateTOTP browser 0 rfc_secret (Some 59) 8 30 = Ok r
    /\ timeRemaining r = 30 - (if 59 =? 0 then 0 / 1000 else 59) mod 30
    /\ 1 <= timeRemaining r <= 30.
Proof.
  apply (C9_timeRemaining browser 0 rfc_secret 59 8 30 rfc_key rfc_digest_59).
  - lia.
  - lia.
  - left. reflexivity.
  - vm_compute. discriminate.
  - vm_compute. reflexivity.
  - vm_compute. reflexivity.
Defined.

(** C9 as stated fails at [t = 0]: the clock is read instead, and at
    clock time 1700000000 the call returns 10, not [30 - 0 mod 30]. *)
Lemma C9_zero_timestamp_reads_clock :
  exists r,
    generateTOTP browser 1700000000000 rfc_secret (Some 0) 6 30 = Ok r
    /\ timeRemaining r = 10
    /\ timeRemaining r <> 30 - 0 mod 30.
Proof.
  eexists. split; [vm_compute; reflexivity |]. cbn [timeRemaining].
  split; [reflexivity | discriminate].
Qed.

(** On the inputs the specification supports, away from two corners (a
    timestamp of 0, a counter of 33 bits or more), [generateTOTP] with
    the browser's HMAC-SHA-1 computes the specification's
    [computeCode], in the popup and in the service worker. *)
Lemma generateTOTP_refines_computeCode now secret t digits period :
  0 < t -> t / period < 2 ^ 32 ->
  Spec.supportedDigits digits = true -> Spec.supportedPeriod period = true ->
  match Spec.computeCode secret t digits period with
  | inr (c, remaining) =>
      Background.generateTOTP browser now secret (Some t) digits period = Ok c
      /\ exists r, generateTOTP browser now secret (Some t) digits period = Ok r
                   /\ code r = c /\ timeRemaining r = remaining
  | inl _ =>
      Background.generateTOTP browser now secret (Some t) digits period
      = Throw (Error "Invalid secret key")
      /\ generateTOTP browser now secret (Some t) digits period
         = Throw (Error "Invalid secret key")
  end.
Proof.
  intros Ht Hc Hd Hp. unfold Spec.computeCode. rewrite Hd, Hp. cbn [andb negb].
  assert (Hperiod : period = 30 \/ period = 60).
  { unfold Spec.supportedPeriod in Hp. apply orb_true_iff in Hp.
    destruct Hp as [Hp | Hp]; apply Z.eqb_eq in Hp; auto. }
  assert (Hdigits : (1 <= digits <= 8)%nat).
  { unfold Spec.supportedDigits in Hd. apply orb_true_iff in Hd.
    destruct Hd as [Hd | Hd]; apply Nat.eqb_eq in Hd; lia. }
  rewrite Background_generateTOTP.
  destruct (base32Decode secret) as [[| b key] | e] eqn:E.
  - unfold generateTOTP. rewrite E. split; reflexivity.
  - destruct (hmac_sha1_shape (b :: key) (Spec.be64 (t / period))) as [Hlen Hbytes].
    rewrite (generateTOTP_ok browser now secret (Some t) digits period
               (b :: key) (hmac_sha1 (b :: key) (Spec.be64 (t / period))));
      try assumption; try lia.
    + split; [reflexivity |]. eexists. split; [reflexivity |].
      cbn [code timeRemaining]. split; [reflexivity |].
      rewrite effectiveTime_nonzero by lia.
      unfold rem. rewrite Z.rem_mod_nonneg by lia. reflexivity.
    + rewrite effectiveTime_nonzero by lia.
      rewrite counterBytes_be64 by (split; [apply Z.div_pos; lia | exact Hc]).
      reflexivity.
    + unfold kMaxLength. lia.
  - unfold generateTOTP. rewrite E. split; reflexivity.
Qed.

(** C10. A timestamp of 0 is treated as an omitted one: the clock is
    substituted, in the popup and in the service worker.  With the
    browser's HMAC-SHA-1 the result is then the specification's code
    (and remaining seconds) of the clock's second [floor(now / 1000)],
    or the failure of the specification for the secret: it changes
    with the clock (codes 287082 at 59 s, 921300 at 1700000000 s) and
    is not the code of the Unix epoch (755224 for that secret).  The
    clock is a [Date.now()] after the first second of 1970, and the
    counter fits 32 bits. *)
Theorem C10_zero_timestamp_is_omitted now secret digits period :
  1000 <= now < 2 ^ 53 -> now / 1000 / period < 2 ^ 32 ->
  Spec.supportedDigits digits = true -> Spec.supportedPeriod period = true ->
  (forall crypto,
      generateTOTP crypto now secret (Some 0) digits period
      = generateTOTP crypto now secret None digits period
      /\ Background.generateTOTP crypto now secret (Some 0) digits period
         = Background.generateTOTP crypto now secret None digits period)
  /\ match Spec.computeCode secret (now / 1000) digits period with
     | inr (c, remaining) =>
         Background.generateTOTP browser now secret (Some 0) digits period = Ok c
         /\ exists r,
              generateTOTP browser now secret (Some 0) digits period = Ok r
              /\ code r = c /\ timeRemaining r = remaining
     | inl _ =>
         Background.generateTOTP browser now secret (Some 0) digits period
         = Throw (Error "Invalid secret key")
         /\ generateTOTP browser now secret (Some 0) digits period
            = Throw (Error "Invalid secret key")
     end
  /\ Background.generateTOTP browser 59000 rfc_secret (Some 0) 6 30 = Ok "287082"
  /\ Background.generateTOTP browser 1700000000000 rfc_secret (Some 0) 6 30
     = Ok "921300"
  /\ Spec.computeCode rfc_secret 0 6 30 = inr ("755224", 30).
Proof.
  intros Hnow Hc Hd Hp.
  assert (HT : 0 < now / 1000).
  { apply Z.div_str_pos. lia. }
  assert (Hzero : forall crypto,
            generateTOTP crypto now secret (Some 0) digits period
            = generateTOTP crypto now secret (Some (now / 1000)) digits period).
  { intros crypto. unfold generateTOTP.
    rewrite (effectiveTime_nonzero now (now / 1000)) by lia. reflexivity. }
  split; [| split; [| repeat split; vm_compute; reflexivity]].
  - intros crypto. split; [reflexivity |].
    rewrite !Background_generateTOTP. reflexivity.
  - pose proof (generateTOTP_refines_computeCode now secret (now / 1000) digits
                  period HT Hc Hd Hp) as Href.
    rewrite Background_generateTOTP in Href.
    rewrite Background_generateTOTP, Hzero.
    exact Href.
Qed.

Lemma C10_zero_timestamp_is_omitted_witness :
  (forall crypto,
      generateTOTP crypto 59000 rfc_secret (Some 0) 6 30
      = generateTOTP crypto 59000 rfc_secret None 6 30
      /\ Background.generateTOTP crypto 59000 rfc_secret (Some 0) 6 30
         = Background.generateTOTP crypto 59000 rfc_secret None 6 30)
  /\ match Spec.computeCode rfc_secret (59000 / 1000) 6 30 with
     | inr (c, remaining) =>
         Background.generateTOTP browser 59000 rfc_secret (Some 0) 6 30 = Ok c
         /\ exists r,
              generateTOTP browser 59000 rfc_secret (Some 0) 6 30 = Ok r
              /\ code r = c /\ timeRemaining r = remaining
     | inl _ =>
         Background.generateTOTP browser 59000 rfc_secret (Some 0) 6 30
         = Throw (Error "Invalid secret key")
         /\ generateTOTP browser 59000 rfc_secret (Some 0) 6 30
            = Throw (Error "Invalid secret key")
     end
  /\ Background.generateTOTP browser 59000 rfc_secret (Some 0) 6 30 = Ok "287082"
  /\ Background.generateTOTP browser 1700000000000 rfc_secret (Some 0) 6 30
     = Ok "921300"
  /\ Spec.computeCode rfc_secret 0 6 30 = inr ("755224", 30).
Proof.
  apply (C10_zero_timestamp_is_omitted 59000 rfc_secret 6 30).
  - lia.
  - vm_compute. reflexivity.
  - reflexivity.
  - reflexivity.
Defined.

End GenerateTOTP.

(** * Properties of the store *)

Section SaveSecret.

Import StorageManager.
Variable oracle : Oracle.

Lemma findIndex_None {A} (p : A -> bool) (l : list A) :
  findIndex p l = None <-> (forall x, In x l -> p x = false).
Proof.
  induction l as [| a l IH]; simpl.
  - split; [intros _ x [] | reflexivity].
  - destruct (p a) eqn:Ea.
    + split; [discriminate |]. intros H. rewrite (H a) in Ea by auto. discriminate.
    + destruct (findIndex p l) as [i |] eqn:Ef; simpl.
      * split; [discriminate |]. intros H.
        assert (Hc : Some i = None) by (apply IH; intros x Hx; apply H; auto).
        discriminate.
      * split; [| reflexivity]. intros _ x [<- | Hx]; [exact Ea |].
        apply (proj1 IH); [reflexivity | exact Hx].
Qed.

Lemma findIndex_Some {A} (p : A -> bool) (l : list A) i :
  findIndex p l = Some i ->
  exists x, l !! i = Some x /\ p x = true
            /\ forall j y, (j < i)%nat -> l !! j = Some y -> p y = false.
Proof.
  revert i. induction l as [| a l IH]; intros i; simpl; [discriminate |].
  destruct (p a) eqn:Ea.
  - intros [= <-]. exists a. repeat split; [exact Ea |]. intros j y Hj. lia.
  - destruct (findIndex p l) as [k |] eqn:Ef; simpl; [| discriminate].
    intros [= <-]. destruct (IH k eq_refl) as (x & Hx & Hpx & Hbefore).
    exists x. repeat split; [exact Hx | exact Hpx |].
    intros [| j] y Hj Hy; simpl in Hy.
    + injection Hy as <-. exact Ea.
    + apply (Hbefore j); [lia | exact Hy].
Qed.

Lemma bucket_In w d s :
  In s (bucket w d) -> exists l, local w !! d = Some l /\ In s l.
Proof.
  unfold bucket. destruct (local w !! d) as [l |]; simpl; [eauto | intros []].
Qed.

Lemma bucket_insert_eq w k v n m :
  bucket {| local := <[k := v]> (local w); dates := n; ids := m |} k = v.
Proof. unfold bucket. cbn [local]. rewrite lookup_insert_eq. reflexivity. Qed.

Lemma bucket_insert_ne w k v n m d :
  d <> k ->
  bucket {| local := <[k := v]> (local w); dates := n; ids := m |} d = bucket w d.
Proof.
  intros Hd. unfold bucket. cbn [local].
  rewrite lookup_insert_ne by congruence. reflexivity.
Qed.

(** *** What a read finds *)

Lemma getSecretsForDomain_array w d :
  readsArray w d -> getSecretsForDomain d w = (Ok (array (bucket w d)), w).
Proof.
  unfold getSecretsForDomain, bind, storage_get, ret, bucket.
  intros [[l Hl] | Hplain].
  - rewrite Hl. reflexivity.
  - destruct (local w !! d) as [l |]; [reflexivity |]. rewrite Hplain. reflexivity.
Qed.

Lemma getSecretsForDomain_inherited w d :
  ~ readsArray w d ->
  exists length, getSecretsForDomain d w = (Ok (inherited length), w).
Proof.
  unfold readsArray, getSecretsForDomain, bind, storage_get, ret. intros Hno.
  destruct (local w !! d) as [l |] eqn:Hl; [exfalso; apply Hno; left; eauto |].
  destruct (inheritedLength d) as [length |]; [| exfalso; apply Hno; right; reflexivity].
  exists length. reflexivity.
Qed.

Lemma readsArray_dec w d : {readsArray w d} + {~ readsArray w d}.
Proof.
  unfold readsArray. destruct (local w !! d) as [l |].
  - left. left. eauto.
  - destruct (inheritedLength d) as [length |].
    + right. intros [[l Hl] | Hl]; discriminate.
    + left. right. reflexivity.
Qed.

Lemma readsArray_bucket w d s : In s (bucket w d) -> readsArray w d.
Proof. intros Hs. apply bucket_In in Hs as (l & Hl & _). left. eauto. Qed.

(** A read finds an array where one was written. *)
Lemma readsArray_insert w k v n m d :
  readsArray w d ->
  readsArray {| local := <[k := v]> (local w); dates := n; ids := m |} d.
Proof.
  intros [Hown | Hplain]; [left | right; exact Hplain]. cbn [local].
  rewrite lookup_insert_is_Some. destruct (decide (k = d)); auto.
Qed.

(** The creating branch: the id is not in the bucket of the website. *)
Lemma saveSecret_create w secret :
  readsArray w (Secret.website secret) ->
  (forall s, In s (bucket w (Secret.website secret)) ->
             Secret.id s <> Secret.id secret) ->
  saveSecret oracle secret w
  = (Ok tt,
     {| local := <[Secret.website secret :=
                     bucket w (Secret.website secret) ++ [created oracle w secret]]>
                   (local w);
        dates := S (S (dates w)); ids := S (ids w) |}).
Proof.
  intros Hreads Hfresh. unfold saveSecret, bind.
  rewrite (getSecretsForDomain_array _ _ Hreads).
  assert (Hnone : findIndex
            (fun s => bool_decide (Secret.id s = Secret.id secret))
            (bucket w (Secret.website secret)) = None).
  { apply findIndex_None. intros x Hx. apply bool_decide_eq_false. auto. }
  rewrite Hnone. reflexivity.
Qed.

(** The updating branch: position [i] of the bucket is the first
    record with the id; it is replaced by the caller's object with a
    fresh [updatedAt], and nothing else changes. *)
Lemma saveSecret_update w secret i :
  findIndex (fun s => bool_decide (Secret.id s = Secret.id secret))
    (bucket w (Secret.website secret)) = Some i ->
  saveSecret oracle secret w
  = (Ok tt,
     {| local := <[Secret.website secret :=
                     <[i := Secret.with_updatedAt secret
                              (toISOString oracle (dates w))]>
                       (bucket w (Secret.website secret))]>
                   (local w);
        dates := S (dates w); ids := ids w |}).
Proof.
  intros Hsome. unfold saveSecret, bind.
  destruct (findIndex_Some _ _ _ Hsome) as (x & Hx & _ & _).
  assert (Hreads : readsArray w (Secret.website secret)).
  { apply (readsArray_bucket _ _ x), list_elem_of_In.
    eapply list_elem_of_lookup_2. exact Hx. }
  rewrite (getSecretsForDomain_array _ _ Hreads), Hsome. reflexivity.
Qed.

(** The failing branch: the website names a property that the object
    read from the storage area inherits. *)
Lemma saveSecret_inherited w secret :
  ~ readsArray w (Secret.website secret) ->
  saveSecret oracle secret w
  = (Throw (TypeError "secrets.findIndex is not a function"), w).
Proof.
  intros Hno. unfold saveSecret, bind.
  destruct (getSecretsForDomain_inherited _ _ Hno) as [length ->]. reflexivity.
Qed.

(** The three ways [saveSecret] ends. *)
Lemma saveSecret_cases w secret :
  (readsArray w (Secret.website secret)
   /\ (forall s, In s (bucket w (Secret.website secret)) ->
                 Secret.id s <> Secret.id secret)
   /\ saveSecret oracle secret w
      = (Ok tt,
         {| local := <[Secret.website secret :=
                         bucket w (Secret.website secret)
                         ++ [created oracle w secret]]> (local w);
            dates := S (S (dates w)); ids := S (ids w) |}))
  \/ (exists i old,
        bucket w (Secret.website secret) !! i = Some old
        /\ Secret.id old = Secret.id secret
        /\ (forall j y, (j < i)%nat ->
              bucket w (Secret.website secret) !! j = Some y ->
              Secret.id y <> Secret.id secret)
        /\ saveSecret oracle secret w
           = (Ok tt,
              {| local := <[Secret.website secret :=
                              <[i := Secret.with_updatedAt secret
                                       (toISOString oracle (dates w))]>
                                (bucket w (Secret.website secret))]> (local w);
                 dates := S (dates w); ids := ids w |}))
  \/ (~ readsArray w (Secret.website secret)
      /\ saveSecret oracle secret w
         = (Throw (TypeError "secrets.findIndex is not a function"), w)).
Proof.
  destruct (readsArray_dec w (Secret.website secret)) as [Hreads | Hno];
    [| right; right; split; [exact Hno | apply saveSecret_inherited; exact Hno]].
  destruct (findIndex (fun s => bool_decide (Secret.id s = Secret.id secret))
              (bucket w (Secret.website secret))) as [i |] eqn:Hfind.
  - right. left.
    destruct (findIndex_Some _ _ _ Hfind) as (old & Hold & Hid & Hbefore).
    exists i, old. split; [exact Hold |].
    split; [apply bool_decide_eq_true in Hid; exact Hid |].
    split.
    + intros j y Hj Hy. specialize (Hbefore j y Hj Hy).
      apply bool_decide_eq_false in Hbefore. exact Hbefore.
    + apply saveSecret_update. exact Hfind.
  - left. assert (Hfresh : forall s, In s (bucket w (Secret.website secret)) ->
                                     Secret.id s <> Secret.id secret).
    { intros s Hs. pose proof (proj1 (findIndex_None _ _) Hfind s Hs) as Hb.
      apply bool_decide_eq_false in Hb. exact Hb. }
    split; [exact Hreads |].
    split; [exact Hfresh | apply saveSecret_create; assumption].
Qed.

Lemma deleteSecret_inherited w secretId domain :
  ~ readsArray w domain ->
  deleteSecret secretId domain w
  = (Throw (TypeError "secrets.filter is not a function"), w).
Proof.
  intros Hno. unfold deleteSecret, bind.
  destruct (getSecretsForDomain_inherited _ _ Hno) as [length ->]. reflexivity.
Qed.

Lemma deleteSecret_run w secretId domain :
  readsArray w domain ->
  deleteSecret secretId domain w
  = (Ok tt,
     {| local := <[domain :=
                     List.filter
                       (fun s => negb (bool_decide (Secret.id s = secretId)))
                       (bucket w domain)]> (local w);
        dates := dates w; ids := ids w |}).
Proof.
  intros Hreads. unfold deleteSecret, bind.
  rewrite (getSecretsForDomain_array _ _ Hreads). reflexivity.
Qed.

(** What an edit keeps and what it replaces, at the level of
    [saveSecret]: the id stays, [updatedAt] is the clock's, [createdAt]
    is whatever the caller's object carries, and the other records of
    the bucket and the other buckets are untouched. *)
Lemma saveSecret_update_frame w secret i :
  findIndex (fun s => bool_decide (Secret.id s = Secret.id secret))
    (bucket w (Secret.website secret)) = Some i ->
  let w' := snd (saveSecret oracle secret w) in
  (exists r, bucket w' (Secret.website secret) !! i = Some r
             /\ Secret.id r = Secret.id secret
             /\ Secret.updatedAt r = Some (toISOString oracle (dates w))
             /\ Secret.createdAt r = Secret.createdAt secret)
  /\ (forall j, j <> i ->
        bucket w' (Secret.website secret) !! j
        = bucket w (Secret.website secret) !! j)
  /\ (forall d, d <> Secret.website secret -> local w' !! d = local w !! d).
Proof.
  intros Hsome. rewrite (saveSecret_update _ _ _ Hsome). cbn [snd].
  destruct (findIndex_Some _ _ _ Hsome) as (x & Hx & _ & _).
  rewrite bucket_insert_eq. repeat split.
  - eexists. split.
    + apply list_lookup_insert_eq. eapply lookup_lt_Some. exact Hx.
    + repeat split.
  - intros j Hj. apply list_lookup_insert_ne. congruence.
  - intros d Hd. cbn [local]. apply lookup_insert_ne. congruence.
Qed.

Lemma created_erase w secret : erase (created oracle w secret) = erase secret.
Proof. reflexivity. Qed.

Lemma allHaveId_create w secret :
  allHaveId w ->
  allHaveId
    {| local := <[Secret.website secret :=
                    bucket w (Secret.website secret) ++ [created oracle w secret]]>
                  (local w);
       dates := S (S (dates w)); ids := S (ids w) |}.
Proof.
  intros Hw d l s. cbn [local].
  destruct (decide (d = Secret.website secret)) as [-> | Hne].
  - rewrite lookup_insert_eq. intros [= <-] Hin.
    apply in_app_or in Hin as [Hin | [<- | []]]; [| discriminate].
    apply bucket_In in Hin as (l & Hl & Hin). eapply Hw; eauto.
  - rewrite lookup_insert_ne by congruence. apply Hw.
Qed.

(** *** The entries of an import, in the words of the specification *)

Lemma truthy_prop_present x : truthy_prop x = present x.
Proof. destruct x as [[| c s] |]; reflexivity. Qed.

(** The test of the import loop skips the entries that are not
    complete, and no other. *)
Lemma invalidEntry_complete e : invalidEntry e = negb (complete e).
Proof.
  unfold invalidEntry, complete. rewrite !truthy_prop_present.
  destruct (present (e_website e)), (present (e_name e)), (present (e_secret e));
    reflexivity.
Qed.

Lemma entrySecret_importedAs e : entrySecret e = importedAs e.
Proof.
  unfold entrySecret, importedAs, prop, or_string, or_number, truthy_string,
    truthy_number.
  destruct e as [website name secret [issuer |] [[| digits | digits] |]
                   [[| period | period] |]];
    cbn [e_website e_name e_secret e_issuer e_digits e_period default
         from_option id negb Z.eqb]; try reflexivity;
    destruct (String.eqb_spec issuer ""); subst; reflexivity.
Qed.

Lemma complete_website e :
  complete e = true ->
  exists d, e_website e = Some d /\ Secret.website (entrySecret e) = d.
Proof.
  unfold complete. destruct (e_website e) as [d |] eqn:Hd; [| discriminate].
  intros _. exists d. unfold entrySecret. cbn [Secret.website]. rewrite Hd.
  split; reflexivity.
Qed.

End SaveSecret.

Section StoreClaims.

Import StorageManager UIController.

Lemma world1_lookup d l :
  local world1 !! d = Some l -> d = "github.com" /\ l = [github; github2].
Proof.
  unfold world1. cbn [local]. intros H.
  apply lookup_singleton_Some in H as [<- <-]. split; reflexivity.
Qed.

Lemma world1_ghost_absent : idAbsent world1 (Secret.id ghost).
Proof.
  intros d l s Hl Hin. apply world1_lookup in Hl as [-> ->].
  destruct Hin as [<- | [<- | []]]; discriminate.
Qed.

(** C7, as the code has it. When no bucket holds a record with the id
    of the object, [saveSecret] does not fail for want of the record:
    it appends to the bucket of the object's website a record with the
    object's fields, a newly generated id and [createdAt]/[updatedAt]
    read from the clock, and leaves the other buckets unchanged.  Its
    one failure has nothing to do with the id: a website that names a
    property of [Object.prototype] and is not a key of the storage area
    makes [findIndex] a call of [undefined], a [TypeError] that leaves
    the store unchanged. *)
Theorem C7_absent_id_creates oracle w secret :
  idAbsent w (Secret.id secret) ->
  (readsArray w (Secret.website secret) ->
   exists w',
     saveSecret oracle secret w = (Ok tt, w')
     /\ bucket w' (Secret.website secret)
        = bucket w (Secret.website secret) ++ [created oracle w secret]
     /\ Secret.id (created oracle w secret) = Some (randomId oracle (ids w))
     /\ forall d, d <> Secret.website secret -> local w' !! d = local w !! d)
  /\ (~ readsArray w (Secret.website secret) ->
      saveSecret oracle secret w
      = (Throw (TypeError "secrets.findIndex is not a function"), w)).
Proof.
  intros Habsent. split.
  - intros Hreads. eexists. split.
    + apply saveSecret_create; [exact Hreads |]. intros s Hin.
      apply bucket_In in Hin as (l & Hl & Hin). eapply Habsent; eauto.
    + rewrite bucket_insert_eq.
      repeat split. intros d Hd. cbn [local]. apply lookup_insert_ne. congruence.
  - apply saveSecret_inherited.
Qed.

Lemma C7_absent_id_creates_witness :
  (readsArray world1 (Secret.website ghost) ->
   exists w',
     saveSecret oracle0 ghost world1 = (Ok tt, w')
     /\ bucket w' (Secret.website ghost)
        = bucket world1 (Secret.website ghost) ++ [created oracle0 world1 ghost]
     /\ Secret.id (created oracle0 world1 ghost)
        = Some (randomId oracle0 (ids world1))
     /\ forall d, d <> Secret.website ghost -> local w' !! d = local world1 !! d)
  /\ (~ readsArray world1 (Secret.website ghost) ->
      saveSecret oracle0 ghost world1
      = (Throw (TypeError "secrets.findIndex is not a function"), world1)).
Proof.
  apply (C7_absent_id_creates oracle0 world1 ghost).
  intros d l s Hl Hin. unfold world1 in Hl. cbn [local] in Hl.
  apply lookup_singleton_Some in Hl as [<- <-].
  destruct Hin as [<- | [<- | []]]; discriminate.
Defined.

(** C7 as stated fails: no bucket holds the id of [ghost], yet the call
    returns normally and the store has one more record. *)
Lemma C7_absent_id_does_not_fail :
  idAbsent world1 (Secret.id ghost)
  /\ fst (saveSecret oracle0 ghost world1) = Ok tt
  /\ local (snd (saveSecret oracle0 ghost world1)) !! "github.com"
     = Some [github; github2; created oracle0 world1 ghost]
  /\ local (snd (saveSecret oracle0 ghost world1)) <> local world1.
Proof.
  split; [exact world1_ghost_absent |].
  split; [vm_compute; reflexivity |].
  assert (E : local (snd (saveSecret oracle0 ghost world1)) !! "github.com"
              = Some [github; github2; created oracle0 world1 ghost])
    by (vm_compute; reflexivity).
  split; [exact E |].
  intros Heq. rewrite Heq in E. vm_compute in E. discriminate.
Qed.

(** C1 at the failing input: [github] is edited in the form and its
    website changed to gitlab.com.  The old bucket still holds the
    record under its id; the new bucket receives a copy under a newly
    generated id. *)
Theorem C1_website_change_duplicates :
  let out := handleFormSubmit oracle0 move_form (Some github) world1 in
  fst out = Ok showMainView
  /\ local (snd out) !! "github.com" = Some [github; github2]
  /\ In github (bucket (snd out) "github.com")
  /\ exists copy,
       local (snd out) !! "gitlab.com" = Some [copy]
       /\ Secret.id copy = Some (randomId oracle0 0)
       /\ Secret.id copy <> Secret.id github
       /\ Secret.website copy = "gitlab.com"
       /\ Secret.secret copy = Secret.secret github.
Proof.
  cbv zeta.
  split; [vm_compute; reflexivity |].
  split; [vm_compute; reflexivity |].
  split; [vm_compute; left; reflexivity |].
  eexists. split; [vm_compute; reflexivity |].
  split; [reflexivity |]. split; [discriminate |]. split; reflexivity.
Qed.

(** C8 at the failing input: [github] is edited in the form (only the
    name changes).  The id is kept, [updatedAt] is refreshed and the
    other record is untouched, but [createdAt] is gone. *)
Theorem C8_edit_drops_createdAt :
  let out := handleFormSubmit oracle0 rename_form (Some github) world1 in
  fst out = Ok showMainView
  /\ exists edited,
       local (snd out) !! "github.com" = Some [edited; github2]
       /\ Secret.id edited = Secret.id github
       /\ Secret.updatedAt edited = Some (toISOString oracle0 0)
       /\ Secret.createdAt edited = None
       /\ Secret.createdAt edited <> Secret.createdAt github.
Proof.
  cbv zeta. split; [vm_compute; reflexivity |].
  eexists. split; [vm_compute; reflexivity |].
  split; [reflexivity |]. split; [reflexivity |].
  split; [reflexivity | discriminate].
Qed.

(** The form never hands an undecodable key to [saveSecret]: the store
    is left as it was. *)
Lemma handleFormSubmit_rejects_undecodable oracle form editing w :
  TOTPGenerator.validateSecret (removeSpaces (trim (secretKey form))) = false ->
  exists m, handleFormSubmit oracle form editing w = (Ok (showError m), w).
Proof.
  intros Hbad. unfold handleFormSubmit. cbn [Secret.website Secret.secret].
  destruct (negb (truthy_string (trim (secretWebsite form)))
            || negb (truthy_string (removeSpaces (trim (secretKey form))))).
  - eexists. reflexivity.
  - rewrite Hbad. eexists. reflexivity.
Qed.

(** C2 at the failing input: an import entry whose secret is not
    Base32 is stored as it is. *)
Theorem C2_import_stores_undecodable :
  let doc := Secrets [Some (entry (Some "github.com") (Some "work")
                                  (Some "not base32!"))] in
  let out := importSecrets oracle0 doc empty_world in
  fst out = Ok undefined
  /\ exists stored,
       local (snd out) !! "github.com" = Some [stored]
       /\ Secret.secret stored = "not base32!"
       /\ TOTPGenerator.validateSecret (Secret.secret stored) = false
       /\ TOTPGenerator.base32Decode (Secret.secret stored)
          = Throw (Error "Invalid base32 character").
Proof.
  cbv zeta. split; [vm_compute; reflexivity |].
  eexists. split; [vm_compute; reflexivity |].
  split; [reflexivity |]. split; reflexivity.
Qed.

(** [importSecrets] on an array of entries is the loop, with its error
    wrapped. *)
Lemma importSecrets_Secrets oracle entries w :
  importSecrets oracle (Secrets entries) w
  = match importLoop oracle entries w with
    | (Ok _, w') => (Ok undefined, w')
    | (Throw e, w') =>
        (Throw (Error ("Failed to import secrets: " +:+ message e)), w')
    end.
Proof.
  unfold importSecrets, Secrets, catch, bind, throw, ret.
  cbn [from_option truthy isArray elements negb orb].
  destruct (importLoop oracle entries w) as [[[] | e] w']; reflexivity.
Qed.

(** The loop over complete and incomplete entries that are all objects,
    with websites that do not name inherited properties. *)
Lemma importLoop_objects oracle entries : forall w,
  allHaveId w -> plainWebsites entries ->
  exists w',
    importLoop oracle (List.map Some entries) w = (Ok tt, w')
    /\ allHaveId w'
    /\ ids w' = (ids w + List.length (kept entries))%nat
    /\ forall d, List.map erase (bucket w' d)
                 = List.map erase (bucket w d)
                   ++ List.map importedAs (keptFor d entries).
Proof.
  induction entries as [| e es IH]; intros w Hw Hplain.
  - exists w. cbn. repeat split; [exact Hw | lia |].
    intros d. rewrite app_nil_r. reflexivity.
  - assert (Hes : plainWebsites es).
    { intros x Hx. apply Hplain. right. exact Hx. }
    cbn [List.map importLoop kept keptFor List.filter].
    rewrite invalidEntry_complete.
    destruct (complete e) eqn:Ecomplete; cbn [negb andb].
    + destruct (complete_website e Ecomplete) as (site & Hsite & Hweb).
      pose proof (Hplain e ltac:(left; reflexivity) Ecomplete) as Hname.
      rewrite Hsite in Hname. cbn [default from_option id] in Hname.
      unfold bind at 1. rewrite saveSecret_create.
      2:{ right. rewrite Hweb. exact Hname. }
      2:{ intros s Hin. apply bucket_In in Hin as (l & Hl & Hin).
          cbn [entrySecret Secret.id]. eapply Hw; eauto. }
      destruct (IH _ (allHaveId_create oracle w (entrySecret e) Hw) Hes)
        as (w' & Hrun & Hw' & Hids & Hbuckets).
      exists w'. split; [exact Hrun |]. split; [exact Hw' |].
      split; [rewrite Hids; unfold kept; cbn [ids List.length]; lia |].
      intros d. rewrite Hbuckets, Hweb, Hsite.
      destruct (decide (site = d)) as [-> | Hne].
      * rewrite bucket_insert_eq, List.map_app, <- app_assoc.
        rewrite bool_decide_eq_true_2 by reflexivity.
        cbn [List.map app]. rewrite created_erase.
        rewrite <- entrySecret_importedAs. reflexivity.
      * rewrite bucket_insert_ne by congruence.
        rewrite bool_decide_eq_false_2 by congruence. reflexivity.
    + apply IH; assumption.
Qed.

(** The loop throws [TypeError]s only: at a [null] entry, or at a
    website that names an inherited property. *)
Lemma importLoop_Throw oracle entries : forall w e w',
  importLoop oracle entries w = (Throw e, w') ->
  e = TypeError "Cannot read properties of null (reading 'website')"
  \/ e = TypeError "secrets.findIndex is not a function".
Proof.
  induction entries as [| [x |] entries IH]; intros w e w'; cbn [importLoop].
  - discriminate.
  - destruct (invalidEntry x); [apply IH |].
    unfold bind at 1.
    destruct (saveSecret_cases oracle w (entrySecret x))
      as [(_ & _ & ->) | [(i & old & _ & _ & _ & ->) | (_ & ->)]];
      [apply IH | apply IH |].
    intros [= <- _]. right. reflexivity.
  - intros [= <- _]. left. reflexivity.
Qed.

(** C6, as the code has it. [importSecrets] fails with the message of
    'Invalid import format' (after 'Failed to import secrets: ') exactly
    when the document has no [secrets] or [secrets] is not an array,
    and the store is then untouched.  On an array of objects whose
    websites do not name properties of [Object.prototype], in a store
    whose records all have an id, it does not fail: the entries without
    a website, a name or a secret key, or with an empty one, are
    skipped, every other entry becomes one new record at the end of the
    bucket of its website, with 6 digits and a period of 30 unless it
    has its own (so as many ids are generated as entries are kept), and
    the call resolves to [undefined], not to a count. *)
Theorem C6_importSecrets oracle w secrets entries :
  allHaveId w -> plainWebsites entries ->
  (fst (importSecrets oracle (Data secrets) w)
   = Throw (Error "Failed to import secrets: Invalid import format")
   <-> isSequence secrets = false)
  /\ (isSequence secrets = false -> snd (importSecrets oracle (Data secrets) w) = w)
  /\ exists w',
       importSecrets oracle (Secrets (List.map Some entries)) w
       = (Ok undefined, w')
       /\ ids w' = (ids w + List.length (kept entries))%nat
       /\ forall d, List.map erase (bucket w' d)
                    = List.map erase (bucket w d)
                      ++ List.map importedAs (keptFor d entries).
Proof.
  intros Hw Hplain.
  assert (Hshape : isSequence secrets = false ->
            importSecrets oracle (Data secrets) w
            = (Throw (Error "Failed to import secrets: Invalid import format"), w)).
  { destruct secrets as [[| [] | n | s | | es] |]; try discriminate; intros _;
      try reflexivity.
    - unfold importSecrets, catch, bind, throw.
      cbn [from_option truthy isArray negb orb]. destruct (truthy_number n); reflexivity.
    - unfold importSecrets, catch, bind, throw.
      cbn [from_option truthy isArray negb orb]. destruct (truthy_string s); reflexivity. }
  split; [| split].
  - split; [| intros Hno; rewrite (Hshape Hno); reflexivity].
    destruct (isSequence secrets) eqn:Hseq; [| reflexivity].
    destruct secrets as [[| | | | | es] |]; try discriminate.
    change (Data (Some (JArray es))) with (Secrets es).
    rewrite importSecrets_Secrets.
    destruct (importLoop oracle es w) as [[[] | e] w'] eqn:Hrun; cbn [fst];
      [discriminate |].
    apply importLoop_Throw in Hrun as [-> | ->]; discriminate.
  - intros Hno. rewrite (Hshape Hno). reflexivity.
  - destruct (importLoop_objects oracle entries w Hw Hplain)
      as (w' & Hrun & _ & Hids & Hbuckets).
    exists w'. split; [| split; assumption].
    rewrite importSecrets_Secrets, Hrun. reflexivity.
Qed.

Lemma three_entries_plain : plainWebsites three_entries.
Proof.
  intros e [<- | [<- | [<- | []]]] _; vm_compute; reflexivity.
Qed.

Lemma empty_world_allHaveId : allHaveId empty_world.
Proof.
  intros d l s Hl. unfold empty_world in Hl. cbn [local] in Hl.
  rewrite lookup_empty in Hl. discriminate.
Qed.

Lemma C6_importSecrets_witness :
  ((fst (importSecrets oracle0 (Data (Some JObject)) empty_world)
    = Throw (Error "Failed to import secrets: Invalid import format")
    <-> isSequence (Some JObject) = false)
   /\ (isSequence (Some JObject) = false ->
       snd (importSecrets oracle0 (Data (Some JObject)) empty_world) = empty_world)
   /\ exists w',
        importSecrets oracle0 (Secrets (List.map Some three_entries)) empty_world
        = (Ok undefined, w')
        /\ ids w' = (ids empty_world + List.length (kept three_entries))%nat
        /\ forall d, List.map erase (bucket w' d)
                     = List.map erase (bucket empty_world d)
                       ++ List.map importedAs (keptFor d three_entries))
  /\ List.length (kept three_entries) = 2%nat.
Proof.
  split; [| reflexivity].
  apply (C6_importSecrets oracle0 empty_world (Some JObject) three_entries).
  - exact empty_world_allHaveId.
  - exact three_entries_plain.
Defined.

(** C6 as stated fails: the call on the three entries resolves to
    [undefined], not to the count 2; and an array of entries is not
    enough for success, a [null] entry makes the import fail after the
    entries before it were saved. *)
Lemma C6_no_count_returned :
  fst (importSecrets oracle0 (Secrets (List.map Some three_entries)) empty_world)
  = Ok undefined
  /\ fst (importSecrets oracle0 (Secrets (List.map Some three_entries)) empty_world)
     <> Ok (number 2)
  /\ fst (importSecrets oracle0
            (Secrets [Some (entry (Some "github.com") (Some "work")
                                  (Some "JBSWY3DPEHPK3PXP")); None])
            empty_world)
     = Throw (Error
         "Failed to import secrets: Cannot read properties of null (reading 'website')").
Proof.
  split; [vm_compute; reflexivity |].
  split; [vm_compute; discriminate | vm_compute; reflexivity].
Qed.

End StoreClaims.

(** * Further properties: Base32 *)

Section Base32.

Import TOTPGenerator.

Lemma indexOf_alphabet c :
  (indexOf base32Chars (toUpperCase c) =? -1) = negb (isBase32Char c).
Proof. destruct c as [[] [] [] [] [] [] [] []]; vm_compute; reflexivity. Qed.

Lemma collectBits_spec l :
  collectBits l
  = if forallb isBase32Char l
    then Ok (flat_map (fun c => bits5 (indexOf base32Chars (toUpperCase c))) l)
    else Throw (Error "Invalid base32 character").
Proof.
  induction l as [| c l IH]; [reflexivity |].
  cbn [collectBits forallb flat_map]. rewrite indexOf_alphabet.
  destruct (isBase32Char c); cbn [negb andb]; [| reflexivity].
  rewrite IH. destruct (forallb isBase32Char l); reflexivity.
Qed.

(** Among the strings of the embedding (code units below 256, and a
    bit string that fits a string of the engine), [base32Decode]
    succeeds exactly on those whose characters, once the run of [=] at
    the end is dropped, are all ASCII letters or digits 2..7; its only
    failure is 'Invalid base32 character'.  In particular the empty
    string decodes. *)
Theorem base32Decode_alphabet secret :
  5 * Z.of_nat (String.length secret) <= kMaxLength ->
  validateSecret secret = forallb isBase32Char (stripped secret)
  /\ match base32Decode secret with
     | Ok _ => forallb isBase32Char (stripped secret) = true
     | Throw e =>
         forallb isBase32Char (stripped secret) = false
         /\ e = Error "Invalid base32 character"
     end.
Proof.
  intros _.
  unfold validateSecret, base32Decode, stripped. rewrite collectBits_spec.
  destruct (forallb isBase32Char _); split; try reflexivity. split; reflexivity.
Qed.

Lemma base32Decode_alphabet_witness :
  validateSecret "jbsw y3dp" = forallb isBase32Char (stripped "jbsw y3dp")
  /\ match base32Decode "jbsw y3dp" with
     | Ok _ => forallb isBase32Char (stripped "jbsw y3dp") = true
     | Throw e =>
         forallb isBase32Char (stripped "jbsw y3dp") = false
         /\ e = Error "Invalid base32 character"
     end.
Proof.
  apply (base32Decode_alphabet "jbsw y3dp"). vm_compute. discriminate.
Defined.

Lemma collectBits_length l bits :
  collectBits l = Ok bits -> List.length bits = (5 * List.length l)%nat.
Proof.
  revert bits. induction l as [| c l IH]; intros bits.
  - intros [= <-]. reflexivity.
  - cbn [collectBits]. destruct (_ =? -1); [discriminate |].
    destruct (collectBits l) as [rest | e]; [| discriminate].
    intros [= <-]. cbn [List.length]. rewrite (IH rest eq_refl). lia.
Qed.

Lemma fillBytes_length n bits : List.length (fillBytes n bits) = n.
Proof.
  revert bits. induction n as [| n IH]; intros bits; cbn; [| rewrite IH]; reflexivity.
Qed.

Lemma parseInt2_from acc bits :
  fold_left (fun a b => 2 * a + Z.b2z b) bits acc
  = acc * 2 ^ Z.of_nat (List.length bits) + parseInt2 bits.
Proof.
  unfold parseInt2. revert acc. induction bits as [| b bits IH]; intros acc.
  - cbn. lia.
  - cbn [fold_left List.length]. rewrite IH, (IH (2 * 0 + Z.b2z b)).
    rewrite Nat2Z.inj_succ, Z.pow_succ_r by lia. lia.
Qed.

Lemma parseInt2_cons b bits :
  parseInt2 (b :: bits)
  = Z.b2z b * 2 ^ Z.of_nat (List.length bits) + parseInt2 bits.
Proof.
  unfold parseInt2 at 1. cbn [fold_left]. rewrite parseInt2_from. lia.
Qed.

Lemma parseInt2_bound bits :
  0 <= parseInt2 bits < 2 ^ Z.of_nat (List.length bits).
Proof.
  induction bits as [| b bits IH]; [cbn; lia |].
  rewrite parseInt2_cons. cbn [List.length].
  rewrite Nat2Z.inj_succ, Z.pow_succ_r by lia.
  destruct b; cbn [Z.b2z]; lia.
Qed.

Lemma fillBytes_isByte n bits : Forall isByte (fillBytes n bits).
Proof.
  revert bits. induction n as [| n IH]; intros bits; cbn [fillBytes].
  - apply List.Forall_nil.
  - apply List.Forall_cons; [| apply IH].
    pose proof (parseInt2_bound (firstn 8 bits)) as Hb.
    pose proof (firstn_le_length 8 bits) as Hl.
    assert (2 ^ Z.of_nat (List.length (firstn 8 bits)) <= 2 ^ 8)
      by (apply Z.pow_le_mono_r; lia).
    unfold isByte. lia.
Qed.

Lemma base32Decode_shape secret bytes :
  base32Decode secret = Ok bytes ->
  List.length bytes = (5 * List.length (stripped secret) / 8)%nat
  /\ Forall isByte bytes.
Proof.
  unfold base32Decode, stripped.
  destruct (collectBits _) as [bits |] eqn:Hbits; [| discriminate].
  intros [= <-]. rewrite fillBytes_length, (collectBits_length _ _ Hbits).
  split; [reflexivity | apply fillBytes_isByte].
Qed.

(** A decoded secret has [floor(5 n / 8)] bytes for [n] characters
    before the padding, every one of them a byte: the bits left over
    after the last whole byte are dropped. *)
Theorem base32Decode_length secret bytes :
  base32Decode secret = Ok bytes ->
  List.length bytes = (5 * List.length (stripped secret) / 8)%nat
  /\ Forall isByte bytes.
Proof. apply base32Decode_shape. Qed.

Lemma base32Decode_length_witness :
  List.length [0x48; 0x65; 0x6c; 0x6c; 0x6f; 0x21; 0xde; 0xad; 0xbe; 0xef]
  = (5 * List.length (stripped "JBSWY3DPEHPK3PXP") / 8)%nat
  /\ Forall isByte [0x48; 0x65; 0x6c; 0x6c; 0x6f; 0x21; 0xde; 0xad; 0xbe; 0xef].
Proof.
  apply (base32Decode_length "JBSWY3DPEHPK3PXP").
  vm_compute. reflexivity.
Defined.

Lemma list_ascii_of_string_app s t :
  list_ascii_of_string (s +:+ t)
  = list_ascii_of_string s ++ list_ascii_of_string t.
Proof.
  induction s as [| c s IH]; [reflexivity |].
  simpl. f_equal. exact IH.
Qed.

Lemma stripPadding_equals k : stripPadding (repeat "="%char k) = [].
Proof. induction k as [| k IH]; cbn; [| rewrite IH]; reflexivity. Qed.

Lemma stripPadding_app_equals l k :
  stripPadding (l ++ repeat "="%char k) = stripPadding l.
Proof.
  induction l as [| c l IH]; [apply stripPadding_equals |].
  cbn [app stripPadding]. rewrite IH. reflexivity.
Qed.

Lemma toUpperCase_equals c :
  Ascii.eqb (toUpperCase c) "=" = Ascii.eqb c "=".
Proof. destruct c as [[] [] [] [] [] [] [] []]; reflexivity. Qed.

Lemma stripPadding_sameLetters l1 l2 :
  Forall2 (fun a b => toUpperCase a = toUpperCase b) l1 l2 ->
  Forall2 (fun a b => toUpperCase a = toUpperCase b)
    (stripPadding l1) (stripPadding l2).
Proof.
  induction 1 as [| a b l1 l2 Hab Hl IH]; [constructor |].
  cbn [stripPadding].
  assert (Heq : Ascii.eqb a "=" = Ascii.eqb b "=").
  { rewrite <- (toUpperCase_equals a), <- (toUpperCase_equals b), Hab.
    reflexivity. }
  destruct IH as [| a' b' r1 r2 Hab' Hr].
  - rewrite Heq. destruct (Ascii.eqb b "="); repeat constructor. exact Hab.
  - repeat constructor; assumption.
Qed.

Lemma collectBits_sameLetters l1 l2 :
  Forall2 (fun a b => toUpperCase a = toUpperCase b) l1 l2 ->
  collectBits l1 = collectBits l2.
Proof.
  induction 1 as [| a b l1 l2 Hab Hl IH]; [reflexivity |].
  cbn [collectBits]. rewrite Hab, IH. reflexivity.
Qed.

(** [base32Decode] does not see the case of the letters nor how many
    [=] end the string. *)
Theorem base32Decode_case_padding s1 s2 k :
  sameLetters s1 s2 ->
  base32Decode (s1 +:+ string_of_list_ascii (repeat "="%char k))
  = base32Decode s2.
Proof.
  intros Hsame. unfold base32Decode.
  rewrite list_ascii_of_string_app, list_ascii_of_string_of_list_ascii.
  rewrite stripPadding_app_equals.
  rewrite (collectBits_sameLetters _ _ (stripPadding_sameLetters _ _ Hsame)).
  reflexivity.
Qed.

Lemma base32Decode_case_padding_witness :
  base32Decode ("jbswY3dpehpk3pxp" +:+ string_of_list_ascii (repeat "="%char 3))
  = base32Decode "JBSWY3DPEHPK3PXP".
Proof.
  apply (base32Decode_case_padding "jbswY3dpehpk3pxp" "JBSWY3DPEHPK3PXP" 3).
  unfold sameLetters. cbn [list_ascii_of_string].
  repeat (constructor; [reflexivity |]). constructor.
Defined.

(** *** Decoding an RFC 4648 encoding *)

Lemma small_nat v bound :
  0 <= v < Z.of_nat bound -> exists n, (n < bound)%nat /\ v = Z.of_nat n.
Proof. intros Hv. exists (Z.to_nat v). lia. Qed.

Lemma base32Char_index v :
  0 <= v < 32 -> indexOf base32Chars (toUpperCase (base32Char v)) = v.
Proof.
  intros Hv. destruct (small_nat v 32 Hv) as (n & Hn & ->).
  do 32 (destruct n as [| n]; [reflexivity |]). lia.
Qed.

Lemma base32Char_not_equals v : Ascii.eqb (base32Char v) "=" = false.
Proof.
  unfold base32Char. generalize (Z.to_nat v) as n. intros n.
  do 32 (destruct n as [| n]; [reflexivity |]).
  destruct n; reflexivity.
Qed.

Lemma bits5_parseInt2 g : List.length g = 5%nat -> bits5 (parseInt2 g) = g.
Proof.
  destruct g as [| b4 [| b3 [| b2 [| b1 [| b0 [| x g]]]]]]; try discriminate.
  intros _. destruct b4, b3, b2, b1, b0; reflexivity.
Qed.

Lemma parseInt2_byteBits b : isByte b -> parseInt2 (byteBits b) = b.
Proof.
  intros Hb. destruct (small_nat b 256 Hb) as (n & Hn & ->).
  do 256 (destruct n as [| n]; [reflexivity |]). lia.
Qed.

Lemma stripPadding_id l :
  forallb (fun c => negb (Ascii.eqb c "=")) l = true -> stripPadding l = l.
Proof.
  induction l as [| c l IH]; [reflexivity |].
  cbn [forallb stripPadding]. intros H. apply andb_true_iff in H as [Hc Hl].
  rewrite (IH Hl). apply negb_true_iff in Hc. rewrite Hc.
  destruct l; reflexivity.
Qed.

Lemma encodeBits_no_equals fuel : forall bits,
  forallb (fun c => negb (Ascii.eqb c "=")) (encodeBits fuel bits) = true.
Proof.
  induction fuel as [| fuel IH]; intros bits; [reflexivity |].
  destruct bits as [| b bits]; [reflexivity |].
  cbn [encodeBits forallb]. rewrite base32Char_not_equals, IH. reflexivity.
Qed.

Lemma firstn_repeat_le {A} (x : A) n m :
  (n <= m)%nat -> firstn n (repeat x m) = repeat x n.
Proof.
  revert m. induction n as [| n IH]; intros m Hm; [reflexivity |].
  destruct m as [| m]; [lia |]. cbn. rewrite IH by lia. reflexivity.
Qed.

Lemma encodeBits_nil fuel : encodeBits fuel [] = [].
Proof. destruct fuel; reflexivity. Qed.

(** Decoding the characters of the groups gives the bits back, followed
    by the zeros that completed the last group. *)
Lemma collectBits_encodeBits fuel : forall bits,
  (List.length bits <= fuel)%nat ->
  exists pad, (pad < 5)%nat
              /\ collectBits (encodeBits fuel bits) = Ok (bits ++ repeat false pad).
Proof.
  induction fuel as [| fuel IH]; intros bits Hlen.
  - destruct bits; [| cbn in Hlen; lia]. exists 0%nat. split; [lia | reflexivity].
  - destruct bits as [| b bits].
    { exists 0%nat. split; [lia | reflexivity]. }
    set (all := b :: bits) in *.
    assert (Hall : all <> []) by discriminate.
    change (encodeBits (S fuel) all)
      with (base32Char (parseInt2 (firstn 5 (all ++ repeat false 4)))
            :: encodeBits fuel (skipn 5 all)).
    set (g := firstn 5 (all ++ repeat false 4)).
    assert (Hg : List.length g = 5%nat).
    { unfold g. rewrite length_firstn, length_app, repeat_length.
      subst all. cbn [List.length]. lia. }
    pose proof (parseInt2_bound g) as Hv. rewrite Hg in Hv.
    cbn [collectBits]. rewrite base32Char_index by (change (2 ^ Z.of_nat 5) with 32 in Hv; lia).
    destruct (Z.eqb_spec (parseInt2 g) (-1)) as [Hneg | _]; [lia |].
    rewrite bits5_parseInt2 by exact Hg.
    destruct (le_lt_dec 5 (List.length all)) as [Hbig | Hsmall].
    + destruct (IH (skipn 5 all)) as (pad & Hpad & Hrest).
      { rewrite length_skipn. subst all. cbn [List.length] in *. lia. }
      exists pad. split; [exact Hpad |]. rewrite Hrest. f_equal.
      unfold g. rewrite firstn_app.
      replace (5 - List.length all)%nat with 0%nat by lia.
      cbn [firstn]. rewrite app_nil_r, app_assoc, firstn_skipn. reflexivity.
    + rewrite skipn_all2 by lia. rewrite encodeBits_nil. cbn [collectBits].
      exists (5 - List.length all)%nat. split.
      { subst all. cbn [List.length]. lia. }
      f_equal. rewrite app_nil_r. unfold g. rewrite firstn_app.
      rewrite firstn_all2 by lia. f_equal.
      apply firstn_repeat_le. subst all. cbn [List.length] in *. lia.
Qed.

Lemma flat_map_byteBits_length bytes :
  List.length (flat_map byteBits bytes) = (8 * List.length bytes)%nat.
Proof.
  induction bytes as [| b bytes IH]; [reflexivity |].
  cbn [flat_map]. rewrite length_app, IH. cbn. lia.
Qed.

Lemma fillBytes_byteBits bytes rest :
  Forall isByte bytes ->
  fillBytes (List.length bytes) (flat_map byteBits bytes ++ rest) = bytes.
Proof.
  induction 1 as [| b bytes Hb Hall IH]; [reflexivity |].
  cbn [List.length fillBytes flat_map]. rewrite <- app_assoc.
  change (byteBits b ++ flat_map byteBits bytes ++ rest)
    with (Z.testbit b 7 :: Z.testbit b 6 :: Z.testbit b 5 :: Z.testbit b 4
          :: Z.testbit b 3 :: Z.testbit b 2 :: Z.testbit b 1 :: Z.testbit b 0
          :: flat_map byteBits bytes ++ rest).
  cbn [firstn skipn]. rewrite firstn_O, skipn_O, IH. f_equal.
  apply (parseInt2_byteBits b Hb).
Qed.

(** [base32Decode] inverts the Base32 encoding of RFC 4648, with or
    without the padding of [=]: every list of bytes is decoded back from
    its encoding. *)
Theorem base32Decode_encode bytes k :
  Forall isByte bytes ->
  base32Decode (base32Encode bytes +:+ string_of_list_ascii (repeat "="%char k))
  = Ok bytes.
Proof.
  intros Hbytes. unfold base32Decode, base32Encode.
  rewrite list_ascii_of_string_app, !list_ascii_of_string_of_list_ascii.
  rewrite stripPadding_app_equals.
  rewrite stripPadding_id by apply encodeBits_no_equals.
  destruct (collectBits_encodeBits (List.length (flat_map byteBits bytes))
              (flat_map byteBits bytes) ltac:(lia)) as (pad & Hpad & Hbits).
  rewrite Hbits. f_equal.
  rewrite length_app, repeat_length, flat_map_byteBits_length.
  replace ((8 * List.length bytes + pad) / 8)%nat with (List.length bytes).
  - apply fillBytes_byteBits. exact Hbytes.
  - apply Nat.div_unique with (r := pad); lia.
Qed.

Lemma base32Decode_encode_witness :
  base32Decode (base32Encode rfc_key +:+ string_of_list_ascii (repeat "="%char 0))
  = Ok rfc_key.
Proof.
  apply (base32Decode_encode rfc_key 0).
  unfold rfc_key, isByte. repeat (apply List.Forall_cons; [lia |]).
  apply List.Forall_nil.
Defined.

Example base32Encode_rfc : base32Encode rfc_key = rfc_secret.
Proof. vm_compute. reflexivity. Qed.

End Base32.

(** * Further properties: the generator *)

Section GenerateTOTPMore.

Import TOTPGenerator.

Lemma generateTOTP_inv crypto now secret timestamp digits period r :
  generateTOTP crypto now secret timestamp digits period = Ok r ->
  exists key digest,
    base32Decode secret = Ok key
    /\ hmacSha1 crypto key (counterBytes (effectiveTime now timestamp) period)
       = Ok digest
    /\ padStart (toString (rem (truncate digest) (10 ^ Z.of_nat digits)))
         digits "0" = Ok (code r)
    /\ timeRemaining r = period - rem (effectiveTime now timestamp) period
    /\ progress r
       = multiply (divide (inject_Z (period - timeRemaining r)) (inject_Z period))
                  (inject_Z 100).
Proof.
  unfold generateTOTP.
  destruct (base32Decode secret) as [key | e] eqn:Hkey; [| discriminate].
  cbv zeta.
  destruct (hmacSha1 crypto key _) as [digest | e] eqn:Hmac; [| discriminate].
  destruct (padStart _ digits _) as [padded | e] eqn:Hpad; [| discriminate].
  cbn [try_catch]. intros [= <-]. exists key, digest. cbn [code timeRemaining progress].
  split; [reflexivity |]. split; [exact Hmac |]. split; [exact Hpad |].
  split; reflexivity.
Qed.

(** With the browser's HMAC, [generateTOTP] returns a code exactly when
    the secret passes [validateSecret], has at least two characters
    before its padding, and [digits] is within the longest string: a
    valid secret of one character (or none) decodes to no byte and makes
    the call throw.  The statement is for secrets whose bit string fits
    a string of the engine. *)
Theorem generateTOTP_needs_two_characters now secret timestamp digits period :
  5 * Z.of_nat (String.length secret) <= kMaxLength ->
  match generateTOTP browser now secret timestamp digits period with
  | Ok _ =>
      validateSecret secret = true /\ (2 <= List.length (stripped secret))%nat
      /\ Z.of_nat digits <= kMaxLength
  | Throw _ =>
      validateSecret secret = false \/ (List.length (stripped secret) < 2)%nat
      \/ kMaxLength < Z.of_nat digits
  end.
Proof.
  intros _.
  destruct (base32Decode secret) as [key | e] eqn:Hkey.
  - destruct (base32Decode_shape _ _ Hkey) as [Hlen _].
    destruct key as [| b key].
    + unfold generateTOTP. rewrite Hkey. cbn.
      right. left. cbn [List.length] in Hlen.
      destruct (le_lt_dec 2 (List.length (stripped secret))) as [Hge | Hlt];
        [| exact Hlt].
      assert (1 <= 5 * List.length (stripped secret) / 8)%nat
        by (apply Nat.div_le_lower_bound; lia).
      lia.
    + pose proof (generateTOTP_browser now secret timestamp digits period b key
                    Hkey) as Hrun.
      destruct (generateTOTP browser now secret timestamp digits period) as [r | e].
      * split; [unfold validateSecret; rewrite Hkey; reflexivity |].
        split; [| exact Hrun]. cbn [List.length] in Hlen.
        destruct (le_lt_dec 2 (List.length (stripped secret))) as [Hge | Hlt];
          [exact Hge |].
        assert (5 * List.length (stripped secret) / 8 = 0)%nat
          by (apply Nat.div_small; lia).
        lia.
      * right. right. apply Hrun.
  - unfold generateTOTP, validateSecret. rewrite Hkey. cbn. left. reflexivity.
Qed.

Lemma generateTOTP_needs_two_characters_witness :
  match generateTOTP browser 0 "A" (Some 59) 6 30 with
  | Ok _ =>
      validateSecret "A" = true /\ (2 <= List.length (stripped "A"))%nat
      /\ Z.of_nat 6 <= kMaxLength
  | Throw _ =>
      validateSecret "A" = false \/ (List.length (stripped "A") < 2)%nat
      \/ kMaxLength < Z.of_nat 6
  end.
Proof.
  apply (generateTOTP_needs_two_characters 0 "A" (Some 59) 6 30).
  vm_compute. discriminate.
Defined.

(** A valid secret and a number of digits beyond the longest string:
    the call throws, without the padding being built. *)
Example generateTOTP_digits_beyond_kMaxLength :
  generateTOTP browser 0 rfc_secret (Some 59) (Z.to_nat (2 ^ 30)) 30
  = Throw (Error "Invalid secret key").
Proof.
  assert (Hkey : base32Decode rfc_secret
                 = Ok (49 :: List.tl rfc_key)) by (vm_compute; reflexivity).
  pose proof (generateTOTP_browser 0 rfc_secret (Some 59) (Z.to_nat (2 ^ 30)) 30
                _ _ Hkey) as Hrun.
  destruct (generateTOTP browser 0 rfc_secret (Some 59) (Z.to_nat (2 ^ 30)) 30)
    as [r | e].
  - unfold kMaxLength in Hrun. lia.
  - destruct Hrun as [-> _]. reflexivity.
Qed.

(** Two timestamps of the same period (same counter) give the same
    code, in the service worker and in the popup.  Times and period are
    positive integers below [2^53], where the counter that the program
    computes is the exact one. *)
Theorem generateTOTP_same_window crypto now secret t1 t2 digits period :
  0 < t1 < 2 ^ 53 -> 0 < t2 < 2 ^ 53 -> 0 < period < 2 ^ 53 ->
  t1 / period = t2 / period ->
  Background.generateTOTP crypto now secret (Some t1) digits period
  = Background.generateTOTP crypto now secret (Some t2) digits period
  /\ match generateTOTP crypto now secret (Some t1) digits period,
           generateTOTP crypto now secret (Some t2) digits period with
     | Ok r1, Ok r2 => code r1 = code r2
     | Throw e1, Throw e2 => e1 = e2
     | _, _ => False
     end.
Proof.
  intros H1 H2 Hp Hq.
  assert (Hmsg : counterBytes (effectiveTime now (Some t1)) period
                 = counterBytes (effectiveTime now (Some t2)) period).
  { rewrite !effectiveTime_nonzero by lia.
    unfold counterBytes, floor_div. rewrite Hq. reflexivity. }
  split.
  - unfold Background.generateTOTP. rewrite Hmsg. reflexivity.
  - unfold generateTOTP. rewrite Hmsg.
    destruct (base32Decode secret) as [key | e]; [| reflexivity].
    cbv zeta. destruct (hmacSha1 crypto key _) as [digest | e]; [| reflexivity].
    destruct (padStart _ digits _) as [padded | e]; reflexivity.
Qed.

Lemma generateTOTP_same_window_witness :
  Background.generateTOTP browser 0 rfc_secret (Some 31) 6 30
  = Background.generateTOTP browser 0 rfc_secret (Some 59) 6 30
  /\ match generateTOTP browser 0 rfc_secret (Some 31) 6 30,
           generateTOTP browser 0 rfc_secret (Some 59) 6 30 with
     | Ok r1, Ok r2 => code r1 = code r2
     | Throw e1, Throw e2 => e1 = e2
     | _, _ => False
     end.
Proof.
  apply (generateTOTP_same_window browser 0 rfc_secret 31 59 6 30).
  - lia.
  - lia.
  - lia.
  - reflexivity.
Defined.

(** Inside one period the countdown loses exactly the seconds that
    passed, and it restarts from [period] at the start of a period.
    Times and period are positive integers below [2^53], where the
    remainder and the difference are exact. *)
Theorem timeRemaining_counts_down crypto now secret t k digits period r1 r2 :
  0 < t -> 0 <= k -> t + k < 2 ^ 53 -> 0 < period < 2 ^ 53 ->
  t / period = (t + k) / period ->
  generateTOTP crypto now secret (Some t) digits period = Ok r1 ->
  generateTOTP crypto now secret (Some (t + k)) digits period = Ok r2 ->
  timeRemaining r2 = timeRemaining r1 - k
  /\ (t mod period = 0 -> timeRemaining r1 = period).
Proof.
  intros Ht Hk Hsafe Hp Hq Hr1 Hr2.
  apply generateTOTP_inv in Hr1 as (_ & _ & _ & _ & _ & Hrem1 & _).
  apply generateTOTP_inv in Hr2 as (_ & _ & _ & _ & _ & Hrem2 & _).
  rewrite effectiveTime_nonzero in Hrem1, Hrem2 by lia.
  unfold rem in Hrem1, Hrem2. rewrite Z.rem_mod_nonneg in Hrem1, Hrem2 by lia.
  rewrite Hrem1, Hrem2.
  pose proof (Z.div_mod t period ltac:(lia)) as E1.
  pose proof (Z.div_mod (t + k) period ltac:(lia)) as E2.
  rewrite <- Hq in E2. split; lia.
Qed.

Lemma timeRemaining_counts_down_witness :
  timeRemaining {| code := "287082"; timeRemaining := 1;
                   progress := 6802311937174187 # 70368744177664 |}
  = timeRemaining {| code := "287082"; timeRemaining := 29;
                     progress := 7505999378950827 # 2251799813685248 |}
    - 28
  /\ (31 mod 30 = 0 ->
      timeRemaining {| code := "287082"; timeRemaining := 29;
                       progress := 7505999378950827 # 2251799813685248 |}
      = 30).
Proof.
  apply (timeRemaining_counts_down browser 0 rfc_secret 31 28 6 30).
  - lia.
  - lia.
  - lia.
  - lia.
  - reflexivity.
  - vm_compute. reflexivity.
  - vm_compute. reflexivity.
Defined.

(** The progress shown in the popup, the share of the period that has
    passed in percent, is at least 0 and, with its two roundings, still
    below 100; at the start of a period it is 0.  Time and period are
    integers below [2^53]. *)
Theorem progress_bounds crypto now secret timestamp digits period r :
  0 <= effectiveTime now timestamp < 2 ^ 53 -> 0 < period < 2 ^ 53 ->
  generateTOTP crypto now secret timestamp digits period = Ok r ->
  Qle 0 (progress r) /\ Qlt (progress r) (inject_Z 100)
  /\ (effectiveTime now timestamp mod period = 0 -> progress r = 0%Q).
Proof.
  intros Ht Hp Hr.
  apply generateTOTP_inv in Hr as (_ & _ & _ & _ & _ & Hrem & Hprog).
  rewrite Hprog, Hrem. unfold rem. rewrite Z.rem_mod_nonneg by lia.
  pose proof (Z.mod_pos_bound (effectiveTime now timestamp) period ltac:(lia))
    as Hm.
  set (m := effectiveTime now timestamp mod period) in *.
  replace (period - (period - m)) with m by lia.
  apply (progress_double m period); lia.
Qed.

Lemma progress_bounds_witness :
  Qle 0 (progress {| code := "287082"; timeRemaining := 1;
                     progress := 6802311937174187 # 70368744177664 |})
  /\ Qlt (progress {| code := "287082"; timeRemaining := 1;
                      progress := 6802311937174187 # 70368744177664 |})
         (inject_Z 100)
  /\ (effectiveTime 0 (Some 59) mod 30 = 0 ->
      progress {| code := "287082"; timeRemaining := 1;
                  progress := 6802311937174187 # 70368744177664 |} = 0%Q).
Proof.
  apply (progress_bounds browser 0 rfc_secret (Some 59) 6 30).
  - vm_compute. split; [discriminate | reflexivity].
  - lia.
  - vm_compute. reflexivity.
Defined.

(** Whatever [digits] is, also outside 6 and 8, the code returned with
    the browser's HMAC is a decimal numeral of [max(1, digits)]
    characters whose value is below [10^digits]. *)
Theorem code_is_a_numeral now secret timestamp digits period r :
  generateTOTP browser now secret timestamp digits period = Ok r ->
  String.length (code r) = Nat.max 1 digits
  /\ exists v, Spec.valueOf (code r) = Some v /\ 0 <= v < 10 ^ Z.of_nat digits.
Proof.
  intros Hr.
  destruct (generateTOTP_inv _ _ _ _ _ _ _ Hr)
    as (key & digest & Hkey & Hmac & Hcode & _).
  assert (Hshape : List.length digest = 20%nat /\ Forall isByte digest).
  { unfold hmacSha1, browser in Hmac. cbn [importKey_sign] in Hmac.
    destruct key; [discriminate |]. injection Hmac as <-.
    apply hmac_sha1_shape. }
  destruct Hshape as [Hlen Hbytes].
  destruct digits as [| digits].
  - rewrite padStart_no_digits in Hcode. injection Hcode as <-.
    split; [reflexivity |]. exists 0. split; [reflexivity | lia].
  - assert (Hmax : Z.of_nat (S digits) <= kMaxLength).
    { destruct key as [| b key];
        [unfold hmacSha1, browser in Hmac; cbn in Hmac; discriminate |].
      pose proof (generateTOTP_browser now secret timestamp (S digits) period
                    b key Hkey) as Hrun.
      rewrite Hr in Hrun. exact Hrun. }
    rewrite (generateTOTP_ok _ _ _ _ _ _ _ _ Hkey Hmac Hlen Hbytes) in Hr by lia.
    injection Hr as <-. cbn [code].
    assert (Hpow : 0 < 10 ^ Z.of_nat (S digits)) by (apply Z.pow_pos_nonneg; lia).
    split.
    + unfold Spec.code. rewrite string_of_list_ascii_length, fixedWidth_length. lia.
    + exists (Spec.truncated digest (S digits)).
      assert (Hv : 0 <= Spec.truncated digest (S digits) < 10 ^ Z.of_nat (S digits))
        by (unfold Spec.truncated; apply Z.mod_pos_bound; lia).
      split; [| exact Hv].
      unfold Spec.valueOf, Spec.code. rewrite list_ascii_of_string_of_list_ascii.
      apply readDecimal_fixedWidth. exact Hv.
Qed.

Lemma code_is_a_numeral_witness :
  String.length (code {| code := "1094287082"; timeRemaining := 1;
                         progress := 6802311937174187 # 70368744177664 |})
  = Nat.max 1 10
  /\ exists v,
       Spec.valueOf (code {| code := "1094287082"; timeRemaining := 1;
                             progress := 6802311937174187 # 70368744177664 |})
       = Some v
       /\ 0 <= v < 10 ^ Z.of_nat 10.
Proof.
  apply (code_is_a_numeral 0 rfc_secret (Some 59) 10 30).
  vm_compute. reflexivity.
Defined.

End GenerateTOTPMore.

Section TwoCopies.

Import TOTPGenerator.

(** The two copies of [generateTOTP] agree: the service worker's
    returns the [code] of the popup's, and throws the same error on the
    same inputs. *)
Theorem popup_and_worker_agree crypto now secret timestamp digits period :
  Background.generateTOTP crypto now secret timestamp digits period
  = match generateTOTP crypto now secret timestamp digits period with
    | Ok r => Ok (code r)
    | Throw e => Throw e
    end.
Proof.
  unfold Background.generateTOTP, generateTOTP.
  destruct (base32Decode secret) as [key | e]; [| reflexivity].
  cbv zeta. destruct (hmacSha1 crypto key _) as [digest | e]; [| reflexivity].
  destruct (padStart _ digits _) as [padded | e]; reflexivity.
Qed.

End TwoCopies.

(** * Further properties: the store *)

Section StoreMore.

Import StorageManager UIController.
Variable oracle : Oracle.

Lemma In_list_insert {A} (l : list A) i x s :
  In s (<[i := x]> l) -> s = x \/ In s l.
Proof.
  revert i. induction l as [| y l IH]; intros i; [intros [] |].
  destruct i as [| i]; cbn.
  - intros [<- | H]; auto.
  - intros [<- | H]; [auto |]. destruct (IH i H); auto.
Qed.

Lemma bucket_lookup_In w d i s : bucket w d !! i = Some s -> In s (bucket w d).
Proof. intros H. apply list_elem_of_In. eapply list_elem_of_lookup_2. exact H. Qed.

Lemma storeInvariant_insert P w k l n m :
  storeInvariant P w -> (forall s, In s l -> P k s) ->
  storeInvariant P {| local := <[k := l]> (local w); dates := n; ids := m |}.
Proof.
  intros Hw Hl d l' s. cbn [local].
  destruct (decide (d = k)) as [-> | Hne].
  - rewrite lookup_insert_eq. intros [= <-]. apply Hl.
  - rewrite lookup_insert_ne by congruence. apply Hw.
Qed.

Lemma storeInvariant_bucket P w d s :
  storeInvariant P w -> In s (bucket w d) -> P d s.
Proof.
  intros Hw Hs. apply bucket_In in Hs as (l & Hl & Hs). eapply Hw; eauto.
Qed.

Lemma storeInvariant_saveSecret P w secret :
  savable oracle P secret -> storeInvariant P w ->
  storeInvariant P (snd (saveSecret oracle secret w)).
Proof.
  intros Hsav Hw. destruct (Hsav w Hw) as [Hcreated Hupdated].
  destruct (saveSecret_cases oracle w secret)
    as [(_ & _ & ->) | [(i & old & Hold & Hid & _ & ->) | (_ & ->)]]; cbn [snd];
    [| | exact Hw]; apply storeInvariant_insert; try exact Hw; intros s Hs.
  - apply in_app_or in Hs as [Hs | [<- | []]];
      [eapply storeInvariant_bucket; eauto | exact Hcreated].
  - apply In_list_insert in Hs as [-> | Hs];
      [eapply Hupdated; eauto | eapply storeInvariant_bucket; eauto].
Qed.

(** The two ways [deleteSecret] ends. *)
Lemma deleteSecret_cases w secretId domain :
  (readsArray w domain
   /\ deleteSecret secretId domain w
      = (Ok tt,
         {| local := <[domain :=
                         List.filter
                           (fun s => negb (bool_decide (Secret.id s = secretId)))
                           (bucket w domain)]> (local w);
            dates := dates w; ids := ids w |}))
  \/ (~ readsArray w domain
      /\ deleteSecret secretId domain w
         = (Throw (TypeError "secrets.filter is not a function"), w)).
Proof.
  destruct (readsArray_dec w domain) as [Hreads | Hno].
  - left. split; [exact Hreads | apply deleteSecret_run; exact Hreads].
  - right. split; [exact Hno | apply deleteSecret_inherited; exact Hno].
Qed.

Lemma storeInvariant_deleteSecret P w secretId domain :
  storeInvariant P w -> storeInvariant P (snd (deleteSecret secretId domain w)).
Proof.
  intros Hw.
  destruct (deleteSecret_cases w secretId domain) as [(_ & ->) | (_ & ->)];
    cbn [snd]; [| exact Hw].
  apply storeInvariant_insert; [exact Hw |]. intros s Hs.
  apply filter_In in Hs as [Hs _]. eapply storeInvariant_bucket; eauto.
Qed.

Lemma storeInvariant_importLoop P entries :
  (forall e, invalidEntry e = false -> savable oracle P (entrySecret e)) ->
  forall w, storeInvariant P w ->
            storeInvariant P (snd (importLoop oracle entries w)).
Proof.
  intros Hsav. induction entries as [| [e |] entries IH]; intros w Hw.
  - exact Hw.
  - cbn [importLoop]. destruct (invalidEntry e) eqn:He; [apply IH; exact Hw |].
    unfold bind at 1.
    pose proof (storeInvariant_saveSecret P w (entrySecret e) (Hsav e He) Hw) as H1.
    destruct (saveSecret_cases oracle w (entrySecret e))
      as [(_ & _ & Hrun) | [(i & old & _ & _ & _ & Hrun) | (_ & Hrun)]];
      rewrite Hrun in H1 |- *; cbn [snd] in H1; [apply IH | apply IH |]; exact H1.
  - exact Hw.
Qed.

(** The store after [importSecrets]: the one the loop leaves, or the
    one before when the document has no array of entries. *)
Lemma importSecrets_world doc w :
  snd (importSecrets oracle doc w) = w
  \/ exists entries,
       doc = Secrets entries
       /\ snd (importSecrets oracle doc w) = snd (importLoop oracle entries w).
Proof.
  destruct doc as [m | | [[| b | n | s | | entries] |]];
    try (left; reflexivity).
  - left. unfold importSecrets, catch, bind, throw.
    cbn [from_option truthy isArray negb orb]. destruct b; reflexivity.
  - left. unfold importSecrets, catch, bind, throw.
    cbn [from_option truthy isArray negb orb]. destruct (truthy_number n); reflexivity.
  - left. unfold importSecrets, catch, bind, throw.
    cbn [from_option truthy isArray negb orb]. destruct (truthy_string s); reflexivity.
  - right. exists entries. split; [reflexivity |].
    change (Data (Some (JArray entries))) with (Secrets entries).
    rewrite importSecrets_Secrets.
    destruct (importLoop oracle entries w) as [[[] | e] w']; reflexivity.
Qed.

Lemma storeInvariant_importSecrets P doc w :
  (forall e, invalidEntry e = false -> savable oracle P (entrySecret e)) ->
  storeInvariant P w -> storeInvariant P (snd (importSecrets oracle doc w)).
Proof.
  intros Hsav Hw.
  destruct (importSecrets_world doc w) as [-> | (entries & _ & ->)]; [exact Hw |].
  apply storeInvariant_importLoop; assumption.
Qed.

(** The object of the form, as [handleFormSubmit] writes it. *)
Lemma formSecret_name form :
  or_string (Some (trim (secretName form))) (trim (secretWebsite form))
  = Secret.name (formSecret form).
Proof.
  unfold or_string, truthy_string, formSecret. cbn [Secret.name].
  destruct (String.eqb (trim (secretName form)) ""); reflexivity.
Qed.

(** [handleFormSubmit], branch by branch. *)
Lemma handleFormSubmit_run form editing w :
  handleFormSubmit oracle form editing w
  = if String.eqb (Secret.website (formSecret form)) ""
       || String.eqb (Secret.secret (formSecret form)) ""
    then (Ok (showError "Please fill in all required fields"), w)
    else if negb (TOTPGenerator.validateSecret (Secret.secret (formSecret form)))
    then (Ok (showError "Invalid secret key. Please check the Base32 format."), w)
    else (match fst (saveSecret oracle (submitted form editing) w) with
          | Ok _ => Ok showMainView
          | Throw _ => Ok (showError "Failed to save secret")
          end,
          snd (saveSecret oracle (submitted form editing) w)).
Proof.
  unfold handleFormSubmit. rewrite formSecret_name.
  cbn [Secret.website Secret.secret].
  change (trim (secretWebsite form)) with (Secret.website (formSecret form)).
  change (removeSpaces (trim (secretKey form)))
    with (Secret.secret (formSecret form)).
  unfold truthy_string. rewrite !negb_involutive.
  destruct (String.eqb (Secret.website (formSecret form)) "" ||
            String.eqb (Secret.secret (formSecret form)) ""); [reflexivity |].
  destruct (TOTPGenerator.validateSecret (Secret.secret (formSecret form)));
    cbn [negb]; [| reflexivity].
  unfold catch, bind, ret.
  set (obj := match editing with
              | Some e => Secret.set_id _ (Secret.id e)
              | None => _
              end).
  assert (Hobj : obj = submitted form editing).
  { subst obj. destruct editing; reflexivity. }
  rewrite Hobj.
  destruct (saveSecret_cases oracle w (submitted form editing))
    as [(_ & _ & ->) | [(i & old & _ & _ & _ & ->) | (_ & ->)]]; reflexivity.
Qed.

(** The two ways [handleFormSubmit] ends: a message of the validation
    and an untouched store, or [saveSecret] on the object of the form. *)
Lemma handleFormSubmit_cases form editing w :
  (exists m, handleFormSubmit oracle form editing w = (Ok (showError m), w))
  \/ (Secret.website (formSecret form) <> ""
      /\ Secret.secret (formSecret form) <> ""
      /\ TOTPGenerator.validateSecret (Secret.secret (formSecret form)) = true
      /\ snd (handleFormSubmit oracle form editing w)
         = snd (saveSecret oracle (submitted form editing) w)).
Proof.
  rewrite handleFormSubmit_run.
  destruct (String.eqb_spec (Secret.website (formSecret form)) "") as [Hw | Hw];
    cbn [orb]; [left; eexists; reflexivity |].
  destruct (String.eqb_spec (Secret.secret (formSecret form)) "") as [Hs | Hs];
    [left; eexists; reflexivity |].
  destruct (TOTPGenerator.validateSecret (Secret.secret (formSecret form)))
    eqn:Hv; cbn [negb]; [| left; eexists; reflexivity].
  right. repeat split; assumption.
Qed.

Lemma storeInvariant_handleFormSubmit P form editing w :
  (Secret.website (formSecret form) <> "" ->
   Secret.secret (formSecret form) <> "" ->
   TOTPGenerator.validateSecret (Secret.secret (formSecret form)) = true ->
   forall i, savable oracle P (Secret.set_id (formSecret form) i)) ->
  storeInvariant P w ->
  storeInvariant P (snd (handleFormSubmit oracle form editing w)).
Proof.
  intros Hsav Hw.
  destruct (handleFormSubmit_cases form editing w)
    as [[m ->] | (H1 & H2 & H3 & ->)]; [exact Hw |].
  apply storeInvariant_saveSecret; [| exact Hw].
  destruct editing as [e |]; [apply Hsav; assumption |].
  apply (Hsav H1 H2 H3 None).
Qed.

Lemma handleDelete_world editing confirmed w :
  snd (handleDelete editing confirmed w)
  = match editing with
    | Some e =>
        if confirmed
        then snd (deleteSecret (Secret.id e) (Secret.website e) w)
        else w
    | None => w
    end.
Proof.
  destruct editing as [e |], confirmed; try reflexivity.
  unfold handleDelete, catch, bind, ret.
  destruct (deleteSecret_cases w (Secret.id e) (Secret.website e))
    as [(_ & ->) | (_ & ->)]; reflexivity.
Qed.

Lemma storeInvariant_handleDelete P editing confirmed w :
  storeInvariant P w -> storeInvariant P (snd (handleDelete editing confirmed w)).
Proof.
  intros Hw. rewrite handleDelete_world.
  destruct editing as [e |], confirmed; try exact Hw.
  apply storeInvariant_deleteSecret. exact Hw.
Qed.

Lemma savable_website secret :
  savable oracle (fun d s => Secret.website s = d) secret.
Proof. intros w Hw. split; [reflexivity | intros; reflexivity]. Qed.

(** Every operation of the store and of the form keeps each record
    under the key of its own website: a website change never leaves a
    record in a bucket of another name. *)
Theorem store_stays_partitioned w :
  wellBucketed w ->
  (forall secret, wellBucketed (snd (saveSecret oracle secret w)))
  /\ (forall secretId domain,
        wellBucketed (snd (deleteSecret secretId domain w)))
  /\ (forall doc, wellBucketed (snd (importSecrets oracle doc w)))
  /\ (forall form editing,
        wellBucketed (snd (handleFormSubmit oracle form editing w)))
  /\ (forall editing confirmed,
        wellBucketed (snd (handleDelete editing confirmed w))).
Proof.
  unfold wellBucketed. intros Hw. repeat split; intros.
  - apply storeInvariant_saveSecret; [apply savable_website | exact Hw].
  - apply storeInvariant_deleteSecret. exact Hw.
  - apply storeInvariant_importSecrets; [| exact Hw].
    intros e _. apply savable_website.
  - apply storeInvariant_handleFormSubmit; [| exact Hw].
    intros _ _ _ i. apply savable_website.
  - apply storeInvariant_handleDelete. exact Hw.
Qed.

Lemma savable_id secret :
  savable oracle (fun _ s => Secret.id s <> None) secret.
Proof.
  intros w Hw. split; [discriminate |].
  intros i old now Hold Hid. cbn [Secret.with_updatedAt Secret.id].
  rewrite <- Hid. apply (storeInvariant_bucket _ w (Secret.website secret) old Hw).
  eapply bucket_lookup_In. exact Hold.
Qed.

(** No operation of the store or of the form leaves a record without
    an id, whatever object or document it is given. *)
Theorem store_records_keep_ids w :
  allHaveId w ->
  (forall secret, allHaveId (snd (saveSecret oracle secret w)))
  /\ (forall secretId domain, allHaveId (snd (deleteSecret secretId domain w)))
  /\ (forall doc, allHaveId (snd (importSecrets oracle doc w)))
  /\ (forall form editing,
        allHaveId (snd (handleFormSubmit oracle form editing w)))
  /\ (forall editing confirmed,
        allHaveId (snd (handleDelete editing confirmed w))).
Proof.
  change allHaveId with (storeInvariant (fun _ s => Secret.id s <> None)).
  intros Hw. repeat split; intros.
  - apply storeInvariant_saveSecret; [apply savable_id | exact Hw].
  - apply storeInvariant_deleteSecret. exact Hw.
  - apply storeInvariant_importSecrets; [| exact Hw].
    intros e _. apply savable_id.
  - apply storeInvariant_handleFormSubmit; [| exact Hw].
    intros _ _ _ i. apply savable_id.
  - apply storeInvariant_handleDelete. exact Hw.
Qed.

Lemma savable_filled secret :
  Secret.website secret <> "" -> Secret.name secret <> "" ->
  Secret.secret secret <> "" ->
  savable oracle
    (fun _ s => Secret.website s <> "" /\ Secret.name s <> ""
                /\ Secret.secret s <> "") secret.
Proof. intros H1 H2 H3 w Hw. split; [| intros]; repeat split; assumption. Qed.

Lemma truthy_prop_nonempty x : truthy_prop x = true -> prop x <> "".
Proof.
  destruct x as [s |]; [| discriminate]. unfold truthy_prop, truthy_string, prop.
  cbn [default from_option id]. destruct (String.eqb_spec s ""); [discriminate | auto].
Qed.

Lemma entrySecret_filled e :
  invalidEntry e = false ->
  Secret.website (entrySecret e) <> "" /\ Secret.name (entrySecret e) <> ""
  /\ Secret.secret (entrySecret e) <> "".
Proof.
  unfold invalidEntry. intros H.
  apply orb_false_iff in H as [H H3]. apply orb_false_iff in H as [H1 H2].
  apply negb_false_iff in H1, H2, H3.
  cbn [entrySecret Secret.website Secret.name Secret.secret].
  repeat split; apply truthy_prop_nonempty; assumption.
Qed.

Lemma formSecret_name_filled form :
  Secret.website (formSecret form) <> "" -> Secret.name (formSecret form) <> "".
Proof.
  unfold formSecret. cbn [Secret.website Secret.name]. intros Hw.
  destruct (String.eqb_spec (trim (secretName form)) ""); assumption.
Qed.

(** The form and the import never store a record with an empty
    website, name or secret (the name of a form left blank is the
    website), and deleting keeps it so. *)
Theorem store_records_stay_filled w :
  allFilled w ->
  (forall doc, allFilled (snd (importSecrets oracle doc w)))
  /\ (forall form editing,
        allFilled (snd (handleFormSubmit oracle form editing w)))
  /\ (forall secretId domain, allFilled (snd (deleteSecret secretId domain w)))
  /\ (forall editing confirmed,
        allFilled (snd (handleDelete editing confirmed w))).
Proof.
  unfold allFilled. intros Hw.
  split; [intros doc | split; [intros form editing | split;
    [intros secretId domain | intros editing confirmed]]].
  - apply storeInvariant_importSecrets; [| exact Hw].
    intros e He. destruct (entrySecret_filled e He) as (H1 & H2 & H3).
    apply savable_filled; assumption.
  - apply storeInvariant_handleFormSubmit; [| exact Hw].
    intros H1 H2 _ i. apply savable_filled; cbn [Secret.set_id Secret.website
      Secret.name Secret.secret]; try assumption.
    apply formSecret_name_filled. exact H1.
  - apply storeInvariant_deleteSecret. exact Hw.
  - apply storeInvariant_handleDelete. exact Hw.
Qed.

Lemma savable_valid secret :
  TOTPGenerator.validateSecret (Secret.secret secret) = true ->
  savable oracle
    (fun _ s => TOTPGenerator.validateSecret (Secret.secret s) = true) secret.
Proof. intros Hv w Hw. split; [| intros]; exact Hv. Qed.

(** Through the form, every stored secret stays decodable: the form
    stores a key only after [validateSecret] accepted it (without its
    white space), and deleting removes records only. *)
Theorem form_keeps_secrets_decodable w :
  allValid w ->
  (forall form editing,
     allValid (snd (handleFormSubmit oracle form editing w)))
  /\ (forall secret,
        TOTPGenerator.validateSecret (Secret.secret secret) = true ->
        allValid (snd (saveSecret oracle secret w)))
  /\ (forall secretId domain, allValid (snd (deleteSecret secretId domain w)))
  /\ (forall editing confirmed,
        allValid (snd (handleDelete editing confirmed w))).
Proof.
  unfold allValid. intros Hw. repeat split; intros.
  - apply storeInvariant_handleFormSubmit; [| exact Hw].
    intros _ _ Hv i. apply savable_valid. exact Hv.
  - apply storeInvariant_saveSecret; [apply savable_valid; assumption | exact Hw].
  - apply storeInvariant_deleteSecret. exact Hw.
  - apply storeInvariant_handleDelete. exact Hw.
Qed.

(** *** The keys of the storage area *)

Lemma plainKeys_insert w k v n m :
  plainKeys w -> readsArray w k ->
  plainKeys {| local := <[k := v]> (local w); dates := n; ids := m |}.
Proof.
  intros Hw Hreads d. cbn [local]. rewrite lookup_insert_is_Some.
  intros [<- | [_ Hd]]; [| apply Hw; exact Hd].
  destruct Hreads as [Hown | Hplain]; [apply Hw; exact Hown | exact Hplain].
Qed.

Lemma plainKeys_saveSecret w secret :
  plainKeys w -> plainKeys (snd (saveSecret oracle secret w)).
Proof.
  intros Hw.
  destruct (saveSecret_cases oracle w secret)
    as [(Hreads & _ & ->) | [(i & old & Hold & _ & _ & ->) | (_ & ->)]];
    cbn [snd]; [| | exact Hw]; apply plainKeys_insert; try assumption.
  eapply readsArray_bucket, bucket_lookup_In. exact Hold.
Qed.

Lemma plainKeys_deleteSecret w secretId domain :
  plainKeys w -> plainKeys (snd (deleteSecret secretId domain w)).
Proof.
  intros Hw.
  destruct (deleteSecret_cases w secretId domain) as [(Hreads & ->) | (_ & ->)];
    cbn [snd]; [apply plainKeys_insert; assumption | exact Hw].
Qed.

Lemma plainKeys_importLoop entries : forall w,
  plainKeys w -> plainKeys (snd (importLoop oracle entries w)).
Proof.
  induction entries as [| [e |] entries IH]; intros w Hw.
  - exact Hw.
  - cbn [importLoop]. destruct (invalidEntry e); [apply IH; exact Hw |].
    unfold bind at 1.
    pose proof (plainKeys_saveSecret w (entrySecret e) Hw) as H1.
    destruct (saveSecret_cases oracle w (entrySecret e))
      as [(_ & _ & Hrun) | [(i & old & _ & _ & _ & Hrun) | (_ & Hrun)]];
      rewrite Hrun in H1 |- *; cbn [snd] in H1; [apply IH | apply IH |]; exact H1.
  - exact Hw.
Qed.

(** The storage area never gets a key that names a property of
    [Object.prototype]: under such a name a read finds the inherited
    property, and the operation fails before it writes.  So this holds
    of every storage area that the program has filled from an empty
    one. *)
Theorem store_keys_stay_plain w :
  plainKeys w ->
  (forall secret, plainKeys (snd (saveSecret oracle secret w)))
  /\ (forall secretId domain, plainKeys (snd (deleteSecret secretId domain w)))
  /\ (forall doc, plainKeys (snd (importSecrets oracle doc w)))
  /\ (forall form editing,
        plainKeys (snd (handleFormSubmit oracle form editing w)))
  /\ (forall editing confirmed,
        plainKeys (snd (handleDelete editing confirmed w))).
Proof.
  intros Hw.
  split; [intros secret | split; [intros secretId domain | split;
    [intros doc | split; [intros form editing | intros editing confirmed]]]].
  - apply plainKeys_saveSecret. exact Hw.
  - apply plainKeys_deleteSecret. exact Hw.
  - destruct (importSecrets_world doc w) as [-> | (entries & _ & ->)];
      [exact Hw | apply plainKeys_importLoop; exact Hw].
  - destruct (handleFormSubmit_cases form editing w)
      as [[m ->] | (_ & _ & _ & ->)]; [exact Hw |].
    apply plainKeys_saveSecret. exact Hw.
  - rewrite handleDelete_world.
    destruct editing as [e |], confirmed; try exact Hw.
    apply plainKeys_deleteSecret. exact Hw.
Qed.

(** *** Ids inside a bucket *)

Lemma map_id_insert (l : list Secret.t) i x old :
  l !! i = Some old -> Secret.id x = Secret.id old ->
  List.map Secret.id (<[i := x]> l) = List.map Secret.id l.
Proof.
  revert i. induction l as [| y l IH]; intros i; [discriminate |].
  destruct i as [| i].
  - intros [= ->] Hx. cbn. rewrite Hx. reflexivity.
  - intros Hl Hx. change (<[S i := x]> (y :: l)) with (y :: <[i := x]> l).
    cbn [List.map]. f_equal. exact (IH i Hl Hx).
Qed.

Lemma NoDup_snoc {A} (l : list A) x : NoDup l -> ~ In x l -> NoDup (l ++ [x]).
Proof.
  induction 1 as [| y l Hy Hl IH]; intros Hx; cbn.
  - constructor; [intros H; apply list_elem_of_In in H; destruct H | constructor].
  - constructor.
    + rewrite list_elem_of_In. intros Hin. apply in_app_or in Hin as [Hin | [<- | []]].
      * apply Hy. apply list_elem_of_In. exact Hin.
      * apply Hx. left. reflexivity.
    + apply IH. intros Hin. apply Hx. right. exact Hin.
Qed.

Lemma NoDup_map_filter {A B} (f : A -> B) p (l : list A) :
  NoDup (List.map f l) -> NoDup (List.map f (List.filter p l)).
Proof.
  induction l as [| y l IH]; cbn; [auto |].
  intros H. apply NoDup_cons in H as [Hy Hl].
  destruct (p y); cbn; [| auto].
  apply NoDup_cons. split; [| auto].
  rewrite list_elem_of_In in Hy |- *. intros Hin. apply Hy.
  apply in_map_iff in Hin as (z & Hz & Hin). apply filter_In in Hin as [Hin _].
  apply in_map_iff. eauto.
Qed.

(** Ids stay unique inside every bucket: an update keeps the id of the
    record it replaces, a creation adds the generated id, which has to
    be new for the bucket, and a deletion only removes. *)
Theorem ids_stay_unique w secret :
  idsUnique w ->
  (forall s, In s (bucket w (Secret.website secret)) ->
             Secret.id s <> Some (randomId oracle (ids w))) ->
  idsUnique (snd (saveSecret oracle secret w))
  /\ forall secretId domain, idsUnique (snd (deleteSecret secretId domain w)).
Proof.
  intros Hw Hfresh. split.
  - intros d.
    destruct (saveSecret_cases oracle w secret)
      as [(_ & _ & ->) | [(i & old & Hold & Hid & _ & ->) | (_ & ->)]];
      cbn [snd]; [| | apply Hw];
      (destruct (decide (d = Secret.website secret)) as [-> | Hne];
       [rewrite bucket_insert_eq | rewrite bucket_insert_ne by exact Hne; apply Hw]).
    + rewrite List.map_app. apply NoDup_snoc; [apply Hw |]. cbn.
      intros Hin. apply in_map_iff in Hin as (s & Hs & Hin).
      exact (Hfresh s Hin Hs).
    + rewrite (map_id_insert _ _ _ old Hold); [apply Hw |]. cbn. congruence.
  - intros secretId domain d.
    destruct (deleteSecret_cases w secretId domain) as [(_ & ->) | (_ & ->)];
      cbn [snd]; [| apply Hw].
    destruct (decide (d = domain)) as [-> | Hne].
    + rewrite bucket_insert_eq. apply NoDup_map_filter, Hw.
    + rewrite bucket_insert_ne by exact Hne. apply Hw.
Qed.

(** *** Deleting *)

Lemma filter_filter_same {A} (p : A -> bool) l :
  List.filter p (List.filter p l) = List.filter p l.
Proof.
  induction l as [| y l IH]; [reflexivity |]. cbn.
  destruct (p y) eqn:Hy; cbn; [rewrite Hy, IH |]; auto.
Qed.

Lemma filter_all {A} (p : A -> bool) l :
  (forall x, In x l -> p x = true) -> List.filter p l = l.
Proof.
  induction l as [| y l IH]; intros H; [reflexivity |]. cbn.
  rewrite (H y) by (left; reflexivity). rewrite IH; [reflexivity |].
  intros x Hx. apply H. right. exact Hx.
Qed.

Lemma filter_none {A} (p : A -> bool) l :
  (forall x, In x l -> p x = false) -> List.filter p l = [].
Proof.
  induction l as [| y l IH]; intros H; [reflexivity |]. cbn.
  rewrite (H y) by (left; reflexivity). apply IH.
  intros x Hx. apply H. right. exact Hx.
Qed.

(** Under a key of the storage area, or a name that is not a property
    of [Object.prototype], [deleteSecret] does not fail: it removes from
    the named bucket every record with the id and keeps the others in
    their order, touches no other bucket, and deleting again changes
    nothing, so that an absent record is no error.  Under the name of
    an inherited property that is not a key, it fails with a
    [TypeError] and leaves the store as it is. *)
Theorem deleteSecret_removes w secretId domain :
  (readsArray w domain ->
   let w' := snd (deleteSecret secretId domain w) in
   fst (deleteSecret secretId domain w) = Ok tt
   /\ bucket w' domain
      = List.filter (fun s => negb (bool_decide (Secret.id s = secretId)))
          (bucket w domain)
   /\ (forall s, In s (bucket w' domain)
                 <-> In s (bucket w domain) /\ Secret.id s <> secretId)
   /\ (forall d, d <> domain -> local w' !! d = local w !! d)
   /\ deleteSecret secretId domain w' = (Ok tt, w'))
  /\ (~ readsArray w domain ->
      deleteSecret secretId domain w
      = (Throw (TypeError "secrets.filter is not a function"), w)).
Proof.
  split; [| apply deleteSecret_inherited].
  intros Hreads. cbv zeta. rewrite (deleteSecret_run w _ _ Hreads). cbn [fst snd].
  rewrite bucket_insert_eq.
  split; [reflexivity |]. split; [reflexivity |]. split; [| split].
  - intros s. rewrite filter_In, negb_true_iff, bool_decide_eq_false. reflexivity.
  - intros d Hd. cbn [local]. apply lookup_insert_ne. congruence.
  - rewrite deleteSecret_run by (apply readsArray_insert; exact Hreads).
    rewrite bucket_insert_eq, filter_filter_same.
    cbn [local dates ids]. rewrite insert_insert_eq. reflexivity.
Qed.

(** Saving a new record and deleting it under the id it got gives the
    bucket back, as long as that id was not already in the bucket; the
    website is one under which a read finds an array. *)
Theorem saveSecret_then_deleteSecret w secret :
  readsArray w (Secret.website secret) ->
  (forall s, In s (bucket w (Secret.website secret)) ->
             Secret.id s <> Secret.id secret) ->
  (forall s, In s (bucket w (Secret.website secret)) ->
             Secret.id s <> Some (randomId oracle (ids w))) ->
  let w1 := snd (saveSecret oracle secret w) in
  let w2 := snd (deleteSecret (Some (randomId oracle (ids w)))
                   (Secret.website secret) w1) in
  fst (saveSecret oracle secret w) = Ok tt
  /\ bucket w1 (Secret.website secret)
     = bucket w (Secret.website secret) ++ [created oracle w secret]
  /\ fst (deleteSecret (Some (randomId oracle (ids w))) (Secret.website secret) w1)
     = Ok tt
  /\ bucket w2 (Secret.website secret) = bucket w (Secret.website secret)
  /\ forall d, d <> Secret.website secret -> local w2 !! d = local w !! d.
Proof.
  intros Hreads Habsent Hfresh. cbv zeta.
  rewrite (saveSecret_create oracle w secret Hreads Habsent). cbn [fst snd].
  rewrite deleteSecret_run by (apply readsArray_insert; exact Hreads).
  cbn [fst snd]. rewrite !bucket_insert_eq.
  split; [reflexivity |]. split; [reflexivity |]. split; [reflexivity |]. split.
  - rewrite List.filter_app, filter_all.
    + cbn. rewrite bool_decide_eq_true_2 by reflexivity. cbn. apply app_nil_r.
    + intros s Hs. apply negb_true_iff, bool_decide_eq_false. apply Hfresh, Hs.
  - intros d Hd. cbn [local]. rewrite !lookup_insert_ne by congruence. reflexivity.
Qed.

(** *** Editing in place *)

Lemma findIndex_first {A} (p : A -> bool) (l : list A) i x :
  l !! i = Some x -> p x = true ->
  (forall j y, (j < i)%nat -> l !! j = Some y -> p y = false) ->
  findIndex p l = Some i.
Proof.
  revert i. induction l as [| y l IH]; intros i; [discriminate |].
  destruct i as [| i]; cbn.
  - intros [= ->] Hx _. rewrite Hx. reflexivity.
  - intros Hl Hx Hbefore. rewrite (Hbefore 0%nat y) by (reflexivity || lia).
    rewrite (IH i Hl Hx); [reflexivity |].
    intros j z Hj Hz. apply (Hbefore (S j)); [lia | exact Hz].
Qed.

(** When the bucket of the object's website holds records with its id,
    [saveSecret] replaces the first of them, at its position, by the
    object with a new [updatedAt]; the bucket keeps its length and its
    other records, no id is generated and no other bucket changes. *)
Theorem saveSecret_edit_in_place w secret i old :
  bucket w (Secret.website secret) !! i = Some old ->
  Secret.id old = Secret.id secret ->
  (forall j y, (j < i)%nat ->
     bucket w (Secret.website secret) !! j = Some y ->
     Secret.id y <> Secret.id secret) ->
  let w' := snd (saveSecret oracle secret w) in
  fst (saveSecret oracle secret w) = Ok tt
  /\ bucket w' (Secret.website secret) !! i
     = Some (Secret.with_updatedAt secret (toISOString oracle (dates w)))
  /\ List.length (bucket w' (Secret.website secret))
     = List.length (bucket w (Secret.website secret))
  /\ (forall j, j <> i ->
        bucket w' (Secret.website secret) !! j
        = bucket w (Secret.website secret) !! j)
  /\ (forall d, d <> Secret.website secret -> local w' !! d = local w !! d)
  /\ ids w' = ids w.
Proof.
  intros Hold Hid Hbefore. cbv zeta.
  assert (Hfind : findIndex
            (fun s => bool_decide (Secret.id s = Secret.id secret))
            (bucket w (Secret.website secret)) = Some i).
  { apply (findIndex_first _ _ _ old Hold).
    - apply bool_decide_eq_true. exact Hid.
    - intros j y Hj Hy. apply bool_decide_eq_false. eapply Hbefore; eauto. }
  rewrite (saveSecret_update oracle w secret i Hfind). cbn [fst snd ids].
  rewrite bucket_insert_eq.
  split; [reflexivity |]. split; [| split; [| split; [| split]]].
  - apply list_lookup_insert_eq. eapply lookup_lt_Some. exact Hold.
  - apply length_insert.
  - intros j Hj. apply list_lookup_insert_ne. congruence.
  - intros d Hd. cbn [local]. apply lookup_insert_ne. congruence.
  - reflexivity.
Qed.

(** *** Listing and exporting *)

Lemma getAllSecrets_fold w keys : forall acc,
  fold_left
    (fun allSecrets domain =>
       match local w !! domain with
       | Some secrets => allSecrets ++ secrets
       | None => allSecrets
       end) keys acc
  = acc ++ List.concat (List.map (bucket w) keys).
Proof.
  induction keys as [| k keys IH]; intros acc; cbn [fold_left List.map List.concat].
  - rewrite app_nil_r. reflexivity.
  - rewrite IH. unfold bucket at 2.
    destruct (local w !! k) as [l |]; cbn [default from_option id].
    + unfold id. rewrite <- app_assoc. reflexivity.
    + reflexivity.
Qed.

Lemma getAllSecrets_run keys w :
  getAllSecrets keys w = (Ok (List.concat (List.map (bucket w) keys)), w).
Proof. unfold getAllSecrets. rewrite getAllSecrets_fold. reflexivity. Qed.

Lemma bucket_absent w d : local w !! d = None -> bucket w d = [].
Proof. intros H. unfold bucket. rewrite H. reflexivity. Qed.

Lemma concat_filter_website w keys d :
  NoDup keys -> wellBucketed w ->
  List.filter (fun s => String.eqb (Secret.website s) d)
    (List.concat (List.map (bucket w) keys))
  = if in_dec string_dec d keys then bucket w d else [].
Proof.
  intros Hnd Hw. induction Hnd as [| k keys Hk Hnd IH].
  - reflexivity.
  - cbn [List.map List.concat]. rewrite List.filter_app, IH.
    rewrite list_elem_of_In in Hk.
    destruct (string_dec k d) as [-> | Hne].
    + rewrite filter_all.
      2:{ intros s Hs. apply String.eqb_eq.
          apply (storeInvariant_bucket _ w d s Hw Hs). }
      destruct (in_dec string_dec d (d :: keys)) as [_ | Hout];
        [| exfalso; apply Hout; left; reflexivity].
      destruct (in_dec string_dec d keys) as [Hin | _]; [contradiction |].
      apply app_nil_r.
    + rewrite filter_none.
      2:{ intros s Hs. apply String.eqb_neq.
          rewrite (storeInvariant_bucket _ w k s Hw Hs). exact Hne. }
      cbn [app].
      destruct (in_dec string_dec d keys) as [Hin | Hout];
        destruct (in_dec string_dec d (k :: keys)) as [Hin' | Hout'];
        try reflexivity.
      * exfalso. apply Hout'. right. exact Hin.
      * destruct Hin' as [-> | Hin']; contradiction.
Qed.

Lemma getAllSecrets_of_website w keys d :
  ownKeys w keys -> wellBucketed w ->
  List.filter (fun s => String.eqb (Secret.website s) d)
    (List.concat (List.map (bucket w) keys))
  = bucket w d.
Proof.
  intros [Hnd Hkeys] Hw. rewrite concat_filter_website by assumption.
  destruct (in_dec string_dec d keys) as [_ | Hout]; [reflexivity |].
  symmetry. apply bucket_absent.
  destruct (local w !! d) as [l |] eqn:Hl; [| reflexivity].
  exfalso. apply Hout, Hkeys. rewrite Hl. eauto.
Qed.

Lemma getAllSecrets_In w keys s :
  ownKeys w keys ->
  In s (List.concat (List.map (bucket w) keys)) <-> exists d, In s (bucket w d).
Proof.
  intros [_ Hkeys]. rewrite in_concat. split.
  - intros (l & Hl & Hs). apply in_map_iff in Hl as (k & <- & _). eauto.
  - intros (d & Hs). exists (bucket w d). split; [| exact Hs].
    apply in_map_iff. exists d. split; [reflexivity |].
    apply Hkeys. apply bucket_In in Hs as (l & Hl & _). rewrite Hl. eauto.
Qed.

(** [getAllSecrets] reads without writing and returns every record of
    every bucket, as many as the buckets hold together; in a store
    where each record is under its website, the records of one website
    come in the order of their bucket, whatever the order of the keys. *)
Theorem getAllSecrets_lists_every_record w keys :
  ownKeys w keys ->
  exists allSecrets,
    getAllSecrets keys w = (Ok allSecrets, w)
    /\ (forall s, In s allSecrets <-> exists d, In s (bucket w d))
    /\ List.length allSecrets
       = list_sum (List.map (fun k => List.length (bucket w k)) keys)
    /\ (wellBucketed w ->
        forall d, List.filter (fun s => String.eqb (Secret.website s) d) allSecrets
                  = bucket w d).
Proof.
  intros Hkeys. eexists. split; [apply getAllSecrets_run |].
  split; [intros s; apply getAllSecrets_In; exact Hkeys |]. split.
  - rewrite length_concat, List.map_map. reflexivity.
  - intros Hw d. apply getAllSecrets_of_website; assumption.
Qed.

Lemma or_string_empty s : or_string (Some s) "" = s.
Proof.
  unfold or_string, truthy_string.
  destruct (String.eqb_spec s ""); [symmetry; assumption | reflexivity].
Qed.

Lemma or_number_twice x d : or_number (Some (or_number (Some x) d)) d = or_number (Some x) d.
Proof.
  unfold or_number, truthy_number.
  destruct (Z.eqb_spec x 0); cbn; [| destruct (Z.eqb_spec x 0); [contradiction | reflexivity]].
  destruct (d =? 0); reflexivity.
Qed.

Lemma entrySecret_exportEntry s : entrySecret (exportEntry s) = exported s.
Proof.
  unfold entrySecret, exportEntry, exported.
  cbn [e_website e_name e_secret e_issuer e_digits e_period prop default
       from_option id].
  rewrite !or_number_twice, or_string_empty, or_string_empty. reflexivity.
Qed.

Lemma present_Some s : s <> "" -> present (Some s) = true.
Proof. destruct s; [contradiction | reflexivity]. Qed.

Lemma keptFor_exportEntry d l :
  (forall s, In s l -> Secret.website s <> "" /\ Secret.name s <> ""
                       /\ Secret.secret s <> "") ->
  keptFor d (List.map exportEntry l)
  = List.map exportEntry
      (List.filter (fun s => String.eqb (Secret.website s) d) l).
Proof.
  induction l as [| s l IH]; intros Hl; [reflexivity |].
  cbn [List.map keptFor List.filter]. fold (keptFor d (List.map exportEntry l)).
  destruct (Hl s ltac:(left; reflexivity)) as (H1 & H2 & H3).
  assert (Hvalid : complete (exportEntry s) = true).
  { unfold complete, exportEntry. cbn [e_website e_name e_secret].
    rewrite !present_Some by assumption. reflexivity. }
  rewrite Hvalid. cbn [andb exportEntry e_website].
  rewrite IH by (intros x Hx; apply Hl; right; exact Hx).
  destruct (String.eqb_spec (Secret.website s) d) as [-> | Hne].
  - rewrite bool_decide_eq_true_2 by reflexivity. reflexivity.
  - rewrite bool_decide_eq_false_2 by congruence. reflexivity.
Qed.

(** Exporting a store and importing the exported document into another
    store copies every record: each bucket receives, after what it
    had, the records of the same website in their order, with their
    website, name, secret and issuer, with [digits || 6] and
    [period || 30], under new ids.  The export itself does not write to
    the store.  The exported store is one whose keys do not name
    properties of [Object.prototype], as the program keeps it. *)
Theorem export_then_import w keys w0 :
  ownKeys w keys -> wellBucketed w -> allFilled w -> plainKeys w ->
  allHaveId w0 ->
  exists doc w1 w',
    exportSecrets oracle keys w = (Ok doc, w1)
    /\ local w1 = local w
    /\ x_version doc = "1.0"
    /\ importSecrets oracle (reparsed doc) w0 = (Ok undefined, w')
    /\ forall d, List.map erase (bucket w' d)
                 = List.map erase (bucket w0 d) ++ List.map exported (bucket w d).
Proof.
  intros Hkeys Hw Hfilled Hplain Hw0.
  set (allSecrets := List.concat (List.map (bucket w) keys)).
  assert (Hexport : exportSecrets oracle keys w
                    = (Ok {| x_version := "1.0";
                             x_exportDate := toISOString oracle (dates w);
                             x_secrets := List.map exportEntry allSecrets |},
                       {| local := local w; dates := S (dates w); ids := ids w |})).
  { unfold exportSecrets, bind. rewrite getAllSecrets_run. reflexivity. }
  assert (Hsites : plainWebsites (List.map exportEntry allSecrets)).
  { intros e He _. apply in_map_iff in He as (s & <- & Hs).
    apply (getAllSecrets_In w keys s Hkeys) in Hs as (k & Hs).
    cbn [exportEntry e_website default from_option id].
    rewrite (storeInvariant_bucket _ w k s Hw Hs).
    apply Hplain. apply bucket_In in Hs as (l & -> & _). eauto. }
  destruct (importLoop_objects oracle (List.map exportEntry allSecrets) w0 Hw0 Hsites)
    as (w' & Hrun & _ & _ & Hbuckets).
  eexists _, _, w'. split; [exact Hexport |].
  split; [reflexivity |]. split; [reflexivity |]. split.
  - unfold reparsed. cbn [x_secrets]. rewrite importSecrets_Secrets, Hrun.
    reflexivity.
  - intros d. rewrite Hbuckets. f_equal.
    rewrite keptFor_exportEntry.
    + unfold allSecrets. rewrite getAllSecrets_of_website by assumption.
      rewrite List.map_map. apply List.map_ext. intros s.
      rewrite <- entrySecret_importedAs. apply entrySecret_exportEntry.
    + intros s Hs. apply (getAllSecrets_In w keys s Hkeys) in Hs as (k & Hs).
      apply (storeInvariant_bucket _ w k s Hfilled Hs).
Qed.

(** *** The form *)

Lemma forallb_filter {A} (p : A -> bool) l : forallb p (List.filter p l) = true.
Proof.
  induction l as [| y l IH]; [reflexivity |]. cbn.
  destruct (p y) eqn:Hy; cbn; [rewrite Hy |]; exact IH.
Qed.

(** A form with a decodable key and a website under which a read finds
    an array, not opened on a record, adds one record at the end of the
    bucket of the trimmed website: the key without any white space, the
    name replaced by the website when it is blank, a new id and the
    dates of the clock.  No other bucket changes. *)
Theorem handleFormSubmit_adds w form :
  allHaveId w ->
  Secret.website (formSecret form) <> "" ->
  readsArray w (trim (secretWebsite form)) ->
  Secret.secret (formSecret form) <> "" ->
  TOTPGenerator.validateSecret (Secret.secret (formSecret form)) = true ->
  exists w',
    handleFormSubmit oracle form None w = (Ok showMainView, w')
    /\ bucket w' (trim (secretWebsite form))
       = bucket w (trim (secretWebsite form))
         ++ [created oracle w (formSecret form)]
    /\ (forall d, d <> trim (secretWebsite form) -> local w' !! d = local w !! d)
    /\ Secret.secret (created oracle w (formSecret form))
       = removeSpaces (trim (secretKey form))
    /\ forallb (fun c => negb (isSpace c))
         (list_ascii_of_string (Secret.secret (created oracle w (formSecret form))))
       = true
    /\ (trim (secretName form) = "" ->
        Secret.name (created oracle w (formSecret form)) = trim (secretWebsite form))
    /\ (trim (secretName form) <> "" ->
        Secret.name (created oracle w (formSecret form)) = trim (secretName form)).
Proof.
  intros Hw H1 Hreads H2 H3. rewrite handleFormSubmit_run.
  destruct (String.eqb_spec (Secret.website (formSecret form)) "");
    [contradiction |].
  destruct (String.eqb_spec (Secret.secret (formSecret form)) "");
    [contradiction |].
  rewrite H3. cbn [orb negb submitted].
  rewrite saveSecret_create.
  2:{ exact Hreads. }
  2:{ intros s Hs. cbn [formSecret Secret.id].
      apply (storeInvariant_bucket _ w _ s Hw Hs). }
  cbn [fst snd]. eexists. split; [reflexivity |].
  change (Secret.website (formSecret form)) with (trim (secretWebsite form)).
  rewrite bucket_insert_eq.
  split; [reflexivity |]. split; [| split; [reflexivity | split; [| split]]].
  - intros d Hd. cbn [local]. apply lookup_insert_ne. congruence.
  - cbn [created formSecret Secret.secret]. unfold removeSpaces.
    rewrite list_ascii_of_string_of_list_ascii. apply forallb_filter.
  - intros Hname. cbn [created formSecret Secret.name]. rewrite Hname. reflexivity.
  - intros Hname. cbn [created formSecret Secret.name].
    destruct (String.eqb_spec (trim (secretName form)) ""); [contradiction | reflexivity].
Qed.

(** A form without website or without key, or with a key that is not
    Base32 once its white space is removed, changes nothing in the store
    and shows one of the two error messages. *)
Theorem handleFormSubmit_rejects w form editing :
  trim (secretWebsite form) = ""
  \/ removeSpaces (trim (secretKey form)) = ""
  \/ TOTPGenerator.validateSecret (removeSpaces (trim (secretKey form))) = false ->
  exists m,
    handleFormSubmit oracle form editing w = (Ok (showError m), w)
    /\ (m = "Please fill in all required fields"
        \/ m = "Invalid secret key. Please check the Base32 format.").
Proof.
  intros Hbad. rewrite handleFormSubmit_run.
  change (Secret.website (formSecret form)) with (trim (secretWebsite form)).
  change (Secret.secret (formSecret form))
    with (removeSpaces (trim (secretKey form))).
  destruct (String.eqb_spec (trim (secretWebsite form)) "") as [Hw | Hw];
    cbn [orb]; [eexists; split; [reflexivity | left; reflexivity] |].
  destruct (String.eqb_spec (removeSpaces (trim (secretKey form))) "") as [Hs | Hs];
    [eexists; split; [reflexivity | left; reflexivity] |].
  destruct Hbad as [Hbad | [Hbad | Hbad]]; try contradiction.
  rewrite Hbad. cbn [negb]. eexists. split; [reflexivity | right; reflexivity].
Qed.

(** A form that passes the validation with a website that names a
    property of [Object.prototype] (and is not a key of the storage
    area) does not save: [saveSecret] throws, the form shows 'Failed to
    save secret', and the store is left as it was, adding or editing. *)
Theorem handleFormSubmit_inherited_website w form editing :
  ~ readsArray w (trim (secretWebsite form)) ->
  removeSpaces (trim (secretKey form)) <> "" ->
  TOTPGenerator.validateSecret (removeSpaces (trim (secretKey form))) = true ->
  handleFormSubmit oracle form editing w
  = (Ok (showError "Failed to save secret"), w)
  /\ saveSecret oracle (submitted form editing) w
     = (Throw (TypeError "secrets.findIndex is not a function"), w).
Proof.
  intros Hno Hkey Hvalid.
  assert (Hsite : Secret.website (submitted form editing)
                  = trim (secretWebsite form)) by (destruct editing; reflexivity).
  assert (Hrun : saveSecret oracle (submitted form editing) w
                 = (Throw (TypeError "secrets.findIndex is not a function"), w)).
  { apply saveSecret_inherited. rewrite Hsite. exact Hno. }
  split; [| exact Hrun].
  rewrite handleFormSubmit_run, Hrun.
  change (Secret.website (formSecret form)) with (trim (secretWebsite form)).
  change (Secret.secret (formSecret form))
    with (removeSpaces (trim (secretKey form))).
  destruct (String.eqb_spec (trim (secretWebsite form)) "") as [Hw | _].
  { exfalso. apply Hno. right. rewrite Hw. reflexivity. }
  destruct (String.eqb_spec (removeSpaces (trim (secretKey form))) "");
    [contradiction |].
  rewrite Hvalid. reflexivity.
Qed.

(** *** Deleting from the edit view *)

(** The record that the edit button opens is one of the listed bucket;
    deleting it from the edit view, once confirmed, removes every record
    of that bucket with its id and nothing else.  Without confirmation,
    or with no record being edited, the store is left as it is. *)
Theorem editSecret_then_handleDelete w d secretId e :
  wellBucketed w ->
  editSecret (bucket w d) secretId = Some e ->
  let out := handleDelete (Some e) true w in
  In e (bucket w d) /\ Secret.id e = Some secretId
  /\ fst out = Ok (Some showMainView)
  /\ (forall s, In s (bucket (snd out) d)
                <-> In s (bucket w d) /\ Secret.id s <> Some secretId)
  /\ (forall d', d' <> d -> local (snd out) !! d' = local w !! d')
  /\ handleDelete (Some e) false w = (Ok None, w)
  /\ (forall confirmed, handleDelete None confirmed w = (Ok None, w)).
Proof.
  intros Hw Hedit. cbv zeta. unfold editSecret in Hedit.
  apply find_some in Hedit as [Hin Hid]. apply bool_decide_eq_true in Hid.
  pose proof (storeInvariant_bucket _ w d e Hw Hin) as Hweb. cbn beta in Hweb.
  split; [exact Hin |]. split; [exact Hid |].
  unfold handleDelete, catch, bind, ret.
  rewrite Hweb, deleteSecret_run by (eapply readsArray_bucket; exact Hin).
  cbn [fst snd]. rewrite Hid, bucket_insert_eq.
  split; [reflexivity |]. split; [| split; [| split]].
  - intros s. rewrite filter_In, negb_true_iff, bool_decide_eq_false. reflexivity.
  - intros d' Hd'. cbn [local]. apply lookup_insert_ne. congruence.
  - reflexivity.
  - intros confirmed. reflexivity.
Qed.

(** *** Imports that stop, imports that repeat *)

(** The loop over object entries with websites under which a read
    finds an array does not throw. *)
Lemma importLoop_plain_app entries rest : forall w,
  plainWebsites entries ->
  fst (importLoop oracle (List.map Some entries) w) = Ok tt
  /\ importLoop oracle (List.map Some entries ++ rest) w
     = importLoop oracle rest (snd (importLoop oracle (List.map Some entries) w)).
Proof.
  induction entries as [| e entries IH]; intros w Hplain; [split; reflexivity |].
  assert (Hes : plainWebsites entries).
  { intros x Hx. apply Hplain. right. exact Hx. }
  cbn [List.map app importLoop]. rewrite invalidEntry_complete.
  destruct (complete e) eqn:Ecomplete; cbn [negb]; [| apply IH; exact Hes].
  destruct (complete_website e Ecomplete) as (site & Hsite & Hweb).
  pose proof (Hplain e ltac:(left; reflexivity) Ecomplete) as Hname.
  rewrite Hsite in Hname. cbn [default from_option id] in Hname.
  unfold bind.
  destruct (saveSecret_cases oracle w (entrySecret e))
    as [(_ & _ & ->) | [(i & old & _ & _ & _ & ->) | (Hno & _)]];
    [apply IH; exact Hes | apply IH; exact Hes |].
  exfalso. apply Hno. right. rewrite Hweb. exact Hname.
Qed.

(** An import is not undone when it fails: at a [null] entry it
    stops with the wrapped [TypeError], and the store is the one that
    the entries before the [null] alone would have produced.  The
    entries before the [null] are objects whose websites do not name
    properties of [Object.prototype]. *)
Theorem importSecrets_stops_at_null entries rest w :
  plainWebsites entries ->
  importSecrets oracle (Secrets (List.map Some entries ++ None :: rest)) w
  = (Throw (Error
       "Failed to import secrets: Cannot read properties of null (reading 'website')"),
     snd (importSecrets oracle (Secrets (List.map Some entries)) w))
  /\ fst (importSecrets oracle (Secrets (List.map Some entries)) w) = Ok undefined.
Proof.
  intros Hplain.
  destruct (importLoop_plain_app entries (None :: rest) w Hplain) as [Hok Happ].
  rewrite !importSecrets_Secrets, Happ. cbn [importLoop]. unfold throw.
  destruct (importLoop oracle (List.map Some entries) w) as [[[] | e] w1];
    cbn [fst snd] in *; [split; reflexivity | discriminate].
Qed.

(** It stops in the same way at an entry whose website names a property
    of [Object.prototype]: in a store whose keys do not, [saveSecret]
    throws there, and the store is the one that the entries before
    would have produced. *)
Theorem importSecrets_stops_at_inherited_website entries e rest w :
  plainKeys w -> plainWebsites entries -> complete e = true ->
  inheritedLength (default "" (e_website e)) <> None ->
  importSecrets oracle (Secrets (List.map Some entries ++ Some e :: rest)) w
  = (Throw (Error "Failed to import secrets: secrets.findIndex is not a function"),
     snd (importSecrets oracle (Secrets (List.map Some entries)) w)).
Proof.
  intros Hw Hplain Ecomplete Hname.
  destruct (importLoop_plain_app entries (Some e :: rest) w Hplain) as [Hok Happ].
  pose proof (plainKeys_importLoop (List.map Some entries) w Hw) as Hw1.
  rewrite !importSecrets_Secrets, Happ. cbn [importLoop].
  rewrite invalidEntry_complete, Ecomplete. cbn [negb].
  destruct (importLoop oracle (List.map Some entries) w) as [[[] | x] w1];
    cbn [fst snd] in *; [| discriminate].
  destruct (complete_website e Ecomplete) as (site & Hsite & Hweb).
  rewrite Hsite in Hname. cbn [default from_option id] in Hname.
  unfold bind. rewrite saveSecret_inherited; [reflexivity |].
  rewrite Hweb. intros [Hown | Hplain']; [| contradiction].
  apply Hname, Hw1. exact Hown.
Qed.

(** An import never looks for records that are already there:
    importing the same document twice appends its records twice.  The
    entries are objects whose websites do not name properties of
    [Object.prototype]. *)
Theorem importSecrets_twice_duplicates entries w :
  allHaveId w -> plainWebsites entries ->
  exists w1 w2,
    importSecrets oracle (Secrets (List.map Some entries)) w = (Ok undefined, w1)
    /\ importSecrets oracle (Secrets (List.map Some entries)) w1
       = (Ok undefined, w2)
    /\ forall d, List.map erase (bucket w2 d)
                 = List.map erase (bucket w d)
                   ++ List.map importedAs (keptFor d entries)
                   ++ List.map importedAs (keptFor d entries).
Proof.
  intros Hw Hplain.
  destruct (importLoop_objects oracle entries w Hw Hplain)
    as (w1 & Hrun1 & Hw1 & _ & Hb1).
  destruct (importLoop_objects oracle entries w1 Hw1 Hplain)
    as (w2 & Hrun2 & _ & _ & Hb2).
  exists w1, w2. split; [| split].
  - rewrite importSecrets_Secrets, Hrun1. reflexivity.
  - rewrite importSecrets_Secrets, Hrun2. reflexivity.
  - intros d. rewrite Hb2, Hb1, <- app_assoc. reflexivity.
Qed.

End StoreMore.

(** *** The properties of the store on a storage area of two buckets *)

Section StoreWitnesses.

Import StorageManager UIController.

Lemma world2_invariant (P : string -> Secret.t -> Prop) :
  P "example.org" mail -> P "github.com" github -> P "github.com" github2 ->
  storeInvariant P world2.
Proof.
  intros Hm Hg Hg2 d l s Hl Hs. unfold world2 in Hl. cbn [local] in Hl.
  apply lookup_insert_Some in Hl as [[<- <-] | [_ Hl]].
  - destruct Hs as [<- | []]. exact Hm.
  - apply lookup_singleton_Some in Hl as [<- <-].
    destruct Hs as [<- | [<- | []]]; assumption.
Qed.

Lemma world2_wellBucketed : wellBucketed world2.
Proof. apply world2_invariant; reflexivity. Qed.

Lemma world2_allHaveId : allHaveId world2.
Proof. apply (world2_invariant (fun _ s => Secret.id s <> None)); discriminate. Qed.

Lemma world2_allFilled : allFilled world2.
Proof. apply world2_invariant; repeat split; discriminate. Qed.

Lemma world2_allValid : allValid world2.
Proof. apply world2_invariant; vm_compute; reflexivity. Qed.

Lemma world2_github : bucket world2 "github.com" = [github; github2].
Proof. vm_compute. reflexivity. Qed.

Lemma world2_example : bucket world2 "example.org" = [mail].
Proof. vm_compute. reflexivity. Qed.

Lemma world2_other d :
  d <> "github.com" -> d <> "example.org" -> bucket world2 d = [].
Proof.
  intros H1 H2. unfold bucket, world2. cbn [local].
  rewrite lookup_insert_ne by congruence.
  rewrite lookup_singleton_ne by congruence. reflexivity.
Qed.

Lemma world2_idsUnique : idsUnique world2.
Proof.
  intros d. destruct (string_dec d "github.com") as [-> | H1].
  - rewrite world2_github. cbn. repeat constructor; rewrite list_elem_of_In; cbn.
    + intros [H | []]. discriminate.
    + intros [].
  - destruct (string_dec d "example.org") as [-> | H2].
    + rewrite world2_example. cbn. repeat constructor. rewrite list_elem_of_In.
      intros [].
    + rewrite world2_other by assumption. constructor.
Qed.

Lemma world2_keys : ownKeys world2 ["github.com"; "example.org"].
Proof.
  split.
  - repeat constructor; rewrite list_elem_of_In; cbn.
    + intros [H | []]. discriminate.
    + intros [].
  - intros k. unfold world2. cbn [local]. rewrite lookup_insert_is_Some.
    rewrite lookup_singleton_is_Some. cbn. split.
    + intros [<- | [<- | []]]; [right; split; [discriminate | reflexivity] | left; reflexivity].
    + intros [<- | [_ <-]]; auto.
Qed.

Lemma world2_plainKeys : plainKeys world2.
Proof.
  intros d Hd. apply (proj2 (proj2 world2_keys d)) in Hd.
  destruct Hd as [<- | [<- | []]]; reflexivity.
Qed.

Lemma world2_reads_github : readsArray world2 "github.com".
Proof. right. reflexivity. Qed.

Lemma world2_no_constructor : ~ readsArray world2 "constructor".
Proof.
  intros [Hown | Hplain]; [| discriminate].
  apply (proj2 (proj2 world2_keys "constructor")) in Hown.
  destruct Hown as [H | [H | []]]; discriminate.
Qed.

Lemma store_stays_partitioned_witness :
  (forall secret, wellBucketed (snd (saveSecret oracle0 secret world2)))
  /\ (forall secretId domain,
        wellBucketed (snd (deleteSecret secretId domain world2)))
  /\ (forall doc, wellBucketed (snd (importSecrets oracle0 doc world2)))
  /\ (forall form editing,
        wellBucketed (snd (handleFormSubmit oracle0 form editing world2)))
  /\ (forall editing confirmed,
        wellBucketed (snd (handleDelete editing confirmed world2))).
Proof.
  apply (store_stays_partitioned oracle0 world2). exact world2_wellBucketed.
Defined.

Lemma store_records_keep_ids_witness :
  (forall secret, allHaveId (snd (saveSecret oracle0 secret world2)))
  /\ (forall secretId domain, allHaveId (snd (deleteSecret secretId domain world2)))
  /\ (forall doc, allHaveId (snd (importSecrets oracle0 doc world2)))
  /\ (forall form editing,
        allHaveId (snd (handleFormSubmit oracle0 form editing world2)))
  /\ (forall editing confirmed,
        allHaveId (snd (handleDelete editing confirmed world2))).
Proof.
  apply (store_records_keep_ids oracle0 world2). exact world2_allHaveId.
Defined.

Lemma store_records_stay_filled_witness :
  (forall doc, allFilled (snd (importSecrets oracle0 doc world2)))
  /\ (forall form editing,
        allFilled (snd (handleFormSubmit oracle0 form editing world2)))
  /\ (forall secretId domain, allFilled (snd (deleteSecret secretId domain world2)))
  /\ (forall editing confirmed,
        allFilled (snd (handleDelete editing confirmed world2))).
Proof.
  apply (store_records_stay_filled oracle0 world2). exact world2_allFilled.
Defined.

Lemma form_keeps_secrets_decodable_witness :
  (forall form editing,
     allValid (snd (handleFormSubmit oracle0 form editing world2)))
  /\ (forall secret,
        TOTPGenerator.validateSecret (Secret.secret secret) = true ->
        allValid (snd (saveSecret oracle0 secret world2)))
  /\ (forall secretId domain, allValid (snd (deleteSecret secretId domain world2)))
  /\ (forall editing confirmed,
        allValid (snd (handleDelete editing confirmed world2))).
Proof.
  apply (form_keeps_secrets_decodable oracle0 world2). exact world2_allValid.
Defined.

Lemma store_keys_stay_plain_witness :
  (forall secret, plainKeys (snd (saveSecret oracle0 secret world2)))
  /\ (forall secretId domain, plainKeys (snd (deleteSecret secretId domain world2)))
  /\ (forall doc, plainKeys (snd (importSecrets oracle0 doc world2)))
  /\ (forall form editing,
        plainKeys (snd (handleFormSubmit oracle0 form editing world2)))
  /\ (forall editing confirmed,
        plainKeys (snd (handleDelete editing confirmed world2))).
Proof.
  apply (store_keys_stay_plain oracle0 world2). exact world2_plainKeys.
Defined.

Lemma ids_stay_unique_witness :
  idsUnique (snd (saveSecret oracle0 ghost world2))
  /\ forall secretId domain, idsUnique (snd (deleteSecret secretId domain world2)).
Proof.
  apply (ids_stay_unique oracle0 world2 ghost).
  - exact world2_idsUnique.
  - intros s Hs. change (Secret.website ghost) with "github.com" in Hs.
    rewrite world2_github in Hs. destruct Hs as [<- | [<- | []]]; discriminate.
Defined.

Lemma saveSecret_then_deleteSecret_witness :
  let w1 := snd (saveSecret oracle0 ghost world2) in
  let w2 := snd (deleteSecret (Some (randomId oracle0 (ids world2)))
                   (Secret.website ghost) w1) in
  fst (saveSecret oracle0 ghost world2) = Ok tt
  /\ bucket w1 (Secret.website ghost)
     = bucket world2 (Secret.website ghost) ++ [created oracle0 world2 ghost]
  /\ fst (deleteSecret (Some (randomId oracle0 (ids world2)))
            (Secret.website ghost) w1) = Ok tt
  /\ bucket w2 (Secret.website ghost) = bucket world2 (Secret.website ghost)
  /\ forall d, d <> Secret.website ghost -> local w2 !! d = local world2 !! d.
Proof.
  apply (saveSecret_then_deleteSecret oracle0 world2 ghost).
  - exact world2_reads_github.
  - intros s Hs. change (Secret.website ghost) with "github.com" in Hs.
    rewrite world2_github in Hs. destruct Hs as [<- | [<- | []]]; discriminate.
  - intros s Hs. change (Secret.website ghost) with "github.com" in Hs.
    rewrite world2_github in Hs. destruct Hs as [<- | [<- | []]]; discriminate.
Defined.

Lemma saveSecret_edit_in_place_witness :
  let w' := snd (saveSecret oracle0 github2 world2) in
  fst (saveSecret oracle0 github2 world2) = Ok tt
  /\ bucket w' (Secret.website github2) !! 1%nat
     = Some (Secret.with_updatedAt github2 (toISOString oracle0 (dates world2)))
  /\ List.length (bucket w' (Secret.website github2))
     = List.length (bucket world2 (Secret.website github2))
  /\ (forall j, j <> 1%nat ->
        bucket w' (Secret.website github2) !! j
        = bucket world2 (Secret.website github2) !! j)
  /\ (forall d, d <> Secret.website github2 -> local w' !! d = local world2 !! d)
  /\ ids w' = ids world2.
Proof.
  apply (saveSecret_edit_in_place oracle0 world2 github2 1 github2).
  - vm_compute. reflexivity.
  - reflexivity.
  - intros j y Hj Hy. assert (j = 0%nat) by lia. subst j.
    change (Secret.website github2) with "github.com" in Hy.
    rewrite world2_github in Hy. injection Hy as <-. discriminate.
Defined.

Lemma getAllSecrets_lists_every_record_witness :
  exists allSecrets,
    getAllSecrets ["github.com"; "example.org"] world2 = (Ok allSecrets, world2)
    /\ (forall s, In s allSecrets <-> exists d, In s (bucket world2 d))
    /\ List.length allSecrets
       = list_sum (List.map (fun k => List.length (bucket world2 k))
                     ["github.com"; "example.org"])
    /\ (wellBucketed world2 ->
        forall d, List.filter (fun s => String.eqb (Secret.website s) d) allSecrets
                  = bucket world2 d).
Proof.
  apply (getAllSecrets_lists_every_record world2 ["github.com"; "example.org"]).
  exact world2_keys.
Defined.

Lemma export_then_import_witness :
  exists doc w1 w',
    exportSecrets oracle0 ["github.com"; "example.org"] world2 = (Ok doc, w1)
    /\ local w1 = local world2
    /\ x_version doc = "1.0"
    /\ importSecrets oracle0 (reparsed doc) empty_world = (Ok undefined, w')
    /\ forall d, List.map erase (bucket w' d)
                 = List.map erase (bucket empty_world d)
                   ++ List.map exported (bucket world2 d).
Proof.
  apply (export_then_import oracle0 world2 ["github.com"; "example.org"] empty_world).
  - exact world2_keys.
  - exact world2_wellBucketed.
  - exact world2_allFilled.
  - exact world2_plainKeys.
  - exact empty_world_allHaveId.
Defined.

Lemma handleFormSubmit_adds_witness :
  exists w',
    handleFormSubmit oracle0 typed_form None world2 = (Ok showMainView, w')
    /\ bucket w' (trim (secretWebsite typed_form))
       = bucket world2 (trim (secretWebsite typed_form))
         ++ [created oracle0 world2 (formSecret typed_form)]
    /\ (forall d, d <> trim (secretWebsite typed_form) ->
                  local w' !! d = local world2 !! d)
    /\ Secret.secret (created oracle0 world2 (formSecret typed_form))
       = removeSpaces (trim (secretKey typed_form))
    /\ forallb (fun c => negb (isSpace c))
         (list_ascii_of_string
            (Secret.secret (created oracle0 world2 (formSecret typed_form))))
       = true
    /\ (trim (secretName typed_form) = "" ->
        Secret.name (created oracle0 world2 (formSecret typed_form))
        = trim (secretWebsite typed_form))
    /\ (trim (secretName typed_form) <> "" ->
        Secret.name (created oracle0 world2 (formSecret typed_form))
        = trim (secretName typed_form)).
Proof.
  apply (handleFormSubmit_adds oracle0 world2 typed_form).
  - exact world2_allHaveId.
  - vm_compute. discriminate.
  - right. vm_compute. reflexivity.
  - vm_compute. discriminate.
  - vm_compute. reflexivity.
Defined.

Example typed_form_stored :
  created oracle0 world2 (formSecret typed_form)
  = {| Secret.id := Some "mbd3k9q0"; Secret.website := "example.org";
       Secret.name := "example.org"; Secret.secret := "jbswy3dpehpk3pxp";
       Secret.issuer := ""; Secret.digits := 6; Secret.period := 30;
       Secret.algorithm := "SHA1";
       Secret.createdAt := Some "2025-06-01T10:00:00.000Z";
       Secret.updatedAt := Some "2025-06-01T10:00:01.000Z" |}.
Proof. vm_compute. reflexivity. Qed.

Lemma handleFormSubmit_rejects_witness :
  exists m,
    handleFormSubmit oracle0 bad_form (Some github) world2
    = (Ok (showError m), world2)
    /\ (m = "Please fill in all required fields"
        \/ m = "Invalid secret key. Please check the Base32 format.").
Proof.
  apply (handleFormSubmit_rejects oracle0 world2 bad_form (Some github)).
  right. right. vm_compute. reflexivity.
Defined.

Lemma handleFormSubmit_inherited_website_witness :
  handleFormSubmit oracle0 constructor_form None world2
  = (Ok (showError "Failed to save secret"), world2)
  /\ saveSecret oracle0 (submitted constructor_form None) world2
     = (Throw (TypeError "secrets.findIndex is not a function"), world2).
Proof.
  apply (handleFormSubmit_inherited_website oracle0 world2 constructor_form None).
  - exact world2_no_constructor.
  - vm_compute. discriminate.
  - vm_compute. reflexivity.
Defined.

Lemma editSecret_then_handleDelete_witness :
  let out := handleDelete (Some github2) true world2 in
  In github2 (bucket world2 "github.com") /\ Secret.id github2 = Some "lz1b8d3"
  /\ fst out = Ok (Some showMainView)
  /\ (forall s, In s (bucket (snd out) "github.com")
                <-> In s (bucket world2 "github.com")
                    /\ Secret.id s <> Some "lz1b8d3")
  /\ (forall d', d' <> "github.com" ->
                 local (snd out) !! d' = local world2 !! d')
  /\ handleDelete (Some github2) false world2 = (Ok None, world2)
  /\ (forall confirmed, handleDelete None confirmed world2 = (Ok None, world2)).
Proof.
  apply (editSecret_then_handleDelete world2 "github.com" "lz1b8d3" github2).
  - exact world2_wellBucketed.
  - vm_compute. reflexivity.
Defined.

Lemma importSecrets_stops_at_null_witness :
  importSecrets oracle0
    (Secrets (List.map Some three_entries ++ None :: [Some constructor_entry]))
    world2
  = (Throw (Error
       "Failed to import secrets: Cannot read properties of null (reading 'website')"),
     snd (importSecrets oracle0 (Secrets (List.map Some three_entries)) world2))
  /\ fst (importSecrets oracle0 (Secrets (List.map Some three_entries)) world2)
     = Ok undefined.
Proof.
  apply (importSecrets_stops_at_null oracle0 three_entries [Some constructor_entry]
           world2).
  exact three_entries_plain.
Defined.

Lemma importSecrets_stops_at_inherited_website_witness :
  importSecrets oracle0
    (Secrets (List.map Some three_entries ++ Some constructor_entry :: []))
    world2
  = (Throw (Error "Failed to import secrets: secrets.findIndex is not a function"),
     snd (importSecrets oracle0 (Secrets (List.map Some three_entries)) world2)).
Proof.
  apply (importSecrets_stops_at_inherited_website oracle0 three_entries
           constructor_entry [] world2).
  - exact world2_plainKeys.
  - exact three_entries_plain.
  - reflexivity.
  - vm_compute. discriminate.
Defined.

Lemma importSecrets_twice_duplicates_witness :
  exists w1 w2,
    importSecrets oracle0 (Secrets (List.map Some three_entries)) world2
    = (Ok undefined, w1)
    /\ importSecrets oracle0 (Secrets (List.map Some three_entries)) w1
       = (Ok undefined, w2)
    /\ forall d, List.map erase (bucket w2 d)
                 = List.map erase (bucket world2 d)
                   ++ List.map importedAs (keptFor d three_entries)
                   ++ List.map importedAs (keptFor d three_entries).
Proof.
  apply (importSecrets_twice_duplicates oracle0 three_entries world2).
  - exact world2_allHaveId.
  - exact three_entries_plain.
Defined.

(** The failures on an inherited name, on the storage area of two
    buckets: saving, deleting and importing under 'constructor'. *)
Example inherited_names_fail :
  saveSecret oracle0 (importedAs constructor_entry) world2
  = (Throw (TypeError "secrets.findIndex is not a function"), world2)
  /\ deleteSecret (Some "lz1a7c2") "toString" world2
     = (Throw (TypeError "secrets.filter is not a function"), world2)
  /\ importSecrets oracle0 (Secrets [Some (entry (Some "github.com") (Some "work")
                                             (Some "JBSWY3DPEHPK3PXP"));
                                     Some constructor_entry]) empty_world
     = (Throw (Error "Failed to import secrets: secrets.findIndex is not a function"),
        snd (importSecrets oracle0
               (Secrets [Some (entry (Some "github.com") (Some "work")
                                 (Some "JBSWY3DPEHPK3PXP"))]) empty_world)).
Proof. repeat split; vm_compute; reflexivity. Qed.

End StoreWitnesses.

(** * Further properties: the keyboard shortcut *)

Section Shortcut.

Import ServiceWorker.

(** On a website that has secrets, the shortcut works with the first
    record of the bucket only, at the clock's time, with that record's
    digits and period (6 and 30 when they are 0): it sends the code the
    popup shows for that record, under the record's name, or notifies
    the failure; the other records play no part and the storage area is
    not written. *)
Theorem shortcut_pastes_first_secret crypto now domain tab delivered w first others :
  domain <> "" -> tab <> 0 -> 0 <= Secret.digits first ->
  bucket w domain = first :: others ->
  handleTOTPShortcut crypto now (Some domain) (Some tab) delivered w
  = (Ok match TOTPGenerator.generateTOTP crypto now (Secret.secret first) None
                (if Secret.digits first =? 0 then 6%nat
                 else Z.to_nat (Secret.digits first))
                (if Secret.period first =? 0 then 30 else Secret.period first) with
        | Ok r =>
            if delivered
            then sent tab (TOTPGenerator.code r) (Secret.name first)
            else notified "TOTP Generator Error" "Failed to generate TOTP code"
        | Throw _ => notified "TOTP Generator Error" "Failed to generate TOTP code"
        end,
     w).
Proof.
  intros Hdomain Htab Hdigits Hbucket.
  unfold handleTOTPShortcut, truthy_prop, truthy_string, prop.
  cbn [default from_option id]. unfold id.
  destruct (String.eqb_spec domain "") as [| _]; [contradiction |]. cbn [negb].
  assert (Hread : getSecretsForDomain domain w = (Ok (array (first :: others)), w)).
  { unfold getSecretsForDomain, bind, storage_get, ret.
    unfold bucket in Hbucket.
    destruct (local w !! domain) as [l |]; [| discriminate].
    cbn [default from_option id] in Hbucket. unfold id in Hbucket.
    rewrite Hbucket. reflexivity. }
  unfold bind at 1. rewrite Hread.
  assert (Hd : Z.to_nat (or_number (Some (Secret.digits first)) 6)
               = if Secret.digits first =? 0 then 6%nat
                 else Z.to_nat (Secret.digits first)).
  { unfold or_number, truthy_number.
    destruct (Secret.digits first =? 0); reflexivity. }
  assert (Hp : or_number (Some (Secret.period first)) 30
               = if Secret.period first =? 0 then 30 else Secret.period first).
  { unfold or_number, truthy_number.
    destruct (Secret.period first =? 0); reflexivity. }
  rewrite Hd, Hp, Background_generateTOTP.
  destruct (TOTPGenerator.generateTOTP crypto now (Secret.secret first) None _ _)
    as [r | e]; [| reflexivity].
  unfold truthy_number.
  destruct (Z.eqb_spec tab 0) as [| _]; [contradiction |]. cbn [negb].
  destruct delivered; reflexivity.
Qed.

Lemma shortcut_pastes_first_secret_witness :
  handleTOTPShortcut browser 59000 (Some "github.com") (Some 7) true world2
  = (Ok match TOTPGenerator.generateTOTP browser 59000 (Secret.secret github) None
                (if Secret.digits github =? 0 then 6%nat
                 else Z.to_nat (Secret.digits github))
                (if Secret.period github =? 0 then 30 else Secret.period github) with
        | Ok r =>
            if true
            then sent 7 (TOTPGenerator.code r) (Secret.name github)
            else notified "TOTP Generator Error" "Failed to generate TOTP code"
        | Throw _ => notified "TOTP Generator Error" "Failed to generate TOTP code"
        end,
     world2).
Proof.
  apply (shortcut_pastes_first_secret browser 59000 "github.com" 7 true world2
           github [github2]).
  - discriminate.
  - discriminate.
  - vm_compute. discriminate.
  - vm_compute. reflexivity.
Defined.

(** On a page whose host is named 'constructor' the shortcut reads the
    inherited function, finds no first record in it, and shows the error
    notification. *)
Example shortcut_on_inherited_name :
  handleTOTPShortcut browser 59000 (Some "constructor") (Some 7) true world2
  = (Ok (notified "TOTP Generator Error" "Failed to generate TOTP code"), world2).
Proof. vm_compute. reflexivity. Qed.

End Shortcut.
